(** * EcoWise backend (backend/server.js): authentication boundary and
      aggregation read path

    A shallow embedding of the Express handlers of [backend/server.js].

    - The SQLite store is a pair of tables held as lists of rows in rowid
      order, with their AUTOINCREMENT counters.  Every SQL statement of the
      source is written out as the list computation it denotes (WHERE as
      [filter], SUM as a running sum, COALESCE, GROUP BY, ORDER BY, LIMIT
      and OFFSET with SQLite's reading of negative bounds).  A statement
      fails where the data of a request can make it fail: SUM over an
      INTEGER column when the running sum leaves the 64-bit integers, and
      LIMIT ? or OFFSET ? when the bound value is not a 64-bit integer.  The
      handlers then take their [err] branch.  Failures of the environment
      (disk, locking) are not modelled, and rowids stay far below 2^53.
    - An INTEGER column holds the numeric value of what was stored; SQLite
      keeps it as an INTEGER when it lies strictly between -2^63 and 2^63
      and as a REAL otherwise.  The REAL column is an abstract carrier with
      its addition ([SqlReal]), so nothing proved here depends on how
      floating point rounds.
    - bcrypt, jsonwebtoken, the sqlite3 binding and the ECMAScript
      conversions of values that are not strings are not part of the
      program.  They enter as interfaces ([Bcrypt], [Jwt], [Engine],
      [Runtime]); the behaviour that [jsonwebtoken] documents for [sign]
      with [expiresIn: '7d'] and for [verify] (signature first, then the
      [exp] claim against the clock in seconds) is written out over its
      interface.
    - The username and the password of a request body are JSON values, as
      [bodyParser.json()] delivers them; query parameters are what the
      query parser makes of the query string (a string, an array or an
      object).  The body of POST /api/history is read at the shape its
      comment documents: a string and three numbers, each possibly absent.
      Strings are sequences of code units below 256; [String.length] is
      the JS [.length].  A whole JS number is the integer it denotes.
    - Handlers return the response (if one is sent) together with the new
      store and the list of side effects they performed, in program
      order. *)

From Stdlib Require Import ZArith List String Ascii Bool Lia DecimalString.
From Stdlib Require Import Sorting.Sorted Sorting.Permutation.
From Stdlib Require Import Relations.Relation_Definitions OrderedTypeEx.
Import ListNotations.

Open Scope string_scope.
Open Scope Z_scope.

Set Warnings "-register-all".

(* ------------------------------------------------------------------ *)
(** ** JavaScript primitives used by the handlers *)

Module Js.

(** The double-quote character, U+0022. *)
Definition dquote : ascii := ascii_of_nat 34.

(** Truthiness of a possibly-undefined string: [undefined] and the empty
    string are falsy. *)
Definition truthy (o : option string) : bool :=
  match o with
  | None => false
  | Some s => negb (s =? "")%string
  end.

(** [a || b] on possibly-undefined strings. *)
Definition or (a b : option string) : option string :=
  if truthy a then a else b.

(** The string a possibly-undefined string holds, once the handler has
    checked that it is there. *)
Definition str (o : option string) : string :=
  match o with Some s => s | None => "" end.

(** Does the string hold no space? *)
Fixpoint no_space (s : string) : bool :=
  match s with
  | EmptyString => true
  | String c r => negb (Ascii.eqb c " ") && no_space r
  end.

(** [s.startsWith(p)]. *)
Definition startsWith (s p : string) : bool := String.prefix p s.

(** [s.split(sep)] for a one-character separator. *)
Fixpoint split (sep : ascii) (s : string) : list string :=
  match s with
  | EmptyString => [EmptyString]
  | String c r =>
      if Ascii.eqb c sep then EmptyString :: split sep r
      else match split sep r with
           | [] => [String c EmptyString]
           | w :: ws => String c w :: ws
           end
  end.

(** White space as [parseInt] and [trim] see it, among the code units
    below 256: TAB, LF, VT, FF, CR, SPACE and NBSP. *)
Definition is_ws (c : ascii) : bool :=
  let n := nat_of_ascii c in
  ((9 <=? n) && (n <=? 13) || (n =? 32) || (n =? 160))%nat.

Fixpoint skip_ws (s : string) : string :=
  match s with
  | EmptyString => EmptyString
  | String c r => if is_ws c then skip_ws r else s
  end.

Definition digit_val (c : ascii) : option Z :=
  let n := Z.of_nat (nat_of_ascii c) in
  if (48 <=? n) && (n <=? 57) then Some (n - 48) else None.

(** Value of the longest prefix of decimal digits, continuing [acc]. *)
Fixpoint digits (acc : Z) (s : string) : Z :=
  match s with
  | EmptyString => acc
  | String c r =>
      match digit_val c with
      | Some d => digits (acc * 10 + d) r
      | None => acc
      end
  end.

(** [None]: no digit at the front. *)
Definition parse_digits (s : string) : option Z :=
  match s with
  | EmptyString => None
  | String c _ =>
      match digit_val c with
      | Some _ => Some (digits 0 s)
      | None => None
      end
  end.

(** The whole number a JS number can hold that is nearest to [z]: [z]
    itself below 2^53 in magnitude, beyond that the nearest multiple of
    the spacing of the doubles around [z], a tie going to the even
    significand. *)
Definition round (z : Z) : Z :=
  let a := Z.abs z in
  if a <? 2 ^ 53 then z
  else
    let e := Z.log2 a - 52 in
    let q := a / 2 ^ e in
    let r := a mod 2 ^ e in
    let half := 2 ^ (e - 1) in
    let q1 := if r <? half then q
              else if half <? r then q + 1
              else if Z.even q then q else q + 1 in
    Z.sgn z * (q1 * 2 ^ e).

(** The results of [parseInt]: [NaN], a whole number, or an infinity. *)
Inductive number : Type :=
| NaN
| Num (z : Z)
| Infinity (negative : bool).

(** The JS number a decimal numeral denotes. *)
Definition number_of_Z (z : Z) : number :=
  let d := round z in
  if 2 ^ 1024 <=? Z.abs d then Infinity (z <? 0) else Num d.

Definition number_of (o : option Z) : number :=
  match o with
  | None => NaN
  | Some z => number_of_Z z
  end.

(** [parseInt(x, 10)] of a string ([undefined] gives [NaN]): leading
    white space is skipped, one sign is read, then the longest run of
    digits. *)
Definition parseInt (x : option string) : number :=
  match x with
  | None => NaN
  | Some s =>
      match skip_ws s with
      | String c r =>
          if Ascii.eqb c "-" then number_of (option_map Z.opp (parse_digits r))
          else if Ascii.eqb c "+" then number_of (parse_digits r)
          else number_of (parse_digits (String c r))
      | EmptyString => NaN
      end
  end.

(** Truthiness of the result of [parseInt]: [NaN] and [0] are falsy. *)
Definition truthy_num (n : number) : bool :=
  match n with
  | NaN => false
  | Num z => negb (z =? 0)
  | Infinity _ => true
  end.

(** [n || d] on the result of [parseInt]. *)
Definition or_num (n : number) (d : Z) : number :=
  if truthy_num n then n else Num d.

Definition rev_string (s : string) : string :=
  string_of_list_ascii (rev (list_ascii_of_string s)).

(** [s.trim()]. *)
Definition trim (s : string) : string :=
  rev_string (skip_ws (rev_string (skip_ws s))).

(** [s.replace(/c/g, r)]. *)
Fixpoint replace_all (c : ascii) (r : string) (s : string) : string :=
  match s with
  | EmptyString => EmptyString
  | String a t =>
      if Ascii.eqb a c then r ++ replace_all c r t
      else String a (replace_all c r t)
  end.

(** Decimal rendering of an integer, as a template literal does it. *)
Definition string_of_Z (z : Z) : string :=
  DecimalString.NilZero.string_of_int (Z.to_int z).

(** A parameter of the query string as the query parser delivers it: a
    string, an array (a parameter given more than once, or with
    brackets) or an object (a parameter with bracketed keys). *)
Inductive qs : Type :=
| QStr (s : string)
| QArr (l : list qs)
| QObj (fields : list (string * qs)).

(** Truthiness of a possibly-absent query parameter. *)
Definition qs_truthy (o : option qs) : bool :=
  match o with
  | None => false
  | Some (QStr s) => negb (s =? "")%string
  | Some _ => true
  end.

(** [String(q)]: an array joins its elements with commas; an object is
    ["[object Object]"], unless a key [toString] of its own hides the
    inherited method, and then the conversion throws a TypeError
    ([None]). *)
Fixpoint qs_to_string (q : qs) : option string :=
  match q with
  | QStr s => Some s
  | QArr l =>
      (fix join (l : list qs) : option string :=
         match l with
         | [] => Some ""
         | x :: rest =>
             match rest with
             | [] => qs_to_string x
             | _ :: _ =>
                 match qs_to_string x, join rest with
                 | Some a, Some b => Some (a ++ "," ++ b)
                 | _, _ => None
                 end
             end
         end) l
  | QObj fields =>
      if existsb (fun f => (fst f =? "toString")%string) fields then None
      else Some "[object Object]"
  end.

(** [parseInt(q, 10)] of a query parameter; [None] when the conversion
    to a string throws. *)
Definition parseInt_qs (o : option qs) : option number :=
  match o with
  | None => Some NaN
  | Some q => option_map (fun s => parseInt (Some s)) (qs_to_string q)
  end.

End Js.

(* ------------------------------------------------------------------ *)
(** ** Numbers *)

(** SQLite's REAL (a JS number on the way in and out).  [radd] is the
    addition SUM accumulates with, [r_truthy] the JS truthiness of such a
    number, [rle] its order. *)
Class SqlReal (R : Type) := {
  r0 : R;
  radd : R -> R -> R;
  rle : R -> R -> bool;
  r_truthy : R -> bool
}.

(* ------------------------------------------------------------------ *)
(** ** SQL operators *)

Module Sql.

(** How a statement fails. *)
Inductive error : Type :=
| IntegerOverflow
| DatatypeMismatch
| Failed.

(** What the callback of a statement receives: [err] or the result. *)
Definition result (A : Type) : Type := (error + A)%type.

(** What becomes of a JS value handed to a statement for a TEXT column:
    it is bound as a text, or the binding throws before the statement
    runs, or the statement fails and its callback receives [err]. *)
Inductive binding : Type :=
| Bound (text : string)
| Throws
| Fails.

(** A numeric result: an INTEGER or a REAL. *)
Inductive num (R : Type) : Type :=
| I (z : Z)
| F (r : R).

Arguments I {R} z.
Arguments F {R} r.

(** The 64-bit integers. *)
Definition int64 (z : Z) : bool := (- 2 ^ 63 <=? z) && (z <? 2 ^ 63).

(** A number that SQLite turns into an INTEGER, in a column of INTEGER
    affinity and where a statement needs an integer: a whole number
    strictly between the least 64-bit integer and 2^63. *)
Definition kept (z : Z) : bool := (- 2 ^ 63 <? z) && (z <? 2 ^ 63).

(** The running sum of SUM over INTEGER values, from [acc]: [None] once
    it leaves the 64-bit integers. *)
Fixpoint add_all (acc : Z) (l : list Z) : option Z :=
  match l with
  | [] => Some acc
  | v :: rest => if int64 (acc + v) then add_all (acc + v) rest else None
  end.

(** SUM over a REAL column: NULL when there is no row. *)
Definition sum_real {R} `{SqlReal R} (l : list R) : option R :=
  match l with
  | [] => None
  | _ => Some (fold_left radd l r0)
  end.

Definition coalesce {A} (x : option A) (d : A) : A :=
  match x with
  | Some v => v
  | None => d
  end.

(** A JS number bound to [LIMIT ?] or [OFFSET ?]: the statement fails
    with a datatype mismatch unless it is a number SQLite turns into an
    INTEGER. *)
Definition must_be_int (n : Js.number) : result Z :=
  match n with
  | Js.Num z => if kept z then inr z else inl DatatypeMismatch
  | _ => inl DatatypeMismatch
  end.

(** LIMIT n for an integer [n]: a negative bound is no bound. *)
Definition limit {A} (n : Z) (l : list A) : list A :=
  if n <? 0 then l else firstn (Z.to_nat n) l.

(** OFFSET n for an integer [n]: a negative offset is no offset. *)
Definition offset {A} (n : Z) (l : list A) : list A :=
  skipn (Z.to_nat n) l.

(** ORDER BY: [before a b] says that [a] may come before [b].  Rows that
    compare equal keep their scan order. *)
Fixpoint insert_row {A} (before : A -> A -> bool) (x : A) (l : list A)
  : list A :=
  match l with
  | [] => [x]
  | y :: r => if before x y then x :: l else y :: insert_row before x r
  end.

Definition order_by {A} (before : A -> A -> bool) (l : list A) : list A :=
  fold_right (insert_row before) [] l.

(** [a] may come before [b]. *)
Definition precedes {A} (before : A -> A -> bool) (a b : A) : Prop :=
  before a b = true.

(** The groups of GROUP BY on a text key: each key once. *)
Definition group_keys (l : list string) : list string :=
  nodup string_dec l.

(** ASCII case folding of LIKE. *)
Definition lower (c : ascii) : ascii :=
  let n := nat_of_ascii c in
  if ((65 <=? n) && (n <=? 90))%nat then ascii_of_nat (n + 32) else c.

(** [s LIKE p]: [%] matches any run, [_] any one character. *)
Fixpoint like_list (p : list ascii) : list ascii -> bool :=
  match p with
  | [] => fun s => match s with [] => true | _ => false end
  | c :: p' =>
      if Ascii.eqb c "%" then
        fix any (s : list ascii) : bool :=
          like_list p' s
          || match s with [] => false | _ :: s' => any s' end
      else if Ascii.eqb c "_" then
        fun s => match s with [] => false | _ :: s' => like_list p' s' end
      else
        fun s =>
          match s with
          | [] => false
          | d :: s' => Ascii.eqb (lower c) (lower d) && like_list p' s'
          end
  end.

Definition like (s p : string) : bool :=
  like_list (list_ascii_of_string p) (list_ascii_of_string s).

End Sql.

(* ------------------------------------------------------------------ *)
(** ** JS values, the store, requests and responses *)

Section Model.

Context {R : Type}.

(** The JS values the handlers receive, build and send.  A whole number
    is [Int], any other number [Real]. *)
Inductive value : Type :=
| Undefined
| Null
| Boolean (b : bool)
| Int (z : Z)
| Real (r : R)
| Str (s : string)
| Arr (l : list value)
| Obj (fields : list (string * value)).

(** [o.k]: [undefined] when the property is absent. *)
Definition get_field (k : string) (o : value) : value :=
  match o with
  | Obj fields =>
      match find (fun f => (fst f =? k)%string) fields with
      | Some f => snd f
      | None => Undefined
      end
  | _ => Undefined
  end.

Definition str_of (v : value) : string :=
  match v with Str s => s | _ => "" end.

Definition int_of (v : value) : Z :=
  match v with Int z => z | _ => 0 end.

(** What [JSON.stringify] keeps: a property whose value is [undefined] is
    dropped, an [undefined] array element becomes [null]. *)
Fixpoint jsonify (v : value) : value :=
  match v with
  | Arr l =>
      Arr (map (fun x => match jsonify x with
                         | Undefined => Null
                         | y => y
                         end) l)
  | Obj fields =>
      Obj ((fix props (fs : list (string * value)) :=
              match fs with
              | [] => []
              | (k, x) :: rest =>
                  match jsonify x with
                  | Undefined => props rest
                  | y => (k, y) :: props rest
                  end
              end) fields)
  | _ => v
  end.

(** Does an object with property [k] occur anywhere in [v]? *)
Fixpoint has_key (k : string) (v : value) : bool :=
  match v with
  | Arr l => existsb (has_key k) l
  | Obj fields =>
      (fix props (fs : list (string * value)) :=
         match fs with
         | [] => false
         | (k', x) :: rest => (k' =? k)%string || has_key k x || props rest
         end) fields
  | _ => false
  end.

(** The [users] table. *)
Record user_row := {
  u_id : Z;
  u_username : string;
  u_password_hash : string;
  u_created_at : string
}.

(** The [history] table. *)
Record history_row := {
  h_id : Z;
  h_username : string;
  h_filename : string;
  h_processed_at : string;
  h_eco_points_earned : Z;
  h_items_recycled : Z;
  h_carbon_saved_kg : R
}.

(** users.db: both tables in rowid order and the last rowid each
    AUTOINCREMENT column handed out. *)
Record store := {
  users : list user_row;
  history : list history_row;
  users_seq : Z;
  history_seq : Z
}.

Definition empty_store : store :=
  {| users := []; history := []; users_seq := 0; history_seq := 0 |}.

(** A row of the leaderboard query. *)
Record leader := {
  l_username : string;
  l_eco_points : Sql.num R;
  l_items_recycled : Sql.num R;
  l_carbon_saved_kg : R
}.

(** The claim set of a session token: [{ id, username, iat, exp }]. *)
Record claims := {
  jwt_id : Z;
  jwt_username : value;
  jwt_iat : Z;
  jwt_exp : Z
}.

(** [process.env]. *)
Record config := {
  env_JWT_SECRET : option string;
  env_ADMIN_SECRET : option string
}.

(** What a handler reads from outside the request: [Date.now()] in
    milliseconds, the text SQLite gives CURRENT_TIMESTAMP, and the salt
    bcrypt draws. *)
Record env := {
  now : Z;
  CURRENT_TIMESTAMP : string;
  salt : string
}.

Record request := {
  headers_authorization : option string;
  headers_x_admin_secret : option string;
  params_username : string;
  params_id : string;
  query_limit : option Js.qs;
  query_offset : option Js.qs;
  query_search : option Js.qs;
  query_admin_secret : option Js.qs;
  body_username : value;
  body_password : value;
  body_filename : option string;
  body_eco_points_earned : option Z;
  body_items_recycled : option Z;
  body_carbon_saved_kg : option R
}.

(** What a response carries: JSON, text, or the page Express's final
    handler writes when a handler throws (its text is Express's). *)
Inductive payload : Type :=
| Json (v : value)
| Text (s : string)
| ErrorPage.

Record response := {
  status : Z;
  headers : list (string * string);
  body : payload
}.

(** Side effects a handler performs besides answering. *)
Inductive effect : Type :=
| BcryptHash (password : value)
| BcryptCompare (password : value) (hash : string)
| InsertUser (username password_hash : string)
| InsertHistory (username : string).

(** What a request leaves behind: the response, if one was sent, the
    store and the effects. *)
Record outcome := {
  resp : option response;
  store' : store;
  effects : list effect
}.

(** [res.json(v)]. *)
Definition res_json (v : value) : response :=
  {| status := 200; headers := []; body := Json (jsonify v) |}.

(** [res.status(code).json({ error: msg })]. *)
Definition res_error (code : Z) (msg : string) : response :=
  {| status := code; headers := [];
     body := Json (Obj [("error", Str msg)]) |}.

(** The handler threw before answering: Express answers 500 with its
    error page. *)
Definition express_error : response :=
  {| status := 500; headers := []; body := ErrorPage |}.

(** A handler that only reads. *)
Definition reply (db : store) (r : response) : outcome :=
  {| resp := Some r; store' := db; effects := [] |}.

End Model.

Arguments value : clear implicits.
Arguments user_row : clear implicits.
Arguments history_row : clear implicits.
Arguments store : clear implicits.
Arguments leader : clear implicits.
Arguments claims : clear implicits.
Arguments request : clear implicits.
Arguments payload : clear implicits.
Arguments response : clear implicits.
Arguments effect : clear implicits.
Arguments outcome : clear implicits.

(** Induction over values, through arrays and objects. *)
Section ValueInduction.

Context {R : Type} (P : value R -> Prop).

Hypothesis P_Undefined : P Undefined.
Hypothesis P_Null : P Null.
Hypothesis P_Boolean : forall b, P (Boolean b).
Hypothesis P_Int : forall z, P (Int z).
Hypothesis P_Real : forall r, P (Real r).
Hypothesis P_Str : forall s, P (Str s).
Hypothesis P_Arr : forall l, Forall P l -> P (Arr l).
Hypothesis P_Obj :
  forall fields, Forall (fun f => P (snd f)) fields -> P (Obj fields).

Fixpoint value_induction (v : value R) : P v :=
  match v with
  | Undefined => P_Undefined
  | Null => P_Null
  | Boolean b => P_Boolean b
  | Int z => P_Int z
  | Real r => P_Real r
  | Str s => P_Str s
  | Arr l =>
      P_Arr l
        ((fix all (l : list (value R)) : Forall P l :=
            match l with
            | [] => Forall_nil P
            | x :: rest => Forall_cons x (value_induction x) (all rest)
            end) l)
  | Obj fields =>
      P_Obj fields
        ((fix all (fs : list (string * value R))
            : Forall (fun f => P (snd f)) fs :=
            match fs with
            | [] => Forall_nil _
            | f :: rest =>
                Forall_cons f (value_induction (snd f)) (all rest)
            end) fields)
  end.

End ValueInduction.

(** The parts of [jsonify]: an array element and the properties of an
    object as JSON keeps them. *)
Section JsonParts.

Context {R : Type}.

Definition json_item (x : value R) : value R :=
  match jsonify x with
  | Undefined => Null
  | y => y
  end.

Fixpoint json_props (fs : list (string * value R))
  : list (string * value R) :=
  match fs with
  | [] => []
  | (k, x) :: rest =>
      match jsonify x with
      | Undefined => json_props rest
      | y => (k, y) :: json_props rest
      end
  end.

(** The properties of an object among which [has_key] looks. *)
Fixpoint props_have_key (k : string) (fs : list (string * value R))
  : bool :=
  match fs with
  | [] => false
  | (k', x) :: rest => (k' =? k)%string || has_key k x || props_have_key k rest
  end.

End JsonParts.

(* ------------------------------------------------------------------ *)
(** ** Interfaces of the program's dependencies *)

(** The ECMAScript conversions of values that are not strings:
    [lt_number x n] is [x < n] for a number literal [n] when [x] has to go
    through ToPrimitive and ToNumber first ([None]: the conversion throws
    a TypeError), [to_string x] is [String(x)]. *)
Class Runtime (R : Type) := {
  lt_number : value R -> Z -> option bool;
  to_string : value R -> string
}.

(** [bcrypt_hash salt data rounds] is [bcrypt.hash(data, rounds)] when
    bcrypt draws [salt]; [bcrypt_compare data hash] is
    [bcrypt.compare(data, hash)].  [None]: the promise is rejected. *)
Class Bcrypt (R : Type) := {
  bcrypt_hash : string -> value R -> Z -> option string;
  bcrypt_compare : value R -> string -> option bool
}.

(** jsonwebtoken's primitives: the keyed signature over a claim set, and
    the compact serialisation of a claim set with its signature. *)
Class Jwt (R : Type) := {
  jws_sign : string -> claims R -> string;
  jws_encode : claims R -> string -> string;
  jws_decode : string -> option (claims R * string)
}.

(** What the source leaves to the sqlite3 binding and to SQLite.
    - [run_text v]: what becomes of a value [v] that is not a string as
      the first argument of [stmt.run(v, ...)].
    - [param_text v]: the same for a value passed in the array of
      parameters of [db.get] and [db.run].
    - [sum_reals l]: SUM over an INTEGER column that holds a REAL (a
      number SQLite did not turn into an INTEGER): the arithmetic is
      floating point.
    - [rank l]: the rows of [ORDER BY eco_points DESC], which decides the
      order of rows with equal points. *)
Class Engine (R : Type) := {
  run_text : value R -> Sql.binding;
  param_text : value R -> Sql.binding;
  sum_reals : list Z -> Sql.result (option (Sql.num R));
  rank : list (leader R) -> list (leader R)
}.

(* ------------------------------------------------------------------ *)
(** ** The queries of server.js *)

Section Queries.

Context {R : Type} {RO : SqlReal R} {XO : Runtime R} {EO : Engine R}.

(** JS truthiness of a value. *)
Definition v_truthy (v : value R) : bool :=
  match v with
  | Undefined | Null => false
  | Boolean b => b
  | Int z => negb (z =? 0)
  | Real r => r_truthy r
  | Str s => negb (s =? "")%string
  | Arr _ | Obj _ => true
  end.

(** [a || b] on values. *)
Definition v_or (a b : value R) : value R :=
  if v_truthy a then a else b.

(** [v.length] of a truthy value: the number of code units of a string,
    the number of elements of an array, the [length] property of an
    object if it has one, and [undefined] for a number or [true]. *)
Definition v_length (v : value R) : value R :=
  match v with
  | Str s => Int (Z.of_nat (String.length s))
  | Arr l => Int (Z.of_nat (List.length l))
  | Obj _ => get_field "length" v
  | _ => Undefined
  end.

(** [x < n] for a number literal [n]: [undefined] converts to [NaN],
    which is below nothing; [null], [false] and [true] convert to 0, 0
    and 1. *)
Definition v_lt (x : value R) (n : Z) : option bool :=
  match x with
  | Undefined => Some false
  | Null => Some (0 <? n)
  | Boolean b => Some ((if b then 1 else 0) <? n)
  | Int z => Some (z <? n)
  | _ => lt_number x n
  end.

(** [String(v)]. *)
Definition v_to_string (v : value R) : string :=
  match v with
  | Str s => s
  | _ => to_string v
  end.

(** [v] as the first argument of [stmt.run]: a string is bound as it
    is. *)
Definition arg_text (v : value R) : Sql.binding :=
  match v with
  | Str s => Sql.Bound s
  | _ => run_text v
  end.

(** [v] in an array of parameters. *)
Definition bound_text (v : value R) : Sql.binding :=
  match v with
  | Str s => Sql.Bound s
  | _ => param_text v
  end.

(** An INTEGER or REAL result as the JS number the binding hands over. *)
Definition num_value (n : Sql.num R) : value R :=
  match n with
  | Sql.I z => Int (Js.round z)
  | Sql.F r => Real r
  end.

(** The value of column [c] of a [users] row. *)
Definition user_col (c : string) (r : user_row) : value R :=
  if (c =? "id")%string then Int (u_id r)
  else if (c =? "username")%string then Str (u_username r)
  else if (c =? "password_hash")%string then Str (u_password_hash r)
  else if (c =? "created_at")%string then Str (u_created_at r)
  else Undefined.

(** The row object of [SELECT cols FROM users]. *)
Definition select_user (cols : list string) (r : user_row) : value R :=
  Obj (map (fun c => (c, user_col c r)) cols).

Definition history_col (c : string) (r : history_row R) : value R :=
  if (c =? "id")%string then Int (h_id r)
  else if (c =? "username")%string then Str (h_username r)
  else if (c =? "filename")%string then Str (h_filename r)
  else if (c =? "processed_at")%string then Str (h_processed_at r)
  else if (c =? "eco_points_earned")%string
  then Int (Js.round (h_eco_points_earned r))
  else if (c =? "items_recycled")%string
  then Int (Js.round (h_items_recycled r))
  else if (c =? "carbon_saved_kg")%string then Real (h_carbon_saved_kg r)
  else Undefined.

Definition select_history (cols : list string) (r : history_row R)
  : value R :=
  Obj (map (fun c => (c, history_col c r)) cols).

(** [... FROM users WHERE username = ?] through [db.get]: the first
    row, if any. *)
Definition user_by_username (db : store R) (username : string)
  : option user_row :=
  find (fun r => (u_username r =? username)%string) (users db).

(** [... FROM users WHERE id = ?] through [db.get]. *)
Definition user_by_id (db : store R) (id : Z) : option user_row :=
  find (fun r => u_id r =? id) (users db).

(** [... FROM history WHERE username = ?]. *)
Definition history_of (db : store R) (username : string)
  : list (history_row R) :=
  filter (fun r => (h_username r =? username)%string) (history db).

(** [INSERT INTO users (username, password_hash) VALUES (?, ?)]:
    [None] is the UNIQUE violation on [username]; otherwise the new
    store and [this.lastID]. *)
Definition insert_user (db : store R) (ts username password_hash : string)
  : option (store R * Z) :=
  if existsb (fun r => (u_username r =? username)%string) (users db)
  then None
  else
    let id := users_seq db + 1 in
    Some ({| users := users db ++
               [{| u_id := id; u_username := username;
                   u_password_hash := password_hash;
                   u_created_at := ts |}];
             history := history db;
             users_seq := id;
             history_seq := history_seq db |}, id).

(** [INSERT INTO history (username, filename, eco_points_earned,
    items_recycled, carbon_saved_kg) VALUES (?, ?, ?, ?, ?)];
    [processed_at] takes its default. *)
Definition insert_history (db : store R) (ts username filename : string)
    (eco_points_earned items_recycled : Z) (carbon_saved_kg : R)
  : store R * Z :=
  let id := history_seq db + 1 in
  ({| users := users db;
      history := history db ++
        [{| h_id := id; h_username := username; h_filename := filename;
            h_processed_at := ts;
            h_eco_points_earned := eco_points_earned;
            h_items_recycled := items_recycled;
            h_carbon_saved_kg := carbon_saved_kg |}];
      users_seq := users_seq db;
      history_seq := id |}, id).

(** SUM over an INTEGER column, in scan order: NULL when there is no
    row; over INTEGER values the exact sum, and "integer overflow" once
    the running sum leaves the 64-bit integers; floating point as soon as
    the column holds a REAL. *)
Definition sum_int (l : list Z) : Sql.result (option (Sql.num R)) :=
  match l with
  | [] => inr None
  | _ :: _ =>
      if forallb Sql.kept l then
        match Sql.add_all 0 l with
        | Some s => inr (Some (Sql.I s))
        | None => inl Sql.IntegerOverflow
        end
      else sum_reals l
  end.

(** [SELECT COALESCE(SUM(eco_points_earned),0) AS eco_points,
           COALESCE(SUM(items_recycled),0) AS items_recycled,
           COALESCE(SUM(carbon_saved_kg),0) AS carbon_saved_kg]
    over the given rows. *)
Definition sum_columns (rows : list (history_row R))
  : Sql.result (list (string * value R)) :=
  match sum_int (map h_eco_points_earned rows),
        sum_int (map h_items_recycled rows) with
  | inr eco, inr items =>
      inr [("eco_points", num_value (Sql.coalesce eco (Sql.I 0)));
           ("items_recycled", num_value (Sql.coalesce items (Sql.I 0)));
           ("carbon_saved_kg",
            Real (Sql.coalesce (Sql.sum_real (map h_carbon_saved_kg rows))
                    r0))]
  | inl err, _ => inl err
  | _, inl err => inl err
  end.

(** The aggregate query of [getUserAggregates]: one row, or [err]. *)
Definition aggregate_row (db : store R) (username : string)
  : Sql.result (option (value R)) :=
  match sum_columns (history_of db username) with
  | inl err => inl err
  | inr cols => inr (Some (Obj cols))
  end.

(** helper to fetch aggregated user stats from history: [inl] is
    [cb(err)], [inr] is [cb(null, ...)]. *)
Definition getUserAggregates (db : store R) (username : string)
  : Sql.result (value R) :=
  match aggregate_row db username with
  | inl err => inl err
  | inr row =>
      inr (v_or (Sql.coalesce row Undefined)
             (Obj [("eco_points", Int 0);
                   ("items_recycled", Int 0);
                   ("carbon_saved_kg", Real r0)]))
  end.

(** [ORDER BY processed_at DESC]: text comparison, greatest first. *)
Definition processed_at_desc (a b : history_row R) : bool :=
  String.leb (h_processed_at b) (h_processed_at a).

(** [SELECT filename, processed_at, eco_points_earned, items_recycled,
    carbon_saved_kg FROM history WHERE username = ?
    ORDER BY processed_at DESC LIMIT lim], before projection. *)
Definition history_query (db : store R) (username : string) (lim : Z)
  : list (history_row R) :=
  Sql.limit lim (Sql.order_by processed_at_desc (history_of db username)).

Definition history_cols : list string :=
  ["filename"; "processed_at"; "eco_points_earned"; "items_recycled";
   "carbon_saved_kg"].

(** One group of [GROUP BY username] with its sums. *)
Definition leader_of (db : store R) (username : string)
  : Sql.result (leader R) :=
  let rows := history_of db username in
  match sum_int (map h_eco_points_earned rows),
        sum_int (map h_items_recycled rows) with
  | inr eco, inr items =>
      inr {| l_username := username;
             l_eco_points := Sql.coalesce eco (Sql.I 0);
             l_items_recycled := Sql.coalesce items (Sql.I 0);
             l_carbon_saved_kg :=
               Sql.coalesce (Sql.sum_real (map h_carbon_saved_kg rows))
                 r0 |}
  | inl err, _ => inl err
  | _, inl err => inl err
  end.

(** The results of the groups, or the first [err]. *)
Fixpoint all_rows {A} (l : list (Sql.result A)) : Sql.result (list A) :=
  match l with
  | [] => inr []
  | inl err :: _ => inl err
  | inr x :: rest =>
      match all_rows rest with
      | inl err => inl err
      | inr xs => inr (x :: xs)
      end
  end.

(** The grouped table before ORDER BY and LIMIT. *)
Definition leaderboard_groups (db : store R) : Sql.result (list (leader R)) :=
  all_rows (map (leader_of db) (Sql.group_keys (map h_username (history db)))).

(** [SELECT username, COALESCE(SUM(..),0) AS eco_points, ...
     FROM history GROUP BY username ORDER BY eco_points DESC LIMIT 25]. *)
Definition leaderboard_query (db : store R) : Sql.result (list (leader R)) :=
  match leaderboard_groups db with
  | inl err => inl err
  | inr groups => inr (Sql.limit 25 (rank groups))
  end.

Definition leader_obj (l : leader R) : value R :=
  Obj [("username", Str (l_username l));
       ("eco_points", num_value (l_eco_points l));
       ("items_recycled", num_value (l_items_recycled l));
       ("carbon_saved_kg", Real (l_carbon_saved_kg l))].

End Queries.

(* ------------------------------------------------------------------ *)
(** ** Session tokens: jsonwebtoken over the [Jwt] interface *)

Section Tokens.

Context {R : Type} {JO : Jwt R}.

(** ['7d'] in milliseconds, as the [ms] package reads it. *)
Definition ms_7d : Z := 7 * 24 * 60 * 60 * 1000.

(** [Math.floor(Date.now() / 1000)]. *)
Definition clock_seconds (now_ms : Z) : Z := now_ms / 1000.

(** The claim set [jwt.sign({ id, username }, _, { expiresIn: '7d' })]
    signs at [now_ms]; the payload travels as JSON. *)
Definition issued_claims (id : Z) (username : value R) (now_ms : Z)
  : claims R :=
  let iat := clock_seconds now_ms in
  {| jwt_id := id; jwt_username := jsonify username;
     jwt_iat := iat; jwt_exp := iat + ms_7d / 1000 |}.

(** [jwt.sign(user, secret, { expiresIn: '7d' })]. *)
Definition jwt_sign (id : Z) (username : value R) (secret : string)
    (now_ms : Z) : string :=
  let c := issued_claims id username now_ms in
  jws_encode c (jws_sign secret c).

(** How [jwt.verify] fails. *)
Inductive verify_error : Type :=
| Malformed
| BadSignature
| Expired.

(** [jwt.verify(token, secret, cb)]: the token must be there and
    decode, its signature must be the one [secret] gives, and the clock
    must not have reached [exp]. *)
Definition jwt_verify (token : option string) (secret : string)
    (now_ms : Z) : verify_error + claims R :=
  match token with
  | None => inl Malformed
  | Some t =>
      if (t =? "")%string then inl Malformed
      else
        match jws_decode t with
        | None => inl Malformed
        | Some (c, sig) =>
            if negb (sig =? jws_sign secret c)%string then inl BadSignature
            else if jwt_exp c <=? clock_seconds now_ms then inl Expired
            else inr c
        end
  end.

End Tokens.

(* ------------------------------------------------------------------ *)
(** ** The handlers *)

Section Handlers.

Context {R : Type} {RO : SqlReal R} {XO : Runtime R} {BO : Bcrypt R}
        {JO : Jwt R} {EO : Engine R}.

(** [process.env.JWT_SECRET || 'change_this_to_a_strong_secret'] *)
Definition JWT_SECRET (cfg : config) : string :=
  Js.str (Js.or (env_JWT_SECRET cfg)
            (Some "change_this_to_a_strong_secret")).

(** [process.env.ADMIN_SECRET || 'change_this_admin_secret'] *)
Definition ADMIN_SECRET (cfg : config) : string :=
  Js.str (Js.or (env_ADMIN_SECRET cfg) (Some "change_this_admin_secret")).

(** Helper: safe user object returned to clients *)
Definition safeUser (row : value R) : value R :=
  if negb (v_truthy row) then Null
  else Obj [("id", get_field "id" row);
            ("username", get_field "username" row);
            ("created_at", get_field "created_at" row)].

(** [!username || !password || username.length < 3 ||
    password.length < 6]; [None] when a comparison throws. *)
Definition register_rejects (username password : value R) : option bool :=
  if negb (v_truthy username) then Some true
  else if negb (v_truthy password) then Some true
  else
    match v_lt (v_length username) 3 with
    | None => None
    | Some true => Some true
    | Some false => v_lt (v_length password) 6
    end.

(** POST /api/register *)
Definition post_api_register (cfg : config) (e : env) (db : store R)
    (req : request R) : outcome R :=
  let username := body_username req in
  let password := body_password req in
  match register_rejects username password with
  | None => reply db (res_error 500 "Server error.")
  | Some true =>
      reply db
        (res_error 400 "Username must be 3+ chars and password 6+ chars.")
  | Some false =>
      match bcrypt_hash (salt e) password 10 with
      | None =>
          {| resp := Some (res_error 500 "Server error.");
             store' := db;
             effects := [BcryptHash password] |}
      | Some password_hash =>
          match arg_text username with
          | Sql.Throws =>
              {| resp := Some (res_error 500 "Server error.");
                 store' := db;
                 effects := [BcryptHash password] |}
          | Sql.Fails =>
              {| resp := Some (res_error 500 "Database error.");
                 store' := db;
                 effects := [BcryptHash password] |}
          | Sql.Bound name =>
              match insert_user db (CURRENT_TIMESTAMP e) name
                      password_hash with
              | None =>
                  {| resp := Some (res_error 409 "Username already exists.");
                     store' := db;
                     effects := [BcryptHash password] |}
              | Some (db1, lastID) =>
                  let user := Obj [("id", Int lastID);
                                   ("username", username)] in
                  let token := jwt_sign lastID username (JWT_SECRET cfg)
                                 (now e) in
                  {| resp := Some (res_json
                                     (Obj [("message", Str "Registered");
                                           ("token", Str token);
                                           ("user", safeUser user)]));
                     store' := db1;
                     effects := [BcryptHash password;
                                 InsertUser name password_hash] |}
              end
          end
      end
  end.

(** POST /api/login.  The rejection of [bcrypt.compare] is caught
    nowhere: the request is then never answered. *)
Definition post_api_login (cfg : config) (e : env) (db : store R)
    (req : request R) : outcome R :=
  let username := body_username req in
  let password := body_password req in
  if negb (v_truthy username) || negb (v_truthy password)
  then reply db (res_error 400 "Username & password required.")
  else
    match bound_text username with
    | Sql.Throws => reply db express_error
    | Sql.Fails => reply db (res_error 500 "DB error")
    | Sql.Bound name =>
        match option_map
                (select_user
                   ["id"; "username"; "password_hash"; "created_at"])
                (user_by_username db name) with
        | None => reply db (res_error 401 "Invalid credentials.")
        | Some row =>
            let hash := str_of (get_field "password_hash" row) in
            match bcrypt_compare password hash with
            | None =>
                {| resp := None;
                   store' := db;
                   effects := [BcryptCompare password hash] |}
            | Some matched =>
                if negb matched
                then {| resp := Some (res_error 401 "Invalid credentials.");
                        store' := db;
                        effects := [BcryptCompare password hash] |}
                else
                  let token := jwt_sign (int_of (get_field "id" row))
                                 (get_field "username" row)
                                 (JWT_SECRET cfg) (now e) in
                  {| resp := Some (res_json
                                     (Obj [("message", Str "Logged in");
                                           ("token", Str token);
                                           ("user", safeUser row)]));
                     store' := db;
                     effects := [BcryptCompare password hash] |}
            end
        end
    end.

(** Auth middleware for API endpoints expecting JWT: [next] runs with
    [req.user] set to the verified claims. *)
Definition authenticate (cfg : config) (e : env) (db : store R)
    (req : request R) (next : claims R -> outcome R) : outcome R :=
  let auth := headers_authorization req in
  if negb (Js.truthy auth) || negb (Js.startsWith (Js.str auth) "Bearer ")
  then reply db (res_error 401 "Missing token.")
  else
    let token := nth_error (Js.split " " (Js.str auth)) 1 in
    match jwt_verify token (JWT_SECRET cfg) (now e) with
    | inl _ => reply db (res_error 401 "Invalid token.")
    | inr user => next user
    end.

(** GET /api/me *)
Definition get_api_me (cfg : config) (e : env) (db : store R)
    (req : request R) : outcome R :=
  authenticate cfg e db req (fun user =>
    reply db (res_json
      (Obj [("user", Obj [("id", Int (jwt_id user));
                          ("username", jwt_username user)])]))).

(** GET profile (both /user/:username and /api/user/:username) *)
Definition handleGetUserProfile (db : store R) (req : request R)
  : response R :=
  let username := params_username req in
  if negb (Js.truthy (Some username))
  then res_error 400 "Missing username"
  else
    match option_map (select_user ["id"; "username"; "created_at"])
            (user_by_username db username) with
    | None => res_error 404 "User not found"
    | Some userRow =>
        match getUserAggregates db username with
        | inl _ => res_error 500 "DB error"
        | inr agg =>
            res_json
              (Obj [("id", get_field "id" userRow);
                    ("username", get_field "username" userRow);
                    ("created_at", get_field "created_at" userRow);
                    ("eco_points",
                     v_or (get_field "eco_points" agg) (Int 0));
                    ("items_recycled",
                     v_or (get_field "items_recycled" agg) (Int 0));
                    ("carbon_saved_kg",
                     v_or (get_field "carbon_saved_kg" agg) (Real r0))])
        end
    end.

(** GET user history (both /user/:username/history and
    /api/user/:username/history) *)
Definition handleGetUserHistory (db : store R) (req : request R)
  : response R :=
  let username := params_username req in
  match Js.parseInt_qs (query_limit req) with
  | None => express_error
  | Some n =>
      let limit := Js.or_num n 50 in
      match Sql.must_be_int limit with
      | inl _ => res_error 500 "DB error"
      | inr lim =>
          let rows := map (select_history history_cols)
                        (history_query db username lim) in
          res_json (Obj [("history", v_or (Arr rows) (Arr []))])
      end
  end.

(** GET leaderboard (both /leaderboard and /api/leaderboard) *)
Definition handleLeaderboard (db : store R) (req : request R)
  : response R :=
  match leaderboard_query db with
  | inl _ => res_error 500 "DB error"
  | inr leaders =>
      let rows := map leader_obj leaders in
      res_json (Obj [("leaderboard", v_or (Arr rows) (Arr []))])
  end.

(** [req.headers['x-admin-secret'] || req.query.admin_secret] *)
Definition presented_secret (req : request R) : option Js.qs :=
  if Js.truthy (headers_x_admin_secret req)
  then option_map Js.QStr (headers_x_admin_secret req)
  else query_admin_secret req.

(** [token === secret]: only a string is identical to a string. *)
Definition is_secret (token : option Js.qs) (secret : string) : bool :=
  match token with
  | Some (Js.QStr t) => (t =? secret)%string
  | _ => false
  end.

(** simple admin auth middleware *)
Definition adminAuth (cfg : config) (req : request R)
    (next : response R) : response R :=
  let token := presented_secret req in
  if negb (Js.qs_truthy token) || negb (is_secret token (ADMIN_SECRET cfg))
  then res_error 401 "Admin auth required"
  else next.

(** [(req.query.search || '').trim()]; [None] when [trim] is not a
    function of the value. *)
Definition search_term (search : option Js.qs) : option string :=
  if Js.qs_truthy search then
    match search with
    | Some (Js.QStr s) => Some (Js.trim s)
    | _ => None
    end
  else Some (Js.trim "").

(** GET /admin/users?limit=100&offset=0&search=alice *)
Definition get_admin_users (cfg : config) (db : store R)
    (req : request R) : response R :=
  adminAuth cfg req
    (match Js.parseInt_qs (query_limit req),
           Js.parseInt_qs (query_offset req),
           search_term (query_search req) with
     | Some nl, Some no, Some search =>
         let limit := Js.or_num nl 100 in
         let offset := Js.or_num no 0 in
         let matching :=
           if Js.truthy (Some search)
           then filter
                  (fun r => Sql.like (u_username r) ("%" ++ search ++ "%"))
                  (users db)
           else users db in
         match Sql.must_be_int limit, Sql.must_be_int offset with
         | inr lim, inr off =>
             let rows :=
               Sql.limit lim
                 (Sql.offset off
                    (Sql.order_by (fun a b => u_id b <=? u_id a)
                       matching)) in
             res_json
               (Obj [("users",
                      v_or (Arr (map (select_user
                                        ["id"; "username"; "created_at"])
                                   rows))
                        (Arr []))])
         | _, _ => res_error 500 "DB error"
         end
     | _, _, _ => express_error
     end).

(** GET /admin/user/:id *)
Definition get_admin_user (cfg : config) (db : store R)
    (req : request R) : response R :=
  adminAuth cfg req
    (let id := Js.parseInt (Some (params_id req)) in
     if negb (Js.truthy_num id) then res_error 400 "Invalid id"
     else
       match match id with
             | Js.Num z => user_by_id db z
             | _ => None
             end with
       | None => res_error 404 "Not found"
       | Some u =>
           let row := select_user ["id"; "username"; "created_at"] u in
           let hRows :=
             map (select_history history_cols)
               (history_query db (str_of (get_field "username" row)) 500) in
           res_json (Obj [("user", row);
                          ("history", v_or (Arr hRows) (Arr []))])
       end).

Definition newline : string := String (ascii_of_nat 10) EmptyString.

Definition quote : string := String Js.dquote EmptyString.

(** One line of the export: [`${r.id},"${u}",${r.created_at}\n`] with the
    double quotes of the username doubled. *)
Definition csv_line (r : user_row) : string :=
  let u := Js.replace_all Js.dquote (quote ++ quote)
             (Js.str (Js.or (Some (u_username r)) (Some ""))) in
  Js.string_of_Z (u_id r) ++ "," ++ quote ++ u ++ quote ++ ","
    ++ u_created_at r ++ newline.

(** GET /admin/export/users.csv *)
Definition get_admin_export_users_csv (cfg : config) (db : store R)
    (req : request R) : response R :=
  adminAuth cfg req
    (let rows := Sql.order_by (fun a b => u_id a <=? u_id b) (users db) in
     {| status := 200;
        headers :=
          [("Content-Type", "text/csv");
           ("Content-Disposition",
            "attachment; filename=" ++ quote ++ "users.csv" ++ quote)];
        body := Text (("id,username,created_at" ++ newline)
                        ++ String.concat "" (map csv_line rows)) |}).

(** POST /api/history *)
Definition post_api_history (cfg : config) (e : env) (db : store R)
    (req : request R) : outcome R :=
  authenticate cfg e db req (fun user =>
    let username := jwt_username user in
    if negb (v_truthy username)
    then reply db (res_error 401 "Unauthorized")
    else
      let filename := body_filename req in
      let eco_points_earned :=
        Sql.coalesce (body_eco_points_earned req) 0 in
      let items_recycled := Sql.coalesce (body_items_recycled req) 0 in
      let carbon_saved_kg := Sql.coalesce (body_carbon_saved_kg req) r0 in
      match bound_text username with
      | Sql.Throws => reply db express_error
      | Sql.Fails => reply db (res_error 500 "DB error")
      | Sql.Bound name =>
          let '(db1, lastID) :=
            insert_history db (CURRENT_TIMESTAMP e) name
              (Js.str (Js.or filename (Some "unknown")))
              eco_points_earned items_recycled carbon_saved_kg in
          {| resp := Some (res_json (Obj [("insertedId", Int lastID)]));
             store' := db1;
             effects := [InsertHistory name] |}
      end).

(** The routes of the application. *)
Inductive route : Type :=
| POST_api_register
| POST_api_login
| GET_api_me
| GET_user
| GET_api_user
| GET_user_history
| GET_api_user_history
| GET_leaderboard
| GET_api_leaderboard
| GET_admin_users
| GET_admin_user
| GET_admin_export_users_csv
| POST_api_history.

Definition handle (rt : route) (cfg : config) (e : env) (db : store R)
    (req : request R) : outcome R :=
  match rt with
  | POST_api_register => post_api_register cfg e db req
  | POST_api_login => post_api_login cfg e db req
  | GET_api_me => get_api_me cfg e db req
  | GET_user | GET_api_user => reply db (handleGetUserProfile db req)
  | GET_user_history | GET_api_user_history =>
      reply db (handleGetUserHistory db req)
  | GET_leaderboard | GET_api_leaderboard =>
      reply db (handleLeaderboard db req)
  | GET_admin_users => reply db (get_admin_users cfg db req)
  | GET_admin_user => reply db (get_admin_user cfg db req)
  | GET_admin_export_users_csv =>
      reply db (get_admin_export_users_csv cfg db req)
  | POST_api_history => post_api_history cfg e db req
  end.

(** The stores the server can reach from [db]: any sequence of requests. *)
Inductive reachable (cfg : config) (db : store R) : store R -> Prop :=
| reach_here : reachable cfg db db
| reach_step : forall db1 rt e req,
    reachable cfg db db1 ->
    reachable cfg db (store' (handle rt cfg e db1 req)).

End Handlers.

(* ------------------------------------------------------------------ *)
(** ** The vocabulary of the specification *)

Section Vocabulary.

Context {R : Type} {RO : SqlReal R} {XO : Runtime R} {BO : Bcrypt R}
        {JO : Jwt R} {EO : Engine R}.

(** A summary [{ eco_points, items_recycled, carbon_saved_kg }]. *)
Record summary := {
  eco_points : Z;
  items_recycled : Z;
  carbon_saved_kg : R
}.

Definition zero_summary : summary :=
  {| eco_points := 0; items_recycled := 0; carbon_saved_kg := r0 |}.

(** Element-wise addition of one event to a summary. *)
Definition add_event (s : summary) (h : history_row R) : summary :=
  {| eco_points := eco_points s + h_eco_points_earned h;
     items_recycled := items_recycled s + h_items_recycled h;
     carbon_saved_kg := radd (carbon_saved_kg s) (h_carbon_saved_kg h) |}.

(** The element-wise sum of a sequence of events, in log order. *)
Definition summary_of (events : list (history_row R)) : summary :=
  fold_left add_event events zero_summary.

(** A summary as the aggregate query hands it to JS: the whole numbers
    as the nearest JS numbers. *)
Definition summary_obj (s : summary) : value R :=
  Obj [("eco_points", Int (Js.round (eco_points s)));
       ("items_recycled", Int (Js.round (items_recycled s)));
       ("carbon_saved_kg", Real (carbon_saved_kg s))].

(** The profile of user row [u] with summary [s]: the whole numbers as
    the nearest JS numbers, and a falsy carbon sum as [0.0]. *)
Definition profile_obj (u : user_row) (s : summary) : value R :=
  Obj [("id", Int (u_id u));
       ("username", Str (u_username u));
       ("created_at", Str (u_created_at u));
       ("eco_points", Int (Js.round (eco_points s)));
       ("items_recycled", Int (Js.round (items_recycled s)));
       ("carbon_saved_kg", v_or (Real (carbon_saved_kg s)) (Real r0))].

(** Every contribution of the events is a number SQLite keeps as an
    INTEGER. *)
Definition integers (events : list (history_row R)) : bool :=
  forallb (fun h => Sql.kept (h_eco_points_earned h)
                    && Sql.kept (h_items_recycled h)) events.

(** The running sum of the values stays within the 64-bit integers. *)
Definition fits (l : list Z) : bool :=
  match Sql.add_all 0 l with
  | Some _ => true
  | None => false
  end.

(** The running sums of both INTEGER columns stay within the 64-bit
    integers. *)
Definition sums_fit (events : list (history_row R)) : bool :=
  fits (map h_eco_points_earned events)
  && fits (map h_items_recycled events).

(** A 200 response carrying [v] as it stands. *)
Definition ok (v : value R) : response R :=
  {| status := 200; headers := []; body := Json v |}.

(** The status of the response, if one was sent. *)
Definition status_of (o : outcome R) : option Z :=
  option_map status (resp o).

(** The [token] property of a JSON response. *)
Definition token_of (r : option (response R)) : option string :=
  match r with
  | Some r =>
      match body r with
      | Json v =>
          match get_field "token" v with
          | Str t => Some t
          | _ => None
          end
      | _ => None
      end
  | None => None
  end.

(** The token [authenticate] hands to [jwt.verify]. *)
Definition bearer_token (req : request R) : option string :=
  nth_error (Js.split " " (Js.str (headers_authorization req))) 1.

(** [authenticate] finds no bearer credential in the request. *)
Definition token_missing (req : request R) : bool :=
  negb (Js.truthy (headers_authorization req))
  || negb (Js.startsWith (Js.str (headers_authorization req)) "Bearer ").

Definition with_authorization (a : option string) (req : request R)
  : request R :=
  {| headers_authorization := a;
     headers_x_admin_secret := headers_x_admin_secret req;
     params_username := params_username req;
     params_id := params_id req;
     query_limit := query_limit req;
     query_offset := query_offset req;
     query_search := query_search req;
     query_admin_secret := query_admin_secret req;
     body_username := body_username req;
     body_password := body_password req;
     body_filename := body_filename req;
     body_eco_points_earned := body_eco_points_earned req;
     body_items_recycled := body_items_recycled req;
     body_carbon_saved_kg := body_carbon_saved_kg req |}.

(** A history event with no negative contribution. *)
Definition nonneg_event (h : history_row R) : bool :=
  (0 <=? h_eco_points_earned h) && (0 <=? h_items_recycled h)
  && rle r0 (h_carbon_saved_kg h).

Definition nonneg_store (db : store R) : bool :=
  forallb nonneg_event (history db).

Definition nonneg_summary (s : summary) : bool :=
  (0 <=? eco_points s) && (0 <=? items_recycled s)
  && rle r0 (carbon_saved_kg s).

(** An INTEGER result is not negative. *)
Definition nonneg_num (n : Sql.num R) : Prop :=
  match n with
  | Sql.I z => 0 <= z
  | Sql.F _ => True
  end.

(** [a] may stand before [b] under [ORDER BY eco_points DESC], as far as
    INTEGER points say. *)
Definition outranks (a b : leader R) : Prop :=
  match l_eco_points a, l_eco_points b with
  | Sql.I x, Sql.I y => y <= x
  | _, _ => True
  end.

(** A [users] row with its password hash blanked. *)
Definition blank_hash (u : user_row) : user_row :=
  {| u_id := u_id u; u_username := u_username u;
     u_password_hash := ""; u_created_at := u_created_at u |}.

(** The store with every password hash blanked. *)
Definition scrub (db : store R) : store R :=
  {| users := map blank_hash (users db);
     history := history db;
     users_seq := users_seq db;
     history_seq := history_seq db |}.

(** The property names under which password material would travel. *)
Definition password_key (k : string) : Prop :=
  k = "password_hash" \/ k = "password".

Definition payload_has_key (k : string) (p : payload R) : bool :=
  match p with
  | Json v => has_key k v
  | _ => false
  end.

(** Does a property named [k] occur in the response, if one was sent? *)
Definition response_has_key (k : string) (r : option (response R)) : bool :=
  match r with
  | Some r => payload_has_key k (body r)
  | None => false
  end.

(** The value is a string of at least [n] code units. *)
Definition string_of_length (n : nat) (v : value R) : Prop :=
  exists s, v = Str s /\ (n <= String.length s)%nat.

(** The value is missing (or otherwise falsy), or a string shorter than
    [n]. *)
Definition missing_or_shorter (n : nat) (v : value R) : Prop :=
  v_truthy v = false \/ exists s, v = Str s /\ (String.length s < n)%nat.

(** Zero is not negative, and adding two non-negative REALs gives a
    non-negative REAL. *)
Definition nonneg_closed : Prop :=
  rle r0 r0 = true /\
  forall a b : R,
    rle r0 a = true -> rle r0 b = true -> rle r0 (radd a b) = true.

(** What the proofs use of jsonwebtoken's serialisation: a claim set
    whose username is a JSON value decodes to what was encoded, and the
    token is not empty and holds no space. *)
Definition jwt_lawful : Prop :=
  forall (c : claims R) (sig : string),
    jsonify (jwt_username c) = jwt_username c ->
    jws_decode (jws_encode c sig) = Some (c, sig)
    /\ jws_encode c sig <> ""
    /\ Js.no_space (jws_encode c sig) = true.

(** What the proofs use of ORDER BY: the rows come back, each as often
    as it went in, with no row of fewer INTEGER points before one of
    more. *)
Definition ranks : Prop :=
  forall l : list (leader R),
    Permutation (rank l) l /\ StronglySorted outranks (rank l).

End Vocabulary.

Arguments summary : clear implicits.
Arguments nonneg_closed {R} RO.
Arguments jwt_lawful {R} JO.
Arguments ranks {R} EO.

(* ------------------------------------------------------------------ *)
(** ** Plain instances of the interfaces, to run the handlers on examples *)

Module Plain.

(** Whole numbers as the REAL carrier. *)
Definition real : SqlReal Z :=
  {| r0 := 0; radd := Z.add; rle := Z.leb;
     r_truthy := fun z => negb (z =? 0) |}.

(** Conversions of the values that are not strings, as far as the
    examples need them: a number compares as the number it is, any other
    value converts to [NaN]. *)
Definition runtime : Runtime Z :=
  {| lt_number := fun x n =>
       match x with
       | Real r => Some (r <? n)
       | _ => Some false
       end;
     to_string := fun x =>
       match x with
       | Undefined => "undefined"
       | Null => "null"
       | Boolean b => if b then "true" else "false"
       | Int z | Real z => Js.string_of_Z z
       | Str s => s
       | Arr _ => ""
       | Obj _ => "[object Object]"
       end |}.

(** A transparent stand-in for bcrypt.  Like bcrypt, it rejects data
    that is not a string. *)
Definition bcrypt : Bcrypt Z :=
  {| bcrypt_hash := fun salt data _ =>
       match data with
       | Str d => Some (salt ++ "$" ++ d)
       | _ => None
       end;
     bcrypt_compare := fun data hash =>
       match data with
       | Str d =>
           Some match Js.split "$" hash with
                | [_; h] => (h =? d)%string
                | _ => false
                end
       | _ => None
       end |}.

(** The points of a leaderboard row as a number. *)
Definition points (l : leader Z) : Z :=
  match l_eco_points l with
  | Sql.I z => z
  | Sql.F r => r
  end.

(** How the binding hands a number or a boolean to a TEXT column. *)
Definition text_of (v : value Z) : Sql.binding :=
  match v with
  | Int z => Sql.Bound (Js.string_of_Z z)
  | Real r => Sql.Bound (Js.string_of_Z r ++ ".0")
  | Boolean b => Sql.Bound (if b then "1" else "0")
  | Str s => Sql.Bound s
  | _ => Sql.Fails
  end.

(** An engine for the examples: sums with a REAL are exact, and rows of
    equal points come in descending order of username. *)
Definition engine : Engine Z :=
  {| run_text := text_of;
     param_text := text_of;
     sum_reals := fun l => inr (Some (Sql.F (fold_left Z.add l 0)));
     rank := fun l =>
       Sql.order_by (fun a b => points b <=? points a)
         (Sql.order_by
            (fun a b => String.leb (l_username b) (l_username a)) l) |}.

Definition bit (b : bool) : ascii := if b then "1"%char else "0"%char.

Definition unbit (c : ascii) : option bool :=
  if Ascii.eqb c "1" then Some true
  else if Ascii.eqb c "0" then Some false
  else None.

Fixpoint enc_pos (p : positive) : string :=
  match p with
  | xH => "."
  | xO q => String "0" (enc_pos q)
  | xI q => String "1" (enc_pos q)
  end.

Fixpoint dec_pos (s : string) : option (positive * string) :=
  match s with
  | EmptyString => None
  | String c r =>
      if Ascii.eqb c "." then Some (xH, r)
      else match unbit c, dec_pos r with
           | Some b, Some (p, t) => Some (if b then xI p else xO p, t)
           | _, _ => None
           end
  end.

Definition enc_Z (z : Z) : string :=
  match z with
  | Z0 => "z"
  | Zpos p => String "p" (enc_pos p)
  | Zneg p => String "n" (enc_pos p)
  end.

Definition dec_Z (s : string) : option (Z * string) :=
  match s with
  | EmptyString => None
  | String c r =>
      if Ascii.eqb c "z" then Some (0, r)
      else if Ascii.eqb c "p"
      then option_map (fun pt => (Zpos (fst pt), snd pt)) (dec_pos r)
      else if Ascii.eqb c "n"
      then option_map (fun pt => (Zneg (fst pt), snd pt)) (dec_pos r)
      else None
  end.

Fixpoint enc_str (s : string) : string :=
  match s with
  | EmptyString => "e"
  | String (Ascii b0 b1 b2 b3 b4 b5 b6 b7) r =>
      String "c"
        (String (bit b0) (String (bit b1) (String (bit b2) (String (bit b3)
        (String (bit b4) (String (bit b5) (String (bit b6) (String (bit b7)
        (enc_str r)))))))))
  end.

Fixpoint dec_str (s : string) : option (string * string) :=
  match s with
  | String k (String c0 (String c1 (String c2 (String c3
      (String c4 (String c5 (String c6 (String c7 r)))))))) =>
      if Ascii.eqb k "c" then
        match unbit c0, unbit c1, unbit c2, unbit c3,
              unbit c4, unbit c5, unbit c6, unbit c7, dec_str r with
        | Some b0, Some b1, Some b2, Some b3,
          Some b4, Some b5, Some b6, Some b7, Some (w, t) =>
            Some (String (Ascii b0 b1 b2 b3 b4 b5 b6 b7) w, t)
        | _, _, _, _, _, _, _, _, _ => None
        end
      else if Ascii.eqb k "e" then Some (EmptyString, String c0 (String c1
             (String c2 (String c3 (String c4 (String c5 (String c6
             (String c7 r))))))))
      else None
  | String k r => if Ascii.eqb k "e" then Some (EmptyString, r) else None
  | EmptyString => None
  end.

(** A value, tag first; the elements of an array each follow a comma,
    the properties of an object each a colon. *)
Fixpoint enc_value (v : value Z) : string :=
  match v with
  | Undefined => "u"
  | Null => "l"
  | Boolean b => String "b" (String (bit b) EmptyString)
  | Int z => String "i" (enc_Z z)
  | Real r => String "r" (enc_Z r)
  | Str s => String "s" (enc_str s)
  | Arr l =>
      String "a"
        ((fix items (l : list (value Z)) : string :=
            match l with
            | [] => "]"
            | x :: rest => String "," (enc_value x ++ items rest)
            end) l)
  | Obj fields =>
      String "o"
        ((fix props (fs : list (string * value Z)) : string :=
            match fs with
            | [] => "}"
            | (k, x) :: rest =>
                String ":" (enc_str k ++ enc_value x ++ props rest)
            end) fields)
  end.

Fixpoint enc_items (l : list (value Z)) : string :=
  match l with
  | [] => "]"
  | x :: rest => String "," (enc_value x ++ enc_items rest)
  end.

Fixpoint enc_props (fs : list (string * value Z)) : string :=
  match fs with
  | [] => "}"
  | (k, x) :: rest => String ":" (enc_str k ++ enc_value x ++ enc_props rest)
  end.

(** Reading a value back; [n] bounds the number of characters read. *)
Fixpoint dec_value (n : nat) (s : string) : option (value Z * string) :=
  match n with
  | O => None
  | S m =>
      match s with
      | EmptyString => None
      | String c r =>
          if Ascii.eqb c "u" then Some (Undefined, r)
          else if Ascii.eqb c "l" then Some (Null, r)
          else if Ascii.eqb c "b" then
            match r with
            | String d t => option_map (fun b => (Boolean b, t)) (unbit d)
            | EmptyString => None
            end
          else if Ascii.eqb c "i"
          then option_map (fun p => (Int (fst p), snd p)) (dec_Z r)
          else if Ascii.eqb c "r"
          then option_map (fun p => (Real (fst p), snd p)) (dec_Z r)
          else if Ascii.eqb c "s"
          then option_map (fun p => (Str (fst p), snd p)) (dec_str r)
          else if Ascii.eqb c "a"
          then option_map (fun p => (Arr (fst p), snd p)) (dec_items m r)
          else if Ascii.eqb c "o"
          then option_map (fun p => (Obj (fst p), snd p)) (dec_props m r)
          else None
      end
  end
with dec_items (n : nat) (s : string)
  : option (list (value Z) * string) :=
  match n with
  | O => None
  | S m =>
      match s with
      | EmptyString => None
      | String c r =>
          if Ascii.eqb c "]" then Some ([], r)
          else if Ascii.eqb c "," then
            match dec_value m r with
            | Some (x, t) =>
                option_map (fun p => (x :: fst p, snd p)) (dec_items m t)
            | None => None
            end
          else None
      end
  end
with dec_props (n : nat) (s : string)
  : option (list (string * value Z) * string) :=
  match n with
  | O => None
  | S m =>
      match s with
      | EmptyString => None
      | String c r =>
          if Ascii.eqb c "}" then Some ([], r)
          else if Ascii.eqb c ":" then
            match dec_str r with
            | Some (k, t) =>
                match dec_value m t with
                | Some (x, u) =>
                    option_map (fun p => ((k, x) :: fst p, snd p))
                      (dec_props m u)
                | None => None
                end
            | None => None
            end
          else None
      end
  end.

Definition enc_claims (c : claims Z) : string :=
  enc_value (jwt_username c) ++ enc_Z (jwt_id c) ++ enc_Z (jwt_iat c)
    ++ enc_Z (jwt_exp c).

Definition encode (c : claims Z) (sig : string) : string :=
  enc_claims c ++ enc_str sig.

Definition decode (s : string) : option (claims Z * string) :=
  match dec_value (String.length s) s with
  | Some (u, s1) =>
      match dec_Z s1 with
      | Some (i, s2) =>
          match dec_Z s2 with
          | Some (a, s3) =>
              match dec_Z s3 with
              | Some (x, s4) =>
                  match dec_str s4 with
                  | Some (sig, EmptyString) =>
                      Some ({| jwt_id := i; jwt_username := u;
                               jwt_iat := a; jwt_exp := x |}, sig)
                  | _ => None
                  end
              | None => None
              end
          | None => None
          end
      | None => None
      end
  | None => None
  end.

(** A transparent stand-in for the keyed signature. *)
Definition jwt : Jwt Z :=
  {| jws_sign := fun secret c =>
       secret ++ "/" ++ enc_value (jwt_username c) ++ "/"
         ++ Js.string_of_Z (jwt_id c)
         ++ "/" ++ Js.string_of_Z (jwt_iat c)
         ++ "/" ++ Js.string_of_Z (jwt_exp c);
     jws_encode := encode;
     jws_decode := decode |}.

Definition cfg : config :=
  {| env_JWT_SECRET := None; env_ADMIN_SECRET := Some "s3cret" |}.

Definition at_ms (t : Z) (ts : string) : env :=
  {| now := t; CURRENT_TIMESTAMP := ts; salt := "salt" |}.

(** A request with nothing in it. *)
Definition blank : request Z :=
  {| headers_authorization := None; headers_x_admin_secret := None;
     params_username := ""; params_id := "";
     query_limit := None; query_offset := None; query_search := None;
     query_admin_secret := None;
     body_username := Undefined; body_password := Undefined;
     body_filename := None;
     body_eco_points_earned := None; body_items_recycled := None;
     body_carbon_saved_kg := None |}.

(** A request for the routes with a [:username] parameter. *)
Definition for_user (username : string) (limit : option string)
  : request Z :=
  {| headers_authorization := None; headers_x_admin_secret := None;
     params_username := username; params_id := "";
     query_limit := option_map Js.QStr limit;
     query_offset := None; query_search := None;
     query_admin_secret := None;
     body_username := Undefined; body_password := Undefined;
     body_filename := None;
     body_eco_points_earned := None; body_items_recycled := None;
     body_carbon_saved_kg := None |}.

Definition event (id : Z) (username filename ts : string)
    (eco items carbon : Z) : history_row Z :=
  {| h_id := id; h_username := username; h_filename := filename;
     h_processed_at := ts; h_eco_points_earned := eco;
     h_items_recycled := items; h_carbon_saved_kg := carbon |}.

Definition alice : user_row :=
  {| u_id := 1; u_username := "alice"; u_password_hash := "salt$secret1";
     u_created_at := "2024-01-01 00:00:00" |}.

(** The log seed_history.js leaves behind (with whole carbon values),
    in a store where only alice has registered. *)
Definition seeded : store Z :=
  {| users := [alice];
     history :=
       [event 1 "aakash shetty" "plastic_bottle.jpg"
          "2024-01-02T10:00:00.000Z" 12 1 3;
        event 2 "aakash shetty" "paper_box.jpg"
          "2024-01-02T10:00:00.000Z" 6 1 2;
        event 3 "alice" "bottle.jpg" "2024-01-03 09:00:00" 10 1 5];
     users_seq := 1; history_seq := 3 |}.

(** The body of a registration or login request. *)
Definition fields (username password : value Z) : request Z :=
  {| headers_authorization := None; headers_x_admin_secret := None;
     params_username := ""; params_id := "";
     query_limit := None; query_offset := None; query_search := None;
     query_admin_secret := None;
     body_username := username; body_password := password;
     body_filename := None;
     body_eco_points_earned := None; body_items_recycled := None;
     body_carbon_saved_kg := None |}.

(** The same with both fields strings. *)
Definition credentials (username password : string) : request Z :=
  fields (Str username) (Str password).

(** alice registers at millisecond 5000 on an empty store. *)
Definition alice_registers : outcome Z :=
  handle (RO:=real) (XO:=runtime) (BO:=bcrypt) (JO:=jwt) (EO:=engine)
    POST_api_register cfg (at_ms 5000 "2024-01-01 00:00:00") empty_store
    (credentials "alice" "secret1").

(** The token alice got. *)
Definition alice_token : string :=
  Js.str (token_of (resp alice_registers)).

(** A request that carries [Authorization: Bearer <tok>] and nothing
    else. *)
Definition bearer (tok : string) : request Z :=
  with_authorization (Some ("Bearer " ++ tok)) blank.

(** The store once alice has registered. *)
Definition with_alice : store Z := store' alice_registers.

(** The instant alice's token expires, and the millisecond before. *)
Definition at_expiry : env := at_ms 604805000 "2024-01-08 00:00:05".

Definition before_expiry : env := at_ms 604804999 "2024-01-08 00:00:04".

(** Twenty-six users with one event each; user [n] earned [n] points. *)
Definition crowd : store Z :=
  {| users := [];
     history :=
       map (fun n => event n ("user" ++ Js.string_of_Z n) "can.jpg"
                       "2024-01-01 00:00:00" n 1 0)
         (map Z.of_nat (seq 1 26));
     users_seq := 0; history_seq := 26 |}.

(** An authenticated POST /api/history body. *)
Definition post_event (tok filename : string) (eco items carbon : Z)
  : request Z :=
  {| headers_authorization := Some ("Bearer " ++ tok);
     headers_x_admin_secret := None;
     params_username := ""; params_id := "";
     query_limit := None; query_offset := None; query_search := None;
     query_admin_secret := None;
     body_username := Undefined; body_password := Undefined;
     body_filename := Some filename;
     body_eco_points_earned := Some eco;
     body_items_recycled := Some items;
     body_carbon_saved_kg := Some carbon |}.

(** alice, logged in, posts an event worth -5 points. *)
Definition alice_posts_negative : outcome Z :=
  handle (RO:=real) (XO:=runtime) (BO:=bcrypt) (JO:=jwt) (EO:=engine)
    POST_api_history cfg before_expiry with_alice
    (post_event alice_token "bottle.jpg" (-5) 1 0).

(** alice posts the event of the specification's example (carbon as a
    whole number). *)
Definition alice_posts : outcome Z :=
  handle (RO:=real) (XO:=runtime) (BO:=bcrypt) (JO:=jwt) (EO:=engine)
    POST_api_history cfg before_expiry with_alice
    (post_event alice_token "bottle.jpg" 10 1 5).

(** An admin request: the secret in the header, the secret in the query
    string, and the search term. *)
Definition admin_request (header query search : option string)
  : request Z :=
  {| headers_authorization := None; headers_x_admin_secret := header;
     params_username := ""; params_id := "1";
     query_limit := None; query_offset := None;
     query_search := option_map Js.QStr search;
     query_admin_secret := option_map Js.QStr query;
     body_username := Undefined; body_password := Undefined;
     body_filename := None;
     body_eco_points_earned := None; body_items_recycled := None;
     body_carbon_saved_kg := None |}.

(** A store whose one user has a double quote in the name. *)
Definition quoted : store Z :=
  {| users := [{| u_id := 1;
                  u_username := "a" ++ String Js.dquote "b";
                  u_password_hash := "salt$secret1";
                  u_created_at := "2024-01-01" |}];
     history := []; users_seq := 1; history_seq := 0 |}.

End Plain.
(* ------------------------------------------------------------------ *)
(** ** What the schema keeps of the tables *)

Section Tables.

Context {R : Type}.

(** [username TEXT UNIQUE] and the two [INTEGER PRIMARY KEY AUTOINCREMENT]
    columns: no username twice, no rowid twice, no rowid above the
    counter of its table. *)
Definition tables_sound (db : store R) : Prop :=
  NoDup (map u_username (users db))
  /\ NoDup (map u_id (users db))
  /\ Forall (fun u => u_id u <= users_seq db) (users db)
  /\ NoDup (map h_id (history db))
  /\ Forall (fun h => h_id h <= history_seq db) (history db).

(** The row a registration of [username] inserts into [db]. *)
Definition registered_row (db : store R) (ts username password_hash : string)
  : user_row :=
  {| u_id := users_seq db + 1; u_username := username;
     u_password_hash := password_hash; u_created_at := ts |}.

End Tables.

Section Sessions.

Context {R : Type} {RO : SqlReal R} {XO : Runtime R} {BO : Bcrypt R}
        {JO : Jwt R} {EO : Engine R}.

(** The claims [authenticate] hands to the protected handler, if any. *)
Definition verified_user (cfg : config) (e : env) (req : request R)
  : option (claims R) :=
  if token_missing req then None
  else match jwt_verify (bearer_token req) (JWT_SECRET cfg) (now e) with
       | inr c => Some c
       | inl _ => None
       end.

(** The event POST /api/history stores under the username [name]. *)
Definition posted_row (e : env) (db : store R) (name : string)
    (req : request R) : history_row R :=
  {| h_id := history_seq db + 1;
     h_username := name;
     h_filename := Js.str (Js.or (body_filename req) (Some "unknown"));
     h_processed_at := CURRENT_TIMESTAMP e;
     h_eco_points_earned := Sql.coalesce (body_eco_points_earned req) 0;
     h_items_recycled := Sql.coalesce (body_items_recycled req) 0;
     h_carbon_saved_kg := Sql.coalesce (body_carbon_saved_kg req) r0 |}.

(** The store after a registration under the text [name]. *)
Definition registered (db : store R) (ts name password_hash : string)
  : store R :=
  {| users := users db ++ [registered_row db ts name password_hash];
     history := history db;
     users_seq := users_seq db + 1;
     history_seq := history_seq db |}.

End Sessions.

(** The username of a row as the export writes it between the quotes. *)
Definition quoted_username (u : user_row) : string :=
  Js.replace_all Js.dquote (quote ++ quote) (u_username u).

(** The first line of the export. *)
Definition csv_header : string := "id,username,created_at" ++ newline.

(** Reading a quoted field of the export back: a doubled quote is one
    quote. *)
Fixpoint undouble (s : string) : string :=
  match s with
  | EmptyString => EmptyString
  | String a r =>
      match r with
      | String b t =>
          if Ascii.eqb a Js.dquote && Ascii.eqb b Js.dquote
          then String Js.dquote (undouble t)
          else String a (undouble r)
      | EmptyString => String a EmptyString
      end
  end.

(* ------------------------------------------------------------------ *)
(** ** backend/seed_history.js *)

Section Seeding.

Context {R : Type}.

(** The script: two rows for "aakash shetty", both stamped with
    [new Date().toISOString()].  [kg_0_25] and [kg_0_02] are the REAL
    values of the literals 0.25 and 0.02. *)
Definition seed_history (now_iso : string) (kg_0_25 kg_0_02 : R)
    (db : store R) : store R :=
  let db1 := fst (insert_history db now_iso "aakash shetty"
                    "plastic_bottle.jpg" 12 1 kg_0_25) in
  fst (insert_history db1 now_iso "aakash shetty" "paper_box.jpg" 6 1
         kg_0_02).

End Seeding.

(* ------------------------------------------------------------------ *)
(** ** backend/migrate_history_columns.js, both versions *)

Module Migration.

(** A row of [PRAGMA table_info]: the column's name and its
    declaration. *)
Record column := {
  col_name : string;
  col_decl : string
}.

(** The tables of a database file, each with its columns in order. *)
Definition database : Type := list (string * list column).

(** The files on disk that hold a database, by path. *)
Definition files : Type := list (string * database).

Definition read_file (p : string) (fs : files) : option database :=
  option_map snd (find (fun f => (fst f =? p)%string) fs).

(** [copyFile] and every other write: the file at [p] now holds [d]. *)
Definition write_file (p : string) (d : database) (fs : files) : files :=
  (p, d) :: filter (fun f => negb (fst f =? p)%string) fs.

Fixpoint lower_string (s : string) : string :=
  match s with
  | EmptyString => EmptyString
  | String c r => String (Sql.lower c) (lower_string r)
  end.

(** SQLite resolves table and column names without regard to ASCII
    case. *)
Definition same_ident (a b : string) : bool :=
  (lower_string a =? lower_string b)%string.

(** [PRAGMA table_info(t)]: no row when there is no such table. *)
Fixpoint table_info (db : database) (t : string) : list column :=
  match db with
  | [] => []
  | tb :: rest => if same_ident (fst tb) t then snd tb else table_info rest t
  end.

(** [ALTER TABLE t ADD COLUMN c]: the column goes last; [None] when there
    is no such table or the table has a column of that name already. *)
Fixpoint add_column (db : database) (t : string) (c : column)
  : option database :=
  match db with
  | [] => None
  | tb :: rest =>
      if same_ident (fst tb) t then
        if existsb (fun r => same_ident (col_name r) (col_name c)) (snd tb)
        then None
        else Some ((fst tb, (snd tb ++ [c])%list) :: rest)
      else option_map (cons tb) (add_column rest t c)
  end.

(** [rows.some(r => r.name === column)] over [PRAGMA table_info]. *)
Definition columnExists (db : database) (table column : string) : bool :=
  existsb (fun r => (col_name r =? column)%string) (table_info db table).

(** [SELECT name FROM sqlite_master WHERE type='table' AND name = ?] has
    a row. *)
Definition tableExists (db : database) (table : string) : bool :=
  negb (List.length (filter (fun tb => (fst tb =? table)%string) db) =? 0)%nat.

Definition colsToAdd : list column :=
  [{| col_name := "eco_points_earned"; col_decl := "INTEGER DEFAULT 0" |};
   {| col_name := "items_recycled"; col_decl := "INTEGER DEFAULT 0" |};
   {| col_name := "carbon_saved_kg"; col_decl := "REAL DEFAULT 0.0" |}].

(** The loop over [colsToAdd]: a column that exists is skipped, a missing
    one is added; the first failing statement ends the loop ([false]),
    what was added before it stays. *)
Fixpoint add_missing (cols : list column) (db : database)
  : bool * database :=
  match cols with
  | [] => (true, db)
  | c :: rest =>
      if columnExists db "history" (col_name c) then add_missing rest db
      else match add_column db "history" c with
           | None => (false, db)
           | Some db1 => add_missing rest db1
           end
  end.

(** The first version, [run]: the exit code and the database file.  The
    file is opened OPEN_READWRITE, so it has to exist. *)
Definition run (file : option database) : Z * option database :=
  match file with
  | None => (1, None)
  | Some db =>
      let (done, db1) := add_missing colsToAdd db in
      (if done then 0 else 1, Some db1)
  end.

(** [backupDb]: the name of the copy, from the ISO time of the run. *)
Definition backup_name (originalPath iso : string) : string :=
  originalPath ++ ".bak-"
    ++ Js.replace_all ":" "-" (Js.replace_all "." "-" iso).

(** The second version, [main], on the files: it refuses a missing file,
    copies the file aside, refuses a database without a [history] table,
    then runs the loop. *)
Definition main (dbPath iso : string) (fs : files) : Z * files :=
  match read_file dbPath fs with
  | None => (1, fs)
  | Some db =>
      let fs1 := write_file (backup_name dbPath iso) db fs in
      if negb (tableExists db "history") then (1, fs1)
      else
        let (done, db1) := add_missing colsToAdd db in
        (if done then 0 else 1, write_file dbPath db1 fs1)
  end.

(** [db1] has the tables of [db], in the same order and under the same
    names, each with its old columns first. *)
Fixpoint extends (db db1 : database) : Prop :=
  match db, db1 with
  | [], [] => True
  | tb :: rest, tb1 :: rest1 =>
      fst tb1 = fst tb
      /\ (exists more, snd tb1 = (snd tb ++ more)%list)
      /\ extends rest rest1
  | _, _ => False
  end.

(** Some table answers to the name [t]. *)
Definition has_table (db : database) (t : string) : bool :=
  existsb (fun tb => same_ident (fst tb) t) db.

(** [history] has a column that answers to the name of [c]. *)
Definition clashes (db : database) (c : column) : bool :=
  existsb (fun r => same_ident (col_name r) (col_name c))
    (table_info db "history").

(** No two of the columns answer to the same name. *)
Fixpoint distinct_idents (cols : list column) : Prop :=
  match cols with
  | [] => True
  | c :: rest =>
      Forall (fun c1 => same_ident (col_name c) (col_name c1) = false) rest
      /\ distinct_idents rest
  end.

(** A database as server.js creates it, before the three columns
    existed. *)
Definition old_schema : database :=
  [("users",
    [{| col_name := "id"; col_decl := "INTEGER PRIMARY KEY AUTOINCREMENT" |};
     {| col_name := "username"; col_decl := "TEXT UNIQUE NOT NULL" |};
     {| col_name := "password_hash"; col_decl := "TEXT NOT NULL" |};
     {| col_name := "created_at";
        col_decl := "DATETIME DEFAULT CURRENT_TIMESTAMP" |}]);
   ("history",
    [{| col_name := "id"; col_decl := "INTEGER PRIMARY KEY AUTOINCREMENT" |};
     {| col_name := "username"; col_decl := "TEXT NOT NULL" |};
     {| col_name := "filename"; col_decl := "TEXT" |};
     {| col_name := "processed_at";
        col_decl := "DATETIME DEFAULT CURRENT_TIMESTAMP" |};
     {| col_name := "items_recycled"; col_decl := "INTEGER DEFAULT 0" |}])].

End Migration.

(* ------------------------------------------------------------------ *)
(** ** The upload server: the name multer stores a file under *)

Module Upload.

(** [s.replace(/\s+/g, '_')]: every run of white space becomes one
    underscore.  [in_run] says that the previous character was white
    space. *)
Fixpoint collapse_ws (in_run : bool) (s : string) : string :=
  match s with
  | EmptyString => EmptyString
  | String c r =>
      if Js.is_ws c then
        if in_run then collapse_ws true r
        else String "_" (collapse_ws true r)
      else String c (collapse_ws false r)
  end.

(** [`${Date.now()}_${file.originalname.replace(/\s+/g,'_')}`] *)
Definition filename (now : Z) (originalname : string) : string :=
  Js.string_of_Z now ++ "_" ++ collapse_ws false originalname.

(** No character of the string is white space. *)
Fixpoint no_ws (s : string) : bool :=
  match s with
  | EmptyString => true
  | String c r => negb (Js.is_ws c) && no_ws r
  end.

End Upload.

(* ------------------------------------------------------------------ *)
(** ** frontend/home.js: the session part of the home page *)

Section HomePage.

Context {R : Type} {RO : SqlReal R} {XO : Runtime R} {BO : Bcrypt R}
        {JO : Jwt R} {EO : Engine R}.

(** The two keys of [localStorage]. *)
Record local_storage := {
  ecowise_token : option string;
  ecowise_username : option string
}.

(** What the welcome line says. *)
Inductive welcome : Type :=
| Guest
| WelcomeBack (u : string).

(** The page after [init]: the storage, [window.ECOWISE], the welcome
    line, and whether the sign-in links and the logout button show. *)
Record home := {
  storage : local_storage;
  ECOWISE_token : option string;
  ECOWISE_username : option (value R);
  welcomeLine : welcome;
  authLinks : bool;
  logoutBtn : bool
}.

(** A request that carries nothing but the given Authorization header. *)
Definition bare_request (authorization : option string) : request R :=
  {| headers_authorization := authorization;
     headers_x_admin_secret := None;
     params_username := ""; params_id := "";
     query_limit := None; query_offset := None; query_search := None;
     query_admin_secret := None;
     body_username := Undefined; body_password := Undefined;
     body_filename := None;
     body_eco_points_earned := None; body_items_recycled := None;
     body_carbon_saved_kg := None |}.

(** [res.ok] *)
Definition res_ok (r : response R) : bool :=
  (200 <=? status r) && (status r <=? 299).

(** [fetchMe(token)]: [server] answers the request, or not at all. *)
Definition fetchMe (server : request R -> option (response R))
    (token : option string) : option (value R) :=
  if negb (Js.truthy token) then None
  else
    match server (bare_request (Some ("Bearer " ++ Js.str token))) with
    | None => None
    | Some res =>
        if negb (res_ok res) then None
        else match body res with
             | Json data =>
                 let user := get_field "user" data in
                 if v_truthy user then Some user else None
             | _ => None
             end
    end.

Definition showGuest (ls : local_storage) (token : option string) : home :=
  {| storage := {| ecowise_token := ecowise_token ls;
                   ecowise_username := None |};
     ECOWISE_token := token;
     ECOWISE_username := None;
     welcomeLine := Guest;
     authLinks := true;
     logoutBtn := false |}.

Definition showUser (ls : local_storage) (token : option string)
    (u : value R) : home :=
  {| storage := {| ecowise_token := ecowise_token ls;
                   ecowise_username :=
                     if v_truthy u then Some (v_to_string u) else None |};
     ECOWISE_token := token;
     ECOWISE_username := Some u;
     welcomeLine := WelcomeBack (v_to_string u);
     authLinks := false;
     logoutBtn := true |}.

(** [init()] *)
Definition init (server : request R -> option (response R))
    (ls : local_storage) : home :=
  let token := ecowise_token ls in
  if negb (Js.truthy token) then showGuest ls token
  else
    match fetchMe server token with
    | None =>
        showGuest {| ecowise_token := None;
                     ecowise_username := ecowise_username ls |} None
    | Some user => showUser ls token (get_field "username" user)
    end.

(** The backend as the home page reaches it: GET /api/me on [db] at
    [e]. *)
Definition api_me (cfg : config) (e : env) (db : store R)
    (req : request R) : option (response R) :=
  resp (get_api_me cfg e db req).

End HomePage.


#[local] Existing Instance Plain.real.
#[local] Existing Instance Plain.runtime.
#[local] Existing Instance Plain.bcrypt.
#[local] Existing Instance Plain.jwt.
#[local] Existing Instance Plain.engine.

(* ------------------------------------------------------------------ *)
(** ** Sums and summaries *)

Section SumFacts.

Context {R : Type} {RO : SqlReal R} {XO : Runtime R} {EO : Engine R}.

Lemma fold_add_event (rows : list (history_row R)) (s : summary R) :
  fold_left add_event rows s =
  {| eco_points := fold_left Z.add (map h_eco_points_earned rows)
                     (eco_points s);
     items_recycled := fold_left Z.add (map h_items_recycled rows)
                         (items_recycled s);
     carbon_saved_kg := fold_left radd (map h_carbon_saved_kg rows)
                          (carbon_saved_kg s) |}.
Proof.
  revert s; induction rows as [|h rows IH]; intros s.
  - destruct s; reflexivity.
  - cbn [fold_left map]. rewrite IH. reflexivity.
Qed.

(** A running sum that stays within the 64-bit integers ends in the
    sum. *)
Lemma add_all_sum (l : list Z) :
  forall acc s, Sql.add_all acc l = Some s -> s = fold_left Z.add l acc.
Proof.
  induction l as [|v l IH]; intros acc s; cbn [Sql.add_all fold_left].
  - now intros [= <-].
  - destruct (Sql.int64 (acc + v)); [apply IH|discriminate].
Qed.

Lemma fits_sum (l : list Z) :
  fits l = true -> Sql.add_all 0 l = Some (fold_left Z.add l 0).
Proof.
  unfold fits. destruct (Sql.add_all 0 l) as [s|] eqn:E; [|discriminate].
  intros _. now rewrite (add_all_sum l 0 s E).
Qed.

(** SUM over INTEGER values: the sum, or "integer overflow". *)
Lemma sum_int_integers (l : list Z) :
  forallb Sql.kept l = true ->
  if fits l
  then exists x, sum_int l = inr x
                 /\ Sql.coalesce x (Sql.I 0) = Sql.I (fold_left Z.add l 0)
  else sum_int l = inl Sql.IntegerOverflow.
Proof.
  intros Hk. destruct l as [|v l].
  - cbn. exists None. split; reflexivity.
  - unfold sum_int. rewrite Hk.
    destruct (fits (v :: l)) eqn:Hf.
    + rewrite (fits_sum _ Hf). eexists. split; reflexivity.
    + unfold fits in Hf.
      destruct (Sql.add_all 0 (v :: l)); [discriminate|reflexivity].
Qed.

Lemma coalesce_sum_real {A} (f : A -> R) (rows : list A) :
  Sql.coalesce (Sql.sum_real (map f rows)) r0 =
  fold_left radd (map f rows) r0.
Proof. destruct rows; reflexivity. Qed.

Lemma integers_columns (rows : list (history_row R)) :
  integers rows = true ->
  forallb Sql.kept (map h_eco_points_earned rows) = true
  /\ forallb Sql.kept (map h_items_recycled rows) = true.
Proof.
  unfold integers. induction rows as [|h rows IH]; cbn [forallb map].
  - split; reflexivity.
  - intros H. apply andb_true_iff in H. destruct H as [Hh Hr].
    apply andb_true_iff in Hh. destruct Hh as [He Hi].
    destruct (IH Hr) as [IHe IHi]. rewrite He, Hi, IHe, IHi.
    split; reflexivity.
Qed.

(** Over events whose contributions are INTEGERs, the three
    COALESCE(SUM(..),0) columns are the element-wise sum, and the
    statement fails exactly when a running sum overflows. *)
Lemma sum_columns_summary (rows : list (history_row R)) :
  integers rows = true ->
  sum_columns rows =
  if sums_fit rows
  then inr match summary_obj (summary_of rows) with
           | Obj fields => fields
           | _ => []
           end
  else inl Sql.IntegerOverflow.
Proof.
  intros Hint. destruct (integers_columns rows Hint) as [He Hi].
  pose proof (sum_int_integers _ He) as Se.
  pose proof (sum_int_integers _ Hi) as Si.
  unfold sum_columns, sums_fit.
  destruct (fits (map h_eco_points_earned rows)).
  - destruct Se as (xe & -> & Ce).
    destruct (fits (map h_items_recycled rows)).
    + destruct Si as (xi & -> & Ci). cbn [andb].
      rewrite Ce, Ci, coalesce_sum_real.
      unfold summary_of. rewrite fold_add_event. reflexivity.
    + rewrite Si. reflexivity.
  - rewrite Se. reflexivity.
Qed.

Lemma getUserAggregates_summary (db : store R) (username : string) :
  integers (history_of db username) = true ->
  getUserAggregates db username =
  if sums_fit (history_of db username)
  then inr (summary_obj (summary_of (history_of db username)))
  else inl Sql.IntegerOverflow.
Proof.
  intros Hint. unfold getUserAggregates, aggregate_row.
  rewrite (sum_columns_summary _ Hint).
  destruct (sums_fit (history_of db username)); reflexivity.
Qed.

Lemma leader_of_summary (db : store R) (username : string) :
  integers (history_of db username) = true ->
  leader_of db username =
  if sums_fit (history_of db username)
  then
    let s := summary_of (history_of db username) in
    inr {| l_username := username;
           l_eco_points := Sql.I (eco_points s);
           l_items_recycled := Sql.I (items_recycled s);
           l_carbon_saved_kg := carbon_saved_kg s |}
  else inl Sql.IntegerOverflow.
Proof.
  intros Hint. destruct (integers_columns _ Hint) as [He Hi].
  pose proof (sum_int_integers _ He) as Se.
  pose proof (sum_int_integers _ Hi) as Si.
  unfold leader_of, sums_fit.
  destruct (fits (map h_eco_points_earned (history_of db username))).
  - destruct Se as (xe & -> & Ce).
    destruct (fits (map h_items_recycled (history_of db username))).
    + destruct Si as (xi & -> & Ci). cbn [andb].
      rewrite Ce, Ci, coalesce_sum_real.
      unfold summary_of. rewrite fold_add_event. reflexivity.
    + rewrite Si. reflexivity.
  - rewrite Se. reflexivity.
Qed.

Lemma history_of_In (db : store R) (u : string) :
  forall h, In h (history_of db u) <->
            In h (history db) /\ h_username h = u.
Proof.
  intros h. unfold history_of. rewrite filter_In.
  rewrite String.eqb_eq. reflexivity.
Qed.

(** Below 2^53 in magnitude a whole number is a JS number as it is. *)
Lemma round_small (z : Z) : Z.abs z < 2 ^ 53 -> Js.round z = z.
Proof.
  intros H. unfold Js.round. apply Z.ltb_lt in H. now rewrite H.
Qed.

End SumFacts.

(* ------------------------------------------------------------------ *)
(** ** Facts about the plain instances *)

Lemma plain_real_nonneg_closed : nonneg_closed Plain.real.
Proof.
  split; [reflexivity|]. cbn. intros a b Ha Hb.
  apply Z.leb_le in Ha, Hb. apply Z.leb_le. lia.
Qed.

(* ------------------------------------------------------------------ *)
(** ** Profile read *)

Section Profile.

Context {R : Type} {RO : SqlReal R} {XO : Runtime R} {EO : Engine R}.

Lemma v_or_Int (z : Z) : v_or (R:=R) (Int z) (Int 0) = Int z.
Proof.
  unfold v_or, v_truthy. destruct (Z.eqb_spec z 0) as [->|]; reflexivity.
Qed.

Lemma truthy_nonempty (s : string) :
  s <> "" -> Js.truthy (Some s) = true.
Proof.
  intros H. unfold Js.truthy. now apply String.eqb_neq in H; rewrite H.
Qed.

(** The profile built from a user row and the aggregate of a summary. *)
Lemma profile_of_summary (u : user_row) (s : summary R) :
  let userRow := select_user ["id"; "username"; "created_at"] u in
  let agg := summary_obj s in
  res_json
    (Obj [("id", get_field "id" userRow);
          ("username", get_field "username" userRow);
          ("created_at", get_field "created_at" userRow);
          ("eco_points", v_or (get_field "eco_points" agg) (Int 0));
          ("items_recycled", v_or (get_field "items_recycled" agg) (Int 0));
          ("carbon_saved_kg",
           v_or (get_field "carbon_saved_kg" agg) (Real r0))])
  = ok (profile_obj u s).
Proof.
  unfold profile_obj, ok, res_json. cbn -[Js.round v_or jsonify].
  rewrite !v_or_Int. unfold v_or, v_truthy.
  destruct (r_truthy (carbon_saved_kg s)); reflexivity.
Qed.

(** C1 (as amended).  For every username that has a row in [users] and
    whose events hold contributions SQLite keeps as INTEGERs, the profile
    read answers 200 with [eco_points], [items_recycled] and
    [carbon_saved_kg] equal to the element-wise sum of those fields over
    all history events recorded for that username at read time (the
    whole numbers as the nearest JS numbers, a falsy carbon sum as 0.0),
    unless a running sum leaves the 64-bit integers, and then it answers
    500 (as whenever the aggregate query fails); it answers with the
    zero summary when there is no such event; for a username without a
    [users] row it answers 404 whatever the log holds.  The aggregate query itself, [getUserAggregates], gives the
    element-wise sum for every username. *)
Theorem profile_is_sum_of_history (db : store R) (req : request R) :
  params_username req <> "" ->
  let username := params_username req in
  let events := history_of db username in
  (integers events = true -> sums_fit events = true ->
   getUserAggregates db username = inr (summary_obj (summary_of events)))
  /\ match user_by_username db username with
     | Some u =>
         (integers events = true ->
          if sums_fit events
          then handleGetUserProfile db req
               = ok (profile_obj u (summary_of events))
          else handleGetUserProfile db req = res_error 500 "DB error")
         /\ (events = [] ->
             handleGetUserProfile db req = ok (profile_obj u zero_summary))
         /\ (forall err, getUserAggregates db username = inl err ->
               handleGetUserProfile db req = res_error 500 "DB error")
     | None => handleGetUserProfile db req = res_error 404 "User not found"
     end.
Proof.
  intros Hname. cbv zeta. split.
  { intros Hint Hfit. rewrite (getUserAggregates_summary _ _ Hint), Hfit.
    reflexivity. }
  unfold handleGetUserProfile.
  rewrite (truthy_nonempty _ Hname). cbn [negb].
  destruct (user_by_username db (params_username req)) as [u|];
    cbn [option_map]; [|reflexivity].
  assert (Hfull : integers (history_of db (params_username req)) = true ->
    match getUserAggregates db (params_username req) with
    | inl _ => res_error 500 "DB error"
    | inr agg =>
        res_json
          (Obj [("id", get_field "id"
                   (select_user ["id"; "username"; "created_at"] u));
                ("username", get_field "username"
                   (select_user ["id"; "username"; "created_at"] u));
                ("created_at", get_field "created_at"
                   (select_user ["id"; "username"; "created_at"] u));
                ("eco_points", v_or (get_field "eco_points" agg) (Int 0));
                ("items_recycled",
                 v_or (get_field "items_recycled" agg) (Int 0));
                ("carbon_saved_kg",
                 v_or (get_field "carbon_saved_kg" agg) (Real r0))])
    end
    = if sums_fit (history_of db (params_username req))
      then ok (profile_obj u
                 (summary_of (history_of db (params_username req))))
      else res_error 500 "DB error").
  { intros Hint. rewrite (getUserAggregates_summary _ _ Hint).
    destruct (sums_fit (history_of db (params_username req)));
      [apply profile_of_summary|reflexivity]. }
  split; [|split].
  - intros Hint. rewrite (Hfull Hint).
    destruct (sums_fit (history_of db (params_username req))); reflexivity.
  - intros Hnil. rewrite Hfull; rewrite Hnil; reflexivity.
  - intros err Herr. rewrite Herr. reflexivity.
Qed.

End Profile.

Lemma profile_is_sum_of_history_witness :
  handleGetUserProfile Plain.seeded
    (Plain.for_user "alice" None)
  = ok (Obj [("id", Int 1); ("username", Str "alice");
             ("created_at", Str "2024-01-01 00:00:00");
             ("eco_points", Int 10); ("items_recycled", Int 1);
             ("carbon_saved_kg", Real 5)]).
Proof.
  pose proof (profile_is_sum_of_history Plain.seeded
                (Plain.for_user "alice" None) ltac:(discriminate)) as H.
  cbv zeta in H. destruct H as [_ H].
  change (user_by_username Plain.seeded
            (params_username (Plain.for_user "alice" None)))
    with (Some Plain.alice) in H.
  exact (proj1 H eq_refl).
Defined.

(** C1, the claim as written fails: the log holds events for
    "aakash shetty", who has no [users] row, and the profile read answers
    404 instead of the sums 18, 2, 5.  And when alice's log holds two
    events of 2^62 points each, the sum leaves the 64-bit integers and
    her profile read answers 500. *)
Lemma profile_of_unregistered_username :
  summary_of (history_of Plain.seeded "aakash shetty")
  = {| eco_points := 18; items_recycled := 2; carbon_saved_kg := 5 |}
  /\ handleGetUserProfile Plain.seeded
       (Plain.for_user "aakash shetty" None)
     = res_error 404 "User not found"
  /\ handleGetUserProfile
       {| users := [Plain.alice];
          history :=
            [Plain.event 1 "alice" "a.jpg" "2024-01-02"
               4611686018427387904 1 0;
             Plain.event 2 "alice" "b.jpg" "2024-01-03"
               4611686018427387904 1 0];
          users_seq := 1; history_seq := 2 |}
       (Plain.for_user "alice" None)
     = res_error 500 "DB error".
Proof. repeat split; vm_compute; reflexivity. Qed.

(* ------------------------------------------------------------------ *)
(** ** The plain serialisation satisfies [jwt_lawful] *)

Section PlainCodec.

Import Plain.

Lemma string_app_assoc (a b c : string) : (a ++ b) ++ c = a ++ b ++ c.
Proof.
  induction a as [|x a IH]; cbn [String.append]; [reflexivity|].
  now rewrite IH.
Qed.

Lemma string_app_empty (a : string) : a ++ "" = a.
Proof.
  induction a as [|x a IH]; cbn [String.append]; [reflexivity|].
  now rewrite IH.
Qed.

Lemma string_length_app (a b : string) :
  String.length (a ++ b) = (String.length a + String.length b)%nat.
Proof.
  induction a as [|c a IH]; cbn [String.append String.length];
    [reflexivity|now rewrite IH].
Qed.

Lemma unbit_bit (b : bool) : unbit (bit b) = Some b.
Proof. destruct b; reflexivity. Qed.

Lemma dec_pos_enc (p : positive) (rest : string) :
  dec_pos (enc_pos p ++ rest) = Some (p, rest).
Proof.
  induction p as [p IH|p IH|]; cbn [enc_pos String.append dec_pos].
  - change (Ascii.eqb "1" ".") with false. cbn iota.
    change (unbit "1") with (Some true). now rewrite IH.
  - change (Ascii.eqb "0" ".") with false. cbn iota.
    change (unbit "0") with (Some false). now rewrite IH.
  - reflexivity.
Qed.

Lemma dec_Z_enc (z : Z) (rest : string) :
  dec_Z (enc_Z z ++ rest) = Some (z, rest).
Proof.
  destruct z as [|p|p]; cbn [enc_Z String.append]; unfold dec_Z.
  - reflexivity.
  - change (Ascii.eqb "p" "z") with false.
    change (Ascii.eqb "p" "p") with true. cbn iota.
    now rewrite dec_pos_enc.
  - change (Ascii.eqb "n" "z") with false.
    change (Ascii.eqb "n" "p") with false.
    change (Ascii.eqb "n" "n") with true. cbn iota.
    now rewrite dec_pos_enc.
Qed.

Lemma dec_str_end (rest : string) :
  dec_str (String "e" rest) = Some (EmptyString, rest).
Proof.
  destruct rest as [|c0 [|c1 [|c2 [|c3 [|c4 [|c5 [|c6 [|c7 r]]]]]]]];
    reflexivity.
Qed.

Lemma dec_str_enc (s rest : string) :
  dec_str (enc_str s ++ rest) = Some (s, rest).
Proof.
  induction s as [|a s IH].
  - apply dec_str_end.
  - destruct a as [b0 b1 b2 b3 b4 b5 b6 b7].
    cbn [enc_str String.append dec_str].
    change (Ascii.eqb "c" "c") with true. cbn iota.
    rewrite !unbit_bit, IH. reflexivity.
Qed.

Lemma enc_value_Arr (l : list (value Z)) :
  enc_value (Arr l) = String "a" (enc_items l).
Proof. destruct l; reflexivity. Qed.

Lemma enc_value_Obj (fs : list (string * value Z)) :
  enc_value (Obj fs) = String "o" (enc_props fs).
Proof. destruct fs as [|[k x] fs]; reflexivity. Qed.

(** Reading back what was written, with room for the characters
    written. *)
Lemma dec_enc (n : nat) :
  (forall v rest, (String.length (enc_value v) <= n)%nat ->
     dec_value n (enc_value v ++ rest) = Some (v, rest))
  /\ (forall l rest, (String.length (enc_items l) <= n)%nat ->
        dec_items n (enc_items l ++ rest) = Some (l, rest))
  /\ (forall fs rest, (String.length (enc_props fs) <= n)%nat ->
        dec_props n (enc_props fs ++ rest) = Some (fs, rest)).
Proof.
  induction n as [|n (IHv & IHl & IHp)].
  - repeat split.
    + intros v rest H. exfalso. destruct v; cbn in H; lia.
    + intros l rest H. exfalso. destruct l; cbn in H; lia.
    + intros fs rest H. exfalso. destruct fs as [|[k x] fs]; cbn in H; lia.
  - repeat split.
    + intros v rest H. destruct v as [| |b|z|r|s|l|fs].
      * reflexivity.
      * reflexivity.
      * cbn. now rewrite unbit_bit.
      * cbn [enc_value String.append dec_value]. cbn [Ascii.eqb Bool.eqb].
        cbn iota. now rewrite dec_Z_enc.
      * cbn [enc_value String.append dec_value]. cbn [Ascii.eqb Bool.eqb].
        cbn iota. now rewrite dec_Z_enc.
      * cbn [enc_value String.append dec_value]. cbn [Ascii.eqb Bool.eqb].
        cbn iota. now rewrite dec_str_enc.
      * rewrite enc_value_Arr in *. cbn [String.length] in H.
        cbn [String.append dec_value]. cbn [Ascii.eqb Bool.eqb]. cbn iota.
        rewrite IHl by lia. reflexivity.
      * rewrite enc_value_Obj in *. cbn [String.length] in H.
        cbn [String.append dec_value]. cbn [Ascii.eqb Bool.eqb]. cbn iota.
        rewrite IHp by lia. reflexivity.
    + intros l rest H. destruct l as [|x l]; [reflexivity|].
      cbn [enc_items String.length] in H.
      rewrite string_length_app in H.
      cbn [enc_items String.append dec_items]. cbn [Ascii.eqb Bool.eqb].
      cbn iota. rewrite string_app_assoc, IHv by lia.
      rewrite IHl by lia. reflexivity.
    + intros fs rest H. destruct fs as [|[k x] fs]; [reflexivity|].
      cbn [enc_props String.length] in H.
      rewrite !string_length_app in H.
      cbn [enc_props String.append dec_props]. cbn [Ascii.eqb Bool.eqb].
      cbn iota. rewrite !string_app_assoc, dec_str_enc.
      rewrite IHv by lia. rewrite IHp by lia. reflexivity.
Qed.

Lemma dec_value_enc (v : value Z) (rest : string) :
  dec_value (String.length (enc_value v ++ rest)) (enc_value v ++ rest)
  = Some (v, rest).
Proof.
  apply (proj1 (dec_enc (String.length (enc_value v ++ rest)))).
  rewrite string_length_app. lia.
Qed.

Lemma no_space_app (a b : string) :
  Js.no_space (a ++ b) = Js.no_space a && Js.no_space b.
Proof.
  induction a as [|c a IH]; cbn [String.append Js.no_space].
  - reflexivity.
  - rewrite IH. apply andb_assoc.
Qed.

Lemma no_space_enc_pos (p : positive) : Js.no_space (enc_pos p) = true.
Proof. induction p; cbn [enc_pos Js.no_space]; auto. Qed.

Lemma no_space_enc_Z (z : Z) : Js.no_space (enc_Z z) = true.
Proof.
  destruct z; cbn [enc_Z Js.no_space]; try reflexivity;
    rewrite no_space_enc_pos; reflexivity.
Qed.

Lemma no_space_bit (b : bool) : negb (Ascii.eqb (bit b) " ") = true.
Proof. destruct b; reflexivity. Qed.

Lemma no_space_enc_str (s : string) : Js.no_space (enc_str s) = true.
Proof.
  induction s as [|[b0 b1 b2 b3 b4 b5 b6 b7] s IH]; [reflexivity|].
  cbn [enc_str Js.no_space]. rewrite !no_space_bit, IH. reflexivity.
Qed.

Lemma no_space_enc (n : nat) :
  (forall v, (String.length (enc_value v) <= n)%nat ->
     Js.no_space (enc_value v) = true)
  /\ (forall l, (String.length (enc_items l) <= n)%nat ->
        Js.no_space (enc_items l) = true)
  /\ (forall fs, (String.length (enc_props fs) <= n)%nat ->
        Js.no_space (enc_props fs) = true).
Proof.
  induction n as [|n (IHv & IHl & IHp)].
  - repeat split.
    + intros v H. exfalso. destruct v; cbn in H; lia.
    + intros l H. exfalso. destruct l; cbn in H; lia.
    + intros fs H. exfalso. destruct fs as [|[k x] fs]; cbn in H; lia.
  - repeat split.
    + intros v H. destruct v as [| |b|z|r|s|l|fs].
      * reflexivity.
      * reflexivity.
      * destruct b; reflexivity.
      * cbn [enc_value Js.no_space]. now rewrite no_space_enc_Z.
      * cbn [enc_value Js.no_space]. now rewrite no_space_enc_Z.
      * cbn [enc_value Js.no_space]. now rewrite no_space_enc_str.
      * rewrite enc_value_Arr in *. cbn [String.length] in H.
        cbn [Js.no_space]. rewrite IHl by lia. reflexivity.
      * rewrite enc_value_Obj in *. cbn [String.length] in H.
        cbn [Js.no_space]. rewrite IHp by lia. reflexivity.
    + intros l H. destruct l as [|x l]; [reflexivity|].
      cbn [enc_items String.length] in H.
      rewrite string_length_app in H.
      cbn [enc_items Js.no_space]. rewrite no_space_app.
      rewrite IHv by lia. rewrite IHl by lia. reflexivity.
    + intros fs H. destruct fs as [|[k x] fs]; [reflexivity|].
      cbn [enc_props String.length] in H.
      rewrite !string_length_app in H.
      cbn [enc_props Js.no_space]. rewrite !no_space_app.
      rewrite no_space_enc_str. rewrite IHv by lia. rewrite IHp by lia.
      reflexivity.
Qed.

Lemma no_space_enc_value (v : value Z) : Js.no_space (enc_value v) = true.
Proof.
  apply (proj1 (no_space_enc (String.length (enc_value v)))), Nat.le_refl.
Qed.

Lemma enc_value_nonempty (v : value Z) (rest : string) :
  enc_value v ++ rest <> "".
Proof. destruct v; discriminate. Qed.

Lemma plain_jwt_lawful : jwt_lawful Plain.jwt.
Proof.
  intros [i u a x] sig _. cbn [jws_encode jws_decode Plain.jwt].
  unfold encode, enc_claims, decode.
  cbn [jwt_id jwt_username jwt_iat jwt_exp].
  rewrite !string_app_assoc. repeat split.
  - rewrite dec_value_enc, !dec_Z_enc.
    rewrite <- (string_app_empty (enc_str sig)), dec_str_enc. reflexivity.
  - apply enc_value_nonempty.
  - rewrite !no_space_app, no_space_enc_value, !no_space_enc_Z,
      no_space_enc_str. reflexivity.
Qed.

End PlainCodec.

(* ------------------------------------------------------------------ *)
(** ** What JSON keeps of a value *)

Section JsonFacts.

Context {R : Type}.

Lemma jsonify_Arr (l : list (value R)) :
  jsonify (Arr l) = Arr (map json_item l).
Proof. reflexivity. Qed.

Lemma jsonify_Obj (fs : list (string * value R)) :
  jsonify (Obj fs) = Obj (json_props fs).
Proof. destruct fs as [|[k x] fs]; reflexivity. Qed.

Lemma has_key_Obj_cons (k k' : string) (x : value R)
    (fs : list (string * value R)) :
  has_key k (Obj ((k', x) :: fs))
  = (k' =? k)%string || has_key k x || has_key k (Obj fs).
Proof. reflexivity. Qed.

Lemma has_key_Obj (k : string) (fs : list (string * value R)) :
  has_key k (Obj fs) = props_have_key k fs.
Proof.
  induction fs as [|[k' x] fs IH]; [reflexivity|].
  rewrite has_key_Obj_cons, IH. reflexivity.
Qed.

Lemma json_item_fixed (x : value R) :
  jsonify (jsonify x) = jsonify x -> json_item (json_item x) = json_item x.
Proof.
  unfold json_item. intros H.
  destruct (jsonify x) eqn:E; try reflexivity; rewrite H; reflexivity.
Qed.

(** [JSON.stringify] changes nothing in what it has produced. *)
Lemma jsonify_idem (v : value R) : jsonify (jsonify v) = jsonify v.
Proof.
  induction v using value_induction; try reflexivity.
  - rewrite !jsonify_Arr. f_equal. rewrite map_map.
    induction H as [|x l Hx Hl IH]; [reflexivity|].
    cbn [map]. rewrite (json_item_fixed x Hx), IH. reflexivity.
  - rewrite !jsonify_Obj. f_equal.
    induction H as [|[k x] fs Hx Hfs IH]; [reflexivity|].
    cbn [snd] in Hx. cbn [json_props].
    destruct (jsonify x) eqn:E; try exact IH;
      cbn [json_props]; rewrite Hx, IH; reflexivity.
Qed.

(** JSON adds no property. *)
Lemma has_key_jsonify (k : string) (v : value R) :
  has_key k (jsonify v) = true -> has_key k v = true.
Proof.
  induction v using value_induction; try (intros H0; exact H0).
  - rewrite jsonify_Arr. cbn [has_key]. rewrite !existsb_exists.
    intros (y & Hy & Hk). apply in_map_iff in Hy.
    destruct Hy as (x & <- & Hx). exists x. split; [exact Hx|].
    rewrite Forall_forall in H. apply (H x Hx).
    unfold json_item in Hk. destruct (jsonify x); exact Hk.
  - rewrite jsonify_Obj, !has_key_Obj.
    induction H as [|[k' x] fs Hx Hfs IH]; [intros H0; exact H0|].
    cbn [snd] in Hx. cbn [json_props props_have_key].
    intros Hk.
    assert (Hcase : ((k' =? k)%string || has_key k (jsonify x)
                     || props_have_key k (json_props fs)) = true).
    { destruct (jsonify x) eqn:E; cbn [props_have_key] in Hk;
        try exact Hk.
      rewrite Hk. apply orb_true_r. }
    apply orb_true_iff in Hcase. destruct Hcase as [Hcase|Hcase].
    + apply orb_true_iff in Hcase. destruct Hcase as [Hcase|Hcase].
      * now rewrite Hcase.
      * rewrite (Hx Hcase). now rewrite orb_true_r.
    + rewrite (IH Hcase). apply orb_true_r.
Qed.

End JsonFacts.

(* ------------------------------------------------------------------ *)
(** ** Issued tokens *)

Section TokenFacts.

Context {R : Type} {RO : SqlReal R} {XO : Runtime R} {BO : Bcrypt R}
        {JO : Jwt R} {EO : Engine R}.

Lemma split_no_space (t : string) :
  Js.no_space t = true -> Js.split " " t = [t].
Proof.
  induction t as [|c t IH]; cbn [Js.no_space Js.split]; [reflexivity|].
  intros H. apply andb_true_iff in H. destruct H as [Hc Ht].
  apply negb_true_iff in Hc. rewrite Hc, (IH Ht). reflexivity.
Qed.

Lemma bearer_split (t : string) :
  Js.no_space t = true ->
  nth_error (Js.split " " ("Bearer " ++ t)) 1 = Some t.
Proof.
  intros H. cbn [String.append Js.split].
  change (Ascii.eqb "B" " ") with false.
  change (Ascii.eqb "e" " ") with false.
  change (Ascii.eqb "a" " ") with false.
  change (Ascii.eqb "r" " ") with false.
  change (Ascii.eqb " " " ") with true.
  cbn iota. rewrite (split_no_space t H). reflexivity.
Qed.

Lemma startsWith_bearer (t : string) :
  Js.startsWith ("Bearer " ++ t) "Bearer " = true.
Proof. unfold Js.startsWith. cbn. destruct t; reflexivity. Qed.

(** The clock in seconds has reached [x] exactly from millisecond
    [x * 1000] on. *)
Lemma clock_reached (x t : Z) :
  (x <=? clock_seconds t) = negb (t <? x * 1000).
Proof.
  unfold clock_seconds.
  destruct (Z.ltb_spec t (x * 1000)) as [H|H]; cbn [negb].
  - apply Z.leb_gt. apply Z.div_lt_upper_bound; lia.
  - apply Z.leb_le. apply Z.div_le_lower_bound; lia.
Qed.

(** A token of this issuer under the issuer's secret: accepted before
    the expiry instant, [Expired] from it on. *)
Lemma verify_issued (id : Z) (username : value R) (secret : string)
    (t0 t : Z) :
  jwt_lawful JO ->
  let c := issued_claims id username t0 in
  jwt_verify (Some (jwt_sign id username secret t0)) secret t =
  if t <? jwt_exp c * 1000 then inr c else inl Expired.
Proof.
  intros law c. unfold jwt_verify, jwt_sign. fold c.
  destruct (law c (jws_sign secret c) (jsonify_idem username))
    as (Hdec & Hne & _).
  apply String.eqb_neq in Hne. rewrite Hne, Hdec.
  rewrite String.eqb_refl. cbn [negb].
  rewrite clock_reached. destruct (t <? jwt_exp c * 1000); reflexivity.
Qed.

Lemma issued_no_space (id : Z) (username : value R) (secret : string)
    (t0 : Z) :
  jwt_lawful JO -> Js.no_space (jwt_sign id username secret t0) = true.
Proof.
  intros law. unfold jwt_sign.
  apply (law (issued_claims id username t0) _ (jsonify_idem username)).
Qed.

(** With [Authorization: Bearer <token>] and a token without a space,
    [authenticate] decides by [jwt.verify] on exactly that token. *)
Lemma authenticate_bearer (cfg : config) (e : env) (db : store R)
    (req : request R) (next : claims R -> outcome R) (tok : string) :
  Js.no_space tok = true ->
  headers_authorization req = Some ("Bearer " ++ tok) ->
  authenticate cfg e db req next =
  match jwt_verify (Some tok) (JWT_SECRET cfg) (now e) with
  | inl _ => reply db (res_error 401 "Invalid token.")
  | inr user => next user
  end.
Proof.
  intros Hns Hauth. unfold authenticate. rewrite Hauth.
  cbn [Js.str]. rewrite startsWith_bearer, (bearer_split _ Hns).
  reflexivity.
Qed.

Lemma token_of_res_json (msg tok : string) (v : value R) :
  token_of (Some (res_json (Obj [("message", Str msg); ("token", Str tok);
                                 ("user", v)]))) = Some tok.
Proof. unfold token_of, res_json. cbn. reflexivity. Qed.

(** The outcomes of a registration, by what the guard, bcrypt and the
    statement do. *)
Lemma post_api_register_cases (cfg : config) (e : env) (db : store R)
    (req : request R) :
  let out := post_api_register cfg e db req in
  (exists hash name,
     register_rejects (body_username req) (body_password req) = Some false
     /\ bcrypt_hash (salt e) (body_password req) 10 = Some hash
     /\ arg_text (body_username req) = Sql.Bound name
     /\ user_by_username db name = None
     /\ out
        = {| resp := Some (res_json
                 (Obj [("message", Str "Registered");
                       ("token",
                        Str (jwt_sign (users_seq db + 1) (body_username req)
                               (JWT_SECRET cfg) (now e)));
                       ("user",
                        safeUser (Obj [("id", Int (users_seq db + 1));
                                       ("username", body_username req)]))]));
             store' := registered db (CURRENT_TIMESTAMP e) name hash;
             effects := [BcryptHash (body_password req);
                         InsertUser name hash] |})
  \/ (store' out = db
      /\ exists code msg, resp out = Some (res_error code msg)
                          /\ (code = 400 \/ code = 409 \/ code = 500)).
Proof.
  cbv zeta. unfold post_api_register.
  destruct (register_rejects (body_username req) (body_password req))
    as [[|]|] eqn:G.
  - right. split; [reflexivity|]. eexists _, _. split; [reflexivity|]. tauto.
  - destruct (bcrypt_hash (salt e) (body_password req) 10) as [hash|] eqn:H.
    + destruct (arg_text (body_username req)) as [name| |] eqn:T.
      * unfold insert_user.
        destruct (existsb (fun r => (u_username r =? name)%string)
                    (users db)) eqn:E.
        -- right. split; [reflexivity|]. eexists _, _.
           split; [reflexivity|]. tauto.
        -- left. exists hash, name. repeat split; try reflexivity.
           unfold user_by_username.
           destruct (find (fun r => (u_username r =? name)%string)
                       (users db)) as [u|] eqn:F; [|reflexivity].
           apply find_some in F. destruct F as [Hin Hu].
           assert (existsb (fun r => (u_username r =? name)%string)
                     (users db) = true) as X.
           { apply existsb_exists. exists u. split; assumption. }
           rewrite X in E. discriminate E.
      * right. split; [reflexivity|]. eexists _, _.
        split; [reflexivity|]. tauto.
      * right. split; [reflexivity|]. eexists _, _.
        split; [reflexivity|]. tauto.
    + right. split; [reflexivity|]. eexists _, _.
      split; [reflexivity|]. tauto.
  - right. split; [reflexivity|]. eexists _, _. split; [reflexivity|]. tauto.
Qed.

(** The outcomes of a login. *)
Lemma post_api_login_cases (cfg : config) (e : env) (db : store R)
    (req : request R) :
  let out := post_api_login cfg e db req in
  store' out = db
  /\ ((exists u,
         v_truthy (body_username req) = true
         /\ v_truthy (body_password req) = true
         /\ (exists name, bound_text (body_username req) = Sql.Bound name
                          /\ user_by_username db name = Some u)
         /\ bcrypt_compare (body_password req) (u_password_hash u)
            = Some true
         /\ resp out
            = Some (res_json
                 (Obj [("message", Str "Logged in");
                       ("token",
                        Str (jwt_sign (u_id u) (Str (u_username u))
                               (JWT_SECRET cfg) (now e)));
                       ("user",
                        safeUser (select_user
                                    ["id"; "username"; "password_hash";
                                     "created_at"] u))])))
      \/ resp out = None
      \/ resp out = Some express_error
      \/ exists code msg, resp out = Some (res_error code msg)
                          /\ (code = 400 \/ code = 401 \/ code = 500)).
Proof.
  cbv zeta. unfold post_api_login.
  destruct (v_truthy (body_username req)) eqn:Tu; cbn [negb orb].
  2:{ split; [reflexivity|]. right. right. right. eexists _, _.
      split; [reflexivity|]. tauto. }
  destruct (v_truthy (body_password req)) eqn:Tp; cbn [negb].
  2:{ split; [reflexivity|]. right. right. right. eexists _, _.
      split; [reflexivity|]. tauto. }
  destruct (bound_text (body_username req)) as [name| |] eqn:T.
  - destruct (user_by_username db name) as [u|] eqn:F; cbn [option_map].
    + change (str_of (get_field "password_hash"
                (select_user ["id"; "username"; "password_hash";
                              "created_at"] u)))
        with (u_password_hash u).
      destruct (bcrypt_compare (body_password req) (u_password_hash u))
        as [[|]|] eqn:C; cbn [negb].
      * split; [reflexivity|]. left. exists u.
        split; [reflexivity|]. split; [reflexivity|].
        split; [exists name; split; [reflexivity|exact F]|].
        split; [exact C|]. reflexivity.
      * split; [reflexivity|]. right. right. right. eexists _, _.
        split; [reflexivity|]. tauto.
      * split; [reflexivity|]. right. left. reflexivity.
    + split; [reflexivity|]. right. right. right. eexists _, _.
      split; [reflexivity|]. tauto.
  - split; [reflexivity|]. right. right. left. reflexivity.
  - split; [reflexivity|]. right. right. right. eexists _, _.
    split; [reflexivity|]. tauto.
Qed.

(** The token a successful registration or login hands out. *)
Lemma issued_token (rt : route) (cfg : config) (e : env) (db : store R)
    (req : request R) :
  rt = POST_api_register \/ rt = POST_api_login ->
  status_of (handle rt cfg e db req) = Some 200 ->
  exists id username,
    token_of (resp (handle rt cfg e db req)) =
    Some (jwt_sign id username (JWT_SECRET cfg) (now e)).
Proof.
  unfold status_of. intros [-> | ->] Hst; cbn [handle] in *.
  - destruct (post_api_register_cases cfg e db req)
      as [(hash & name & _ & _ & _ & _ & ->)
         |(_ & code & msg & Hr & Hc)].
    + eexists _, _. cbn [resp]. apply token_of_res_json.
    + rewrite Hr in Hst. cbn in Hst. injection Hst as Hst. lia.
  - destruct (post_api_login_cases cfg e db req)
      as (_ & [(u & _ & _ & _ & _ & Hr)
              |[Hr|[Hr|(code & msg & Hr & Hc)]]]).
    + rewrite Hr. eexists _, _. apply token_of_res_json.
    + rewrite Hr in Hst. discriminate Hst.
    + rewrite Hr in Hst. discriminate Hst.
    + rewrite Hr in Hst. cbn in Hst. injection Hst as Hst. lia.
Qed.

(** C2.  The token a successful registration or login returns carries
    [iat], the second of issue, and [exp = iat + 7 days].  Verification
    under the server's secret succeeds at every instant (in
    milliseconds) strictly before [exp] and fails with [Expired] at
    [exp] and at every later instant; through [authenticate] the
    protected handler runs before [exp] and the request is refused with
    401 from [exp] on. *)
Theorem issued_token_valid_until_expiry (rt : route) (cfg : config)
    (e : env) (db : store R) (req : request R) :
  jwt_lawful JO ->
  rt = POST_api_register \/ rt = POST_api_login ->
  status_of (handle rt cfg e db req) = Some 200 ->
  exists (tok : string) (c : claims R),
    token_of (resp (handle rt cfg e db req)) = Some tok
    /\ jwt_iat c = clock_seconds (now e)
    /\ jwt_exp c = jwt_iat c + 7 * 24 * 60 * 60
    /\ (forall t,
          (t < jwt_exp c * 1000 ->
           jwt_verify (Some tok) (JWT_SECRET cfg) t = inr c)
          /\ (jwt_exp c * 1000 <= t ->
              jwt_verify (Some tok) (JWT_SECRET cfg) t = inl Expired))
    /\ (forall (e1 : env) (db1 : store R) (req1 : request R)
               (next : claims R -> outcome R),
          headers_authorization req1 = Some ("Bearer " ++ tok) ->
          (now e1 < jwt_exp c * 1000 ->
           authenticate cfg e1 db1 req1 next = next c)
          /\ (jwt_exp c * 1000 <= now e1 ->
              authenticate cfg e1 db1 req1 next =
              reply db1 (res_error 401 "Invalid token."))).
Proof.
  intros law Hrt Hst.
  destruct (issued_token rt cfg e db req Hrt Hst) as (id & username & Htok).
  exists (jwt_sign id username (JWT_SECRET cfg) (now e)),
         (issued_claims id username (now e)).
  split; [exact Htok|]. split; [reflexivity|]. split; [reflexivity|].
  assert (Hv : forall t,
    jwt_verify (Some (jwt_sign id username (JWT_SECRET cfg) (now e)))
      (JWT_SECRET cfg) t =
    if t <? jwt_exp (issued_claims id username (now e)) * 1000
    then inr (issued_claims id username (now e)) else inl Expired).
  { intros t. apply (verify_issued id username (JWT_SECRET cfg) (now e) t law). }
  split.
  - intros t. rewrite Hv. split; intros Ht.
    + apply Z.ltb_lt in Ht. now rewrite Ht.
    + apply Z.ltb_ge in Ht. now rewrite Ht.
  - intros e1 db1 req1 next Hauth.
    pose proof (issued_no_space id username (JWT_SECRET cfg) (now e) law)
      as Hns.
    rewrite (authenticate_bearer cfg e1 db1 req1 next _ Hns Hauth), Hv.
    split; intros Ht.
    + apply Z.ltb_lt in Ht. now rewrite Ht.
    + apply Z.ltb_ge in Ht. now rewrite Ht.
Qed.

End TokenFacts.

Lemma issued_token_valid_until_expiry_witness :
  exists (tok : string) (c : claims Z),
    token_of (resp Plain.alice_registers) = Some tok
    /\ jwt_iat c = 5 /\ jwt_exp c = 604805
    /\ jwt_verify (Some tok)
         (JWT_SECRET Plain.cfg) 604804999 = inr c
    /\ jwt_verify (Some tok)
         (JWT_SECRET Plain.cfg) 604805000 = inl Expired.
Proof.
  assert (Hst : status_of Plain.alice_registers = Some 200)
    by reflexivity.
  destruct (issued_token_valid_until_expiry POST_api_register Plain.cfg
              (Plain.at_ms 5000 "2024-01-01 00:00:00") empty_store
              (Plain.credentials "alice" "secret1")
              plain_jwt_lawful (or_introl eq_refl) Hst)
    as (tok & c & Htok & Hiat & Hexp & Hver & _).
  change (clock_seconds (now (Plain.at_ms 5000 "2024-01-01 00:00:00")))
    with 5 in Hiat.
  assert (Hx : jwt_exp c = 604805) by (rewrite Hexp, Hiat; reflexivity).
  exists tok, c. split; [exact Htok|]. split; [exact Hiat|].
  split; [exact Hx|]. split.
  - apply (Hver 604804999). rewrite Hx. reflexivity.
  - apply (Hver 604805000). rewrite Hx. discriminate.
Defined.

(* ------------------------------------------------------------------ *)
(** ** Token failures at the protected routes *)

Section TokenFailures.

Context {R : Type} {RO : SqlReal R} {XO : Runtime R} {BO : Bcrypt R}
        {JO : Jwt R} {EO : Engine R}.

Lemma authenticate_missing (cfg : config) (e : env) (db : store R)
    (req : request R) (next : claims R -> outcome R) :
  token_missing req = true ->
  authenticate cfg e db req next = reply db (res_error 401 "Missing token.").
Proof.
  unfold token_missing, authenticate. intros H. now rewrite H.
Qed.

Lemma authenticate_invalid (cfg : config) (e : env) (db : store R)
    (req : request R) (next : claims R -> outcome R) (err : verify_error) :
  token_missing req = false ->
  jwt_verify (bearer_token req) (JWT_SECRET cfg) (now e) = inl err ->
  authenticate cfg e db req next = reply db (res_error 401 "Invalid token.").
Proof.
  unfold token_missing, bearer_token, authenticate. intros H Hv.
  now rewrite H, Hv.
Qed.

(** C3 (as amended).  At both token-protected routes every token failure
    is answered 401 with a body [{ error: <message> }] and leaves the
    store as it was.  A request without a bearer credential gets the
    message "Missing token."; every failure of [jwt.verify], be it
    [Malformed], [BadSignature] or [Expired], gets the one message
    "Invalid token.". *)
Theorem token_failure_responses (rt : route) (cfg : config) (e : env)
    (db : store R) (req : request R) :
  rt = GET_api_me \/ rt = POST_api_history ->
  (token_missing req = true ->
   handle rt cfg e db req = reply db (res_error 401 "Missing token."))
  /\ (token_missing req = false ->
      forall err : verify_error,
        jwt_verify (bearer_token req) (JWT_SECRET cfg) (now e) = inl err ->
        handle rt cfg e db req =
        reply db (res_error 401 "Invalid token.")).
Proof.
  intros [-> | ->]; cbn [handle]; unfold get_api_me, post_api_history;
    (split; [apply authenticate_missing
            | intros Hm err Hv;
              exact (authenticate_invalid cfg e db req _ err Hm Hv)]).
Qed.

End TokenFailures.

Lemma token_failure_responses_witness :
  handle GET_api_me
    Plain.cfg Plain.at_expiry Plain.with_alice
    (Plain.bearer Plain.alice_token)
  = reply Plain.with_alice (res_error 401 "Invalid token.").
Proof.
  apply (proj2 (token_failure_responses GET_api_me Plain.cfg
                  Plain.at_expiry
                  Plain.with_alice (Plain.bearer Plain.alice_token)
                  (or_introl eq_refl)))
    with (err := Expired).
  - vm_compute. reflexivity.
  - vm_compute. reflexivity.
Defined.

(** C3, the claim as written fails: at the instant alice's token expires,
    GET /api/me without an Authorization header and GET /api/me with the
    expired token are both answered 401, with different bodies. *)
Lemma missing_and_expired_token_differ :
  let get_me := fun req =>
    resp (handle
            GET_api_me Plain.cfg Plain.at_expiry Plain.with_alice req) in
  jwt_verify (Some Plain.alice_token)
    (JWT_SECRET Plain.cfg) (now Plain.at_expiry) = inl Expired
  /\ get_me Plain.blank = Some (res_error 401 "Missing token.")
  /\ get_me (Plain.bearer Plain.alice_token)
     = Some (res_error 401 "Invalid token.")
  /\ option_map body (get_me Plain.blank)
     <> option_map body (get_me (Plain.bearer Plain.alice_token)).
Proof.
  cbv zeta. repeat split; try (vm_compute; reflexivity).
  vm_compute. discriminate.
Qed.

(* ------------------------------------------------------------------ *)
(** ** Login failures *)

Section Login.

Context {R : Type} {RO : SqlReal R} {XO : Runtime R} {BO : Bcrypt R}
        {JO : Jwt R} {EO : Engine R}.

(** X22.  With both fields present and a password on which
    [bcrypt.compare] answers, a login for an existing username with a
    password that does not match and a login for a username that does
    not exist get the same response: 401 with the body
    [{ error: "Invalid credentials." }]; neither changes the store. *)
Theorem login_failures_indistinguishable (cfg : config) (e1 e2 : env)
    (db : store R) (req1 req2 : request R) (u : user_row)
    (name1 name2 : string) :
  v_truthy (body_username req1) = true ->
  v_truthy (body_password req1) = true ->
  v_truthy (body_username req2) = true ->
  v_truthy (body_password req2) = true ->
  bound_text (body_username req1) = Sql.Bound name1 ->
  user_by_username db name1 = Some u ->
  bcrypt_compare (body_password req1) (u_password_hash u) = Some false ->
  bound_text (body_username req2) = Sql.Bound name2 ->
  user_by_username db name2 = None ->
  resp (post_api_login cfg e1 db req1)
  = Some (res_error 401 "Invalid credentials.")
  /\ resp (post_api_login cfg e2 db req2)
     = Some (res_error 401 "Invalid credentials.")
  /\ store' (post_api_login cfg e1 db req1) = db
  /\ store' (post_api_login cfg e2 db req2) = db.
Proof.
  intros Hu1 Hp1 Hu2 Hp2 Hn1 Hrow Hbad Hn2 Hnone.
  unfold post_api_login.
  rewrite Hu1, Hp1, Hu2, Hp2, Hn1, Hn2, Hrow, Hnone.
  cbn [negb orb option_map].
  change (str_of (get_field "password_hash"
            (select_user ["id"; "username"; "password_hash"; "created_at"]
               u))) with (u_password_hash u).
  rewrite Hbad. cbn [negb]. repeat split.
Qed.

(** When [bcrypt.compare] rejects the password, a login for an existing
    username is never answered, while a login for a username that does
    not exist is answered 401 as ever. *)
Lemma login_rejection_is_not_caught (cfg : config) (e : env)
    (db : store R) (req : request R) (u : user_row) (name : string) :
  v_truthy (body_username req) = true ->
  v_truthy (body_password req) = true ->
  bound_text (body_username req) = Sql.Bound name ->
  bcrypt_compare (body_password req) (u_password_hash u) = None ->
  (user_by_username db name = Some u ->
   resp (post_api_login cfg e db req) = None)
  /\ (user_by_username db name = None ->
      resp (post_api_login cfg e db req)
      = Some (res_error 401 "Invalid credentials.")).
Proof.
  intros Hu Hp Hn Hrej. unfold post_api_login.
  rewrite Hu, Hp, Hn. cbn [negb orb]. split; intros ->; cbn [option_map].
  - change (str_of (get_field "password_hash"
              (select_user ["id"; "username"; "password_hash"; "created_at"]
                 u))) with (u_password_hash u).
    now rewrite Hrej.
  - reflexivity.
Qed.

End Login.

Lemma login_failures_indistinguishable_witness :
  resp (post_api_login
          Plain.cfg Plain.before_expiry Plain.with_alice
          (Plain.credentials "alice" "secret2"))
  = resp (post_api_login
            Plain.cfg Plain.before_expiry Plain.with_alice
            (Plain.credentials "alicia" "secret1")).
Proof.
  destruct (login_failures_indistinguishable Plain.cfg
              Plain.before_expiry Plain.before_expiry Plain.with_alice
              (Plain.credentials "alice" "secret2")
              (Plain.credentials "alicia" "secret1") Plain.alice
              "alice" "alicia"
              ltac:(reflexivity) ltac:(reflexivity) ltac:(reflexivity)
              ltac:(reflexivity) ltac:(reflexivity) ltac:(reflexivity)
              ltac:(reflexivity) ltac:(reflexivity) ltac:(reflexivity))
    as (H1 & H2 & _).
  rewrite H1, H2. reflexivity.
Defined.

(** C4, at the failing input: with alice registered, a login as "alice"
    with the number 12345 for a password passes the presence check, finds
    her row and awaits [bcrypt.compare], whose rejection nothing catches:
    the request is never answered.  The same login as "alicia", who is not
    registered, is answered 401.  Whether a username exists shows. *)
Lemma login_with_a_number_for_a_password :
  let login := fun username =>
    resp (post_api_login
            Plain.cfg Plain.before_expiry Plain.with_alice
            (Plain.fields (Str username) (Int 12345))) in
  login "alice" = None
  /\ login "alicia" = Some (res_error 401 "Invalid credentials.").
Proof. cbv zeta. split; vm_compute; reflexivity. Qed.
(* ------------------------------------------------------------------ *)
(** ** ORDER BY and LIMIT *)

Section OrderBy.

Context {A : Type} (before : A -> A -> bool).

Hypothesis before_total :
  forall a b, before a b = false -> before b a = true.

Lemma insert_row_perm (x : A) (l : list A) :
  Permutation (x :: l) (Sql.insert_row before x l).
Proof using Type.
  induction l as [|y l IH]; cbn [Sql.insert_row]; [reflexivity|].
  destruct (before x y); [reflexivity|].
  rewrite perm_swap. now apply perm_skip.
Qed.

Lemma order_by_perm (l : list A) : Permutation l (Sql.order_by before l).
Proof using Type.
  induction l as [|x l IH]; cbn [Sql.order_by fold_right]; [reflexivity|].
  rewrite <- insert_row_perm. now apply perm_skip.
Qed.

Lemma insert_row_hd (x y : A) (l : list A) :
  before x y = false -> HdRel (Sql.precedes before) y l ->
  HdRel (Sql.precedes before) y (Sql.insert_row before x l).
Proof using before_total.
  intros Hxy Hl. destruct l as [|z l]; cbn [Sql.insert_row].
  - constructor. now apply before_total.
  - destruct (before x z).
    + constructor. now apply before_total.
    + inversion Hl; subst. now constructor.
Qed.

Lemma insert_row_sorted (x : A) (l : list A) :
  Sorted (Sql.precedes before) l -> Sorted (Sql.precedes before) (Sql.insert_row before x l).
Proof using before_total.
  induction 1 as [|y l Hs IH Hhd]; cbn [Sql.insert_row].
  - repeat constructor.
  - destruct (before x y) eqn:Hxy.
    + constructor; [now constructor|now constructor].
    + constructor; [exact IH|now apply insert_row_hd].
Qed.

Lemma order_by_sorted (l : list A) :
  Sorted (Sql.precedes before) (Sql.order_by before l).
Proof using before_total.
  induction l as [|x l IH]; cbn [Sql.order_by fold_right].
  - constructor.
  - now apply insert_row_sorted.
Qed.

End OrderBy.

Section TextOrder.

Lemma string_leb_iff (a b : string) :
  String.leb a b = true <-> String_as_OT.lt a b \/ a = b.
Proof.
  unfold String.leb. destruct (String.compare a b) eqn:E.
  - split; [|reflexivity]. intros _. right. now apply String_as_OT.cmp_eq.
  - split; [|reflexivity]. intros _. left. now apply String_as_OT.cmp_lt.
  - split; [discriminate|]. intros [H | H].
    + apply String_as_OT.cmp_lt in H. unfold String_as_OT.cmp in H.
      congruence.
    + apply String_as_OT.cmp_eq in H. unfold String_as_OT.cmp in H.
      congruence.
Qed.

(** Text comparison is transitive. *)
Lemma string_leb_trans (a b c : string) :
  String.leb a b = true -> String.leb b c = true -> String.leb a c = true.
Proof.
  rewrite !string_leb_iff. intros [Hab | ->] [Hbc | ->]; auto.
  left. eapply String_as_OT.lt_trans; eassumption.
Qed.

End TextOrder.

Section Limit.

Context {A : Type}.

Lemma firstn_sorted (P : A -> A -> Prop) (n : nat) (l : list A) :
  Sorted P l -> Sorted P (firstn n l).
Proof.
  revert l; induction n as [|n IH]; intros l Hs; [constructor|].
  destruct l as [|x l]; [constructor|]. cbn [firstn].
  inversion Hs as [|? ? Hs' Hhd]; subst.
  constructor; [now apply IH|].
  destruct n; destruct l as [|y l]; cbn [firstn]; try constructor.
  now inversion Hhd; subst.
Qed.

Lemma firstn_member (n : nat) (l : list A) (x : A) :
  In x (firstn n l) -> In x l.
Proof.
  intros H. rewrite <- (firstn_skipn n l). apply in_or_app. now left.
Qed.

Lemma firstn_strongly_sorted (P : A -> A -> Prop) (n : nat) (l : list A) :
  StronglySorted P l -> StronglySorted P (firstn n l).
Proof.
  revert l; induction n as [|n IH]; intros l Hs; [constructor|].
  destruct l as [|x l]; [constructor|]. cbn [firstn].
  inversion Hs as [|? ? Hs' Hall]; subst.
  constructor; [now apply IH|].
  apply Forall_forall. intros y Hy. apply firstn_member in Hy.
  rewrite Forall_forall in Hall. now apply Hall.
Qed.

Lemma limit_strongly_sorted (P : A -> A -> Prop) (n : Z) (l : list A) :
  StronglySorted P l -> StronglySorted P (Sql.limit n l).
Proof.
  intros Hs. unfold Sql.limit. destruct (n <? 0); [exact Hs|].
  now apply firstn_strongly_sorted.
Qed.

(** In a sorted list every element of a prefix comes before every
    element of the rest. *)
Lemma strongly_sorted_app (P : A -> A -> Prop) (l1 l2 : list A) :
  StronglySorted P (l1 ++ l2) ->
  forall a b, In a l1 -> In b l2 -> P a b.
Proof.
  induction l1 as [|x l1 IH]; intros Hs a b Ha Hb; [destruct Ha|].
  cbn [app] in Hs. inversion Hs as [|? ? Hs' Hall]; subst.
  destruct Ha as [<- | Ha].
  - rewrite Forall_forall in Hall. apply Hall. apply in_or_app. now right.
  - now apply IH.
Qed.

Lemma strongly_sorted_weaken (P Q : A -> A -> Prop) (l : list A) :
  (forall a b, P a b -> Q a b) -> StronglySorted P l -> StronglySorted Q l.
Proof.
  intros HPQ. induction 1 as [|x l Hs IH Hall]; constructor; [exact IH|].
  rewrite Forall_forall in *. auto.
Qed.

Lemma limit_sorted (P : A -> A -> Prop) (n : Z) (l : list A) :
  Sorted P l -> Sorted P (Sql.limit n l).
Proof.
  intros Hs. unfold Sql.limit. destruct (n <? 0); [exact Hs|].
  now apply firstn_sorted.
Qed.

Lemma limit_In (n : Z) (l : list A) (x : A) :
  In x (Sql.limit n l) -> In x l.
Proof.
  unfold Sql.limit. destruct (n <? 0); [trivial|]. apply firstn_member.
Qed.

Lemma limit_length (n : Z) (l : list A) :
  0 <= n -> (List.length (Sql.limit n l) <= Z.to_nat n)%nat.
Proof.
  intros Hn. unfold Sql.limit.
  destruct (Z.ltb_spec n 0); [lia|]. apply firstn_le_length.
Qed.

Lemma limit_all (n : Z) (l : list A) :
  (List.length l <= Z.to_nat n)%nat -> Sql.limit n l = l.
Proof.
  intros Hl. unfold Sql.limit. destruct (n <? 0); [reflexivity|].
  now apply firstn_all2.
Qed.

Lemma firstn_NoDup (n : nat) (l : list A) : NoDup l -> NoDup (firstn n l).
Proof.
  intros Hnd. rewrite <- (firstn_skipn n l) in Hnd.
  now apply NoDup_app_remove_r in Hnd.
Qed.

Lemma limit_map {B} (f : A -> B) (n : Z) (l : list A) :
  map f (Sql.limit n l) = Sql.limit n (map f l).
Proof.
  unfold Sql.limit. destruct (n <? 0); [reflexivity|].
  symmetry. apply firstn_map.
Qed.

Lemma limit_NoDup (n : Z) (l : list A) : NoDup l -> NoDup (Sql.limit n l).
Proof.
  intros Hnd. unfold Sql.limit. destruct (n <? 0); [exact Hnd|].
  now apply firstn_NoDup.
Qed.

End Limit.


(* ------------------------------------------------------------------ *)
(** ** Row lists in responses *)

Section Rows.

Context {R : Type} {RO : SqlReal R}.

(** An array of rows that [JSON.stringify] leaves alone is sent as it
    is. *)
Lemma res_json_rows {A} (k : string) (f : A -> value R) (l : list A) :
  (forall x, jsonify (f x) = f x) ->
  (forall x, f x <> Undefined) ->
  res_json (Obj [(k, v_or (Arr (map f l)) (Arr []))])
  = ok (Obj [(k, Arr (map f l))]).
Proof.
  intros Hj Hu. unfold res_json, ok. cbn. rewrite map_map.
  do 6 f_equal. apply map_ext. intros x. rewrite Hj.
  specialize (Hu x). destruct (f x); congruence.
Qed.

Lemma jsonify_leader_obj (l : leader R) : jsonify (leader_obj l) = leader_obj l.
Proof. destruct l as [u [x|x] [y|y] c]; reflexivity. Qed.

Lemma jsonify_history_row (h : history_row R) :
  jsonify (select_history history_cols h) = select_history history_cols h.
Proof. reflexivity. Qed.

Lemma jsonify_user_row (u : user_row) :
  jsonify (select_user (R:=R) ["id"; "username"; "created_at"] u)
  = select_user ["id"; "username"; "created_at"] u.
Proof. reflexivity. Qed.

End Rows.

(* ------------------------------------------------------------------ *)
(** ** The plain engine ranks *)

Lemma plain_engine_ranks : ranks Plain.engine.
Proof.
  intros l. cbn [rank Plain.engine]. split.
  - etransitivity; [symmetry; apply order_by_perm|].
    symmetry. apply order_by_perm.
  - apply strongly_sorted_weaken
      with (P := Sql.precedes (fun a b => Plain.points b <=? Plain.points a)).
    + unfold Sql.precedes, outranks, Plain.points. intros a b H.
      apply Z.leb_le in H.
      destruct (l_eco_points a), (l_eco_points b); auto.
    + apply Sorted_StronglySorted.
      * unfold Sql.precedes. intros a b c Hab Hbc.
        apply Z.leb_le in Hab, Hbc. apply Z.leb_le. lia.
      * apply order_by_sorted. intros a b H. apply Z.leb_gt in H.
        apply Z.leb_le. lia.
Qed.

(* ------------------------------------------------------------------ *)
(** ** Leaderboard *)

Section Leaderboard.

Context {R : Type} {RO : SqlReal R} {XO : Runtime R} {EO : Engine R}.

Lemma leader_of_username (db : store R) (u : string) (l : leader R) :
  leader_of db u = inr l -> l_username l = u.
Proof.
  unfold leader_of.
  destruct (sum_int (map h_eco_points_earned (history_of db u)));
    [discriminate|].
  destruct (sum_int (map h_items_recycled (history_of db u)));
    [discriminate|].
  now intros [= <-].
Qed.

(** When every group has its sums, the rows are the groups' sums, key by
    key. *)
Lemma all_rows_inr {A B} (f : A -> Sql.result B) (keys : list A)
    (xs : list B) :
  all_rows (map f keys) = inr xs ->
  Forall2 (fun k x => f k = inr x) keys xs.
Proof.
  revert xs. induction keys as [|k keys IH]; intros xs; cbn [map all_rows].
  - intros [= <-]. constructor.
  - destruct (f k) as [err|x] eqn:E; [discriminate|].
    destruct (all_rows (map f keys)) as [err|ys]; [discriminate|].
    intros [= <-]. constructor; [exact E|]. now apply IH.
Qed.

(** The statement fails only when some group's sums fail. *)
Lemma all_rows_inl {A B} (f : A -> Sql.result B) (keys : list A)
    (err : Sql.error) :
  all_rows (map f keys) = inl err ->
  exists k, In k keys /\ f k = inl err.
Proof.
  induction keys as [|k keys IH]; cbn [map all_rows]; [discriminate|].
  destruct (f k) as [e|x] eqn:E.
  - intros [= <-]. exists k. split; [now left|exact E].
  - destruct (all_rows (map f keys)) as [e|ys]; [|discriminate].
    intros [= <-]. destruct (IH eq_refl) as (k' & Hin & Hk').
    exists k'. split; [now right|exact Hk'].
Qed.

(** A group whose sums fail makes the statement fail. *)
Lemma all_rows_fails {A B} (f : A -> Sql.result B) (keys : list A)
    (k : A) (err : Sql.error) :
  In k keys -> f k = inl err -> exists e, all_rows (map f keys) = inl e.
Proof.
  induction keys as [|k' keys IH]; intros Hin Hk; [destruct Hin|].
  cbn [map all_rows]. destruct (f k') as [e|x] eqn:E; [now exists e|].
  destruct Hin as [->|Hin]; [congruence|].
  destruct (IH Hin Hk) as (e & ->). now exists e.
Qed.

Lemma group_keys_In (l : list string) (u : string) :
  In u (Sql.group_keys l) <-> In u l.
Proof. unfold Sql.group_keys. apply nodup_In. Qed.

Lemma group_usernames (db : store R) (groups : list (leader R)) :
  leaderboard_groups db = inr groups ->
  map l_username groups = Sql.group_keys (map h_username (history db)).
Proof.
  unfold leaderboard_groups. intros H. apply all_rows_inr in H.
  induction H as [|k x keys xs Hk _ IH]; [reflexivity|].
  cbn [map]. rewrite IH, (leader_of_username db k x Hk). reflexivity.
Qed.

Lemma Forall2_In_r {A B} (P : A -> B -> Prop) (keys : list A)
    (xs : list B) :
  Forall2 P keys xs -> forall x, In x xs -> exists k, In k keys /\ P k x.
Proof.
  induction 1 as [|k x keys xs Hk _ IH]; intros y Hy; [destruct Hy|].
  destruct Hy as [<-|Hy].
  - exists k. split; [now left|exact Hk].
  - destruct (IH y Hy) as (k' & Hin & Hk'). exists k'.
    split; [now right|exact Hk'].
Qed.

Lemma Forall2_In_l {A B} (P : A -> B -> Prop) (keys : list A)
    (xs : list B) :
  Forall2 P keys xs -> forall k, In k keys -> exists x, In x xs /\ P k x.
Proof.
  induction 1 as [|k x keys xs Hk _ IH]; intros y Hy; [destruct Hy|].
  destruct Hy as [<-|Hy].
  - exists x. split; [now left|exact Hk].
  - destruct (IH y Hy) as (x' & Hin & Hk'). exists x'.
    split; [now right|exact Hk'].
Qed.

Lemma groups_are_sums (db : store R) (groups : list (leader R)) :
  leaderboard_groups db = inr groups ->
  forall l, In l groups ->
    In (l_username l) (map h_username (history db))
    /\ leader_of db (l_username l) = inr l.
Proof.
  unfold leaderboard_groups. intros H l Hl. apply all_rows_inr in H.
  destruct (Forall2_In_r _ _ _ H l Hl) as (k & Hk & Hsum).
  rewrite (leader_of_username db k l Hsum). split; [|exact Hsum].
  now apply (proj1 (group_keys_In _ _)).
Qed.

Lemma history_of_nonempty (db : store R) (u : string) :
  In u (map h_username (history db)) -> history_of db u <> [].
Proof.
  intros Hin. apply in_map_iff in Hin. destruct Hin as (h & Hu & Hh).
  assert (Hf : In h (history_of db u)) by (apply history_of_In; auto).
  intros Hnil. now rewrite Hnil in Hf.
Qed.

Lemma integers_history_of (db : store R) (u : string) :
  integers (history db) = true -> integers (history_of db u) = true.
Proof.
  unfold integers, history_of. rewrite !forallb_forall.
  intros H h Hh. apply filter_In in Hh. now apply H.
Qed.


(** The entries LIMIT 25 cuts off have no more INTEGER points than any
    entry that is shown. *)
Lemma leaderboard_keeps_the_top (db : store R) (rows : list (leader R))
    (u : string) (lu l : leader R) :
  ranks EO ->
  leaderboard_query db = inr rows ->
  In u (map h_username (history db)) ->
  leader_of db u = inr lu ->
  ~ In u (map l_username rows) ->
  In l rows ->
  outranks l lu.
Proof.
  intros law Hq Hu Hlu Hout Hl. unfold leaderboard_query in Hq.
  destruct (leaderboard_groups db) as [err|groups] eqn:G; [discriminate|].
  injection Hq as <-. destruct (law groups) as [Hperm Hsorted].
  rewrite <- (firstn_skipn 25 (rank groups)) in Hsorted.
  assert (Hin : In lu (rank groups)).
  { apply (Permutation_in _ (Permutation_sym Hperm)).
    unfold leaderboard_groups in G. apply all_rows_inr in G.
    apply (proj2 (group_keys_In _ _)) in Hu.
    destruct (Forall2_In_l _ _ _ G u Hu) as (x & Hx & Hsum).
    congruence. }
  rewrite <- (firstn_skipn 25) in Hin. apply in_app_or in Hin.
  destruct Hin as [Hin | Hin].
  - exfalso. apply Hout. apply in_map_iff. exists lu.
    split; [now apply (leader_of_username db)|exact Hin].
  - exact (strongly_sorted_app _ _ _ Hsorted l lu Hl Hin).
Qed.

End Leaderboard.



(* ------------------------------------------------------------------ *)
(** ** History listing *)

Section HistoryListing.

Context {R : Type} {RO : SqlReal R}.

Lemma processed_at_desc_total (a b : history_row R) :
  processed_at_desc a b = false -> processed_at_desc b a = true.
Proof.
  unfold processed_at_desc. intros H.
  destruct (String.leb_total (h_processed_at b) (h_processed_at a));
    congruence.
Qed.

Lemma history_sorted (db : store R) (username : string) :
  StronglySorted (fun a b =>
                    String.leb (h_processed_at b) (h_processed_at a) = true)
    (Sql.order_by processed_at_desc (history_of db username)).
Proof.
  apply Sorted_StronglySorted.
  - intros a b c Hab Hbc. eapply string_leb_trans; eassumption.
  - apply (order_by_sorted processed_at_desc processed_at_desc_total).
Qed.

Lemma history_query_rows (db : store R) (username : string) (lim : Z) :
  let rows := history_query db username lim in
  (forall h, In h rows -> In h (history db) /\ h_username h = username)
  /\ StronglySorted (fun a b =>
                       String.leb (h_processed_at b) (h_processed_at a) = true)
       rows
  /\ (0 <= lim -> (List.length rows <= Z.to_nat lim)%nat).
Proof.
  cbv zeta. unfold history_query. repeat apply conj.
  - intros h Hh. apply limit_In in Hh. apply history_of_In.
    apply Permutation_in
      with (l := Sql.order_by processed_at_desc (history_of db username));
      [|exact Hh].
    symmetry. apply order_by_perm.
  - apply limit_strongly_sorted, history_sorted.
  - apply limit_length.
Qed.

(** What [LIMIT ?] makes of the number bound to it. *)
Lemma must_be_int_cases (n : Js.number) :
  match Sql.must_be_int n with
  | inr z => n = Js.Num z /\ - 2 ^ 63 < z < 2 ^ 63
  | inl _ => forall z, n = Js.Num z -> z <= - 2 ^ 63 \/ 2 ^ 63 <= z
  end.
Proof.
  unfold Sql.must_be_int, Sql.kept. destruct n as [|z|b].
  - discriminate.
  - destruct (Z.ltb_spec (- 2 ^ 63) z); destruct (Z.ltb_spec z (2 ^ 63));
      cbn [andb]; try (intros z' [= <-]; lia).
    split; [reflexivity|lia].
  - discriminate.
Qed.

(** The limit in force: the parsed number, or the default in place of
    [NaN] and 0. *)
Lemma or_num_cases (n : Js.number) (d : Z) :
  (n = Js.NaN \/ n = Js.Num 0 -> Js.or_num n d = Js.Num d)
  /\ (forall k, n = Js.Num k -> k <> 0 -> Js.or_num n d = Js.Num k)
  /\ (forall b, n = Js.Infinity b -> Js.or_num n d = Js.Infinity b).
Proof.
  unfold Js.or_num. repeat split.
  - intros [-> | ->]; reflexivity.
  - intros k -> Hk. cbn. apply Z.eqb_neq in Hk. now rewrite Hk.
  - intros b ->. reflexivity.
Qed.

(** C6 (as amended).  For every username the history listing returns
    history events of that username only, ordered by processed_at
    descending.  When the limit parameter parses to a positive integer
    below 2^63 at most that many are returned; when it is not supplied,
    does not parse to a number or parses to 0, the limit is 50.  When
    it parses to a number that is not a 64-bit integer the statement
    fails and the answer is 500. *)
Theorem history_listing (db : store R) (req : request R) :
  match Js.parseInt_qs (query_limit req) with
  | None => handleGetUserHistory db req = express_error
  | Some n =>
      match Sql.must_be_int (Js.or_num n 50) with
      | inl _ => handleGetUserHistory db req = res_error 500 "DB error"
      | inr lim =>
          let rows := history_query db (params_username req) lim in
          handleGetUserHistory db req
          = ok (Obj [("history",
                      Arr (map (select_history history_cols) rows))])
          /\ (forall h, In h rows ->
                In h (history db) /\ h_username h = params_username req)
          /\ StronglySorted
               (fun a b =>
                  String.leb (h_processed_at b) (h_processed_at a) = true)
               rows
          /\ (forall k, n = Js.Num k -> 0 < k ->
                        (List.length rows <= Z.to_nat k)%nat)
          /\ (n = Js.NaN \/ n = Js.Num 0 -> (List.length rows <= 50)%nat)
      end
  end
  /\ (forall n,
        Js.parseInt_qs (query_limit req) = Some n ->
        (n = Js.NaN \/ n = Js.Num 0
         \/ exists k, n = Js.Num k /\ - 2 ^ 63 < k < 2 ^ 63) ->
        status (handleGetUserHistory db req) = 200)
  /\ (forall n,
        Js.parseInt_qs (query_limit req) = Some n ->
        ((exists k, n = Js.Num k /\ (k <= - 2 ^ 63 \/ 2 ^ 63 <= k))
         \/ exists b, n = Js.Infinity b) ->
        handleGetUserHistory db req = res_error 500 "DB error")
  /\ (query_limit req = None ->
      Js.parseInt_qs (query_limit req) = Some Js.NaN).
Proof.
  assert (Hmain :
    forall n, Js.parseInt_qs (query_limit req) = Some n ->
    match Sql.must_be_int (Js.or_num n 50) with
    | inl _ => handleGetUserHistory db req = res_error 500 "DB error"
    | inr lim =>
        handleGetUserHistory db req
        = ok (Obj [("history",
                    Arr (map (select_history history_cols)
                           (history_query db (params_username req) lim)))])
    end).
  { intros n Hn. unfold handleGetUserHistory. rewrite Hn.
    destruct (Sql.must_be_int (Js.or_num n 50)) as [err|lim];
      [reflexivity|].
    apply res_json_rows; [apply jsonify_history_row|].
    intros x. discriminate. }
  repeat apply conj.
  - destruct (Js.parseInt_qs (query_limit req)) as [n|] eqn:Hn.
    + specialize (Hmain n eq_refl).
      pose proof (must_be_int_cases (Js.or_num n 50)) as Hb.
      destruct (Sql.must_be_int (Js.or_num n 50)) as [err|lim];
        [exact Hmain|].
      destruct Hb as [Hlim Hrange]. cbv zeta.
      destruct (history_query_rows db (params_username req) lim)
        as (Hin & Hsorted & Hlen).
      repeat apply conj; try assumption.
      * intros k -> Hpos.
        rewrite (proj1 (proj2 (or_num_cases (Js.Num k) 50)) k eq_refl)
          in Hlim by lia.
        injection Hlim as <-. apply Hlen. lia.
      * intros Hn0.
        rewrite (proj1 (or_num_cases n 50) Hn0) in Hlim.
        injection Hlim as <-. exact (Hlen ltac:(lia)).
    + unfold handleGetUserHistory. now rewrite Hn.
  - intros n Hn Hcase. specialize (Hmain n Hn).
    pose proof (must_be_int_cases (Js.or_num n 50)) as Hb.
    destruct (Sql.must_be_int (Js.or_num n 50)) as [err|lim].
    + exfalso. destruct Hcase as [H0|[H0|(k & -> & Hk)]].
      * rewrite (proj1 (or_num_cases n 50) (or_introl H0)) in Hb.
        specialize (Hb 50 eq_refl). lia.
      * rewrite (proj1 (or_num_cases n 50) (or_intror H0)) in Hb.
        specialize (Hb 50 eq_refl). lia.
      * destruct (Z.eq_dec k 0) as [->|Hk0].
        -- specialize (Hb 50 eq_refl). lia.
        -- rewrite (proj1 (proj2 (or_num_cases (Js.Num k) 50)) k eq_refl
                      Hk0) in Hb.
           specialize (Hb k eq_refl). lia.
    + now rewrite Hmain.
  - intros n Hn Hcase. specialize (Hmain n Hn).
    pose proof (must_be_int_cases (Js.or_num n 50)) as Hb.
    destruct (Sql.must_be_int (Js.or_num n 50)) as [err|lim];
      [exact Hmain|].
    exfalso. destruct Hb as [Hlim Hrange].
    destruct Hcase as [(k & -> & Hk)|(b & ->)].
    + rewrite (proj1 (proj2 (or_num_cases (Js.Num k) 50)) k eq_refl)
        in Hlim by lia.
      injection Hlim as <-. lia.
    + discriminate Hlim.
  - intros ->. reflexivity.
Qed.

(** The events a non-negative LIMIT cuts off are no more recent than any
    event that is listed. *)
Lemma history_listing_keeps_the_latest (db : store R) (username : string)
    (lim : Z) (h r : history_row R) :
  0 <= lim ->
  In h (history_of db username) ->
  ~ In h (history_query db username lim) ->
  In r (history_query db username lim) ->
  String.leb (h_processed_at h) (h_processed_at r) = true.
Proof.
  intros Hlim Hh Hout Hr. unfold history_query, Sql.limit in *.
  destruct (Z.ltb_spec lim 0) as [Hneg|_]; [lia|].
  pose proof (history_sorted db username) as Hs.
  rewrite <- (firstn_skipn (Z.to_nat lim)) in Hs.
  assert (Hin : In h (Sql.order_by processed_at_desc
                        (history_of db username))).
  { apply Permutation_in with (l := history_of db username);
      [apply order_by_perm|exact Hh]. }
  rewrite <- (firstn_skipn (Z.to_nat lim)) in Hin. apply in_app_or in Hin.
  destruct Hin as [Hin | Hin]; [contradiction|].
  exact (strongly_sorted_app _ _ _ Hs r h Hr Hin).
Qed.

End HistoryListing.

(** C6, the claim as written fails: with [?limit=0] the listing of
    "aakash shetty" holds two events, and with [?limit=-1] as well; with
    [?limit=99999999999999999999] the answer is 500. *)
Lemma history_limit_not_an_upper_bound :
  Js.parseInt (Some "0") = Js.Num 0
  /\ Js.parseInt (Some "-1") = Js.Num (-1)
  /\ handleGetUserHistory Plain.seeded
       (Plain.for_user "aakash shetty" (Some "99999999999999999999"))
     = res_error 500 "DB error"
  /\ (exists rows,
        handleGetUserHistory Plain.seeded
          (Plain.for_user "aakash shetty" (Some "0"))
        = ok (Obj [("history", Arr rows)])
        /\ List.length rows = 2%nat)
  /\ (exists rows,
        handleGetUserHistory Plain.seeded
          (Plain.for_user "aakash shetty" (Some "-1"))
        = ok (Obj [("history", Arr rows)])
        /\ List.length rows = 2%nat).
Proof.
  repeat split; try reflexivity;
    eexists; split; vm_compute; reflexivity.
Qed.

(* ------------------------------------------------------------------ *)
(** ** Non-negative contributions *)

Section NonNegative.

Context {R : Type} {RO : SqlReal R} {XO : Runtime R} {BO : Bcrypt R}
        {JO : Jwt R} {EO : Engine R}.

Lemma authenticate_cases (cfg : config) (e : env) (db : store R)
    (req : request R) (next : claims R -> outcome R) :
  match verified_user cfg e req with
  | None => exists msg, authenticate cfg e db req next
                        = reply db (res_error 401 msg)
  | Some user => authenticate cfg e db req next = next user
  end.
Proof.
  unfold verified_user, authenticate, token_missing, bearer_token.
  destruct (negb (Js.truthy (headers_authorization req))
            || negb (Js.startsWith (Js.str (headers_authorization req))
                       "Bearer ")); [eauto|].
  destruct (jwt_verify _ _ _); eauto.
Qed.

Lemma insert_user_history (db db1 : store R) (ts u h : string) (id : Z) :
  insert_user db ts u h = Some (db1, id) -> history db1 = history db.
Proof.
  unfold insert_user. destruct (existsb _ _); [discriminate|].
  intros [= <- _]. reflexivity.
Qed.

(** What POST /api/history does, by what [authenticate] finds and how
    the username of the token binds. *)
Lemma post_api_history_cases (cfg : config) (e : env) (db : store R)
    (req : request R) :
  let out := post_api_history cfg e db req in
  match verified_user cfg e req with
  | None => exists msg, out = reply db (res_error 401 msg)
  | Some c =>
      if v_truthy (jwt_username c)
      then match bound_text (jwt_username c) with
           | Sql.Bound name =>
               out
               = {| resp := Some (res_json
                        (Obj [("insertedId", Int (history_seq db + 1))]));
                    store' :=
                      {| users := users db;
                         history := history db ++ [posted_row e db name req];
                         users_seq := users_seq db;
                         history_seq := history_seq db + 1 |};
                    effects := [InsertHistory name] |}
           | Sql.Throws => out = reply db express_error
           | Sql.Fails => out = reply db (res_error 500 "DB error")
           end
      else out = reply db (res_error 401 "Unauthorized")
  end.
Proof.
  cbv zeta. unfold post_api_history.
  match goal with
  | |- context [authenticate cfg e db req ?k] =>
      pose proof (authenticate_cases cfg e db req k) as H
  end.
  destruct (verified_user cfg e req) as [c|]; [|exact H].
  rewrite H. destruct (v_truthy (jwt_username c)); cbn [negb];
    [|reflexivity].
  destruct (bound_text (jwt_username c)); reflexivity.
Qed.

(** Only POST /api/history writes to the log. *)
Lemma history_unchanged (rt : route) (cfg : config) (e : env)
    (db : store R) (req : request R) :
  rt <> POST_api_history ->
  history (store' (handle rt cfg e db req)) = history db.
Proof.
  intros Hrt. destruct rt; cbn [handle reply store']; try reflexivity;
    try congruence.
  - destruct (post_api_register_cases cfg e db req)
      as [(hash & name & _ & _ & _ & _ & ->)|(-> & _)]; reflexivity.
  - now rewrite (proj1 (post_api_login_cases cfg e db req)).
  - unfold get_api_me.
    match goal with
    | |- context [authenticate cfg e db req ?k] =>
        pose proof (authenticate_cases cfg e db req k) as H
    end.
    destruct (verified_user cfg e req) as [c|];
      [rewrite H|destruct H as [msg ->]]; reflexivity.
Qed.

(** What POST /api/history leaves in the log: nothing new, or one row
    with the values of the body. *)
Lemma post_api_history_log (cfg : config) (e : env) (db : store R)
    (req : request R) :
  history (store' (post_api_history cfg e db req)) = history db
  \/ exists name,
       history (store' (post_api_history cfg e db req)) =
       (history db ++ [posted_row e db name req])%list.
Proof.
  pose proof (post_api_history_cases cfg e db req) as H. cbv zeta in H.
  destruct (verified_user cfg e req) as [c|];
    [|destruct H as [msg ->]; now left].
  destruct (v_truthy (jwt_username c)); [|rewrite H; now left].
  destruct (bound_text (jwt_username c)) as [name| |]; rewrite H;
    [right; now exists name|now left|now left].
Qed.

Lemma fold_add_nonneg (l : list Z) (a : Z) :
  0 <= a -> forallb (Z.leb 0) l = true -> 0 <= fold_left Z.add l a.
Proof.
  revert a; induction l as [|x l IH]; intros a Ha Hl; cbn [fold_left].
  - exact Ha.
  - cbn [forallb] in Hl. apply andb_true_iff in Hl. destruct Hl as [Hx Hl].
    apply IH; [|exact Hl]. apply Z.leb_le in Hx. lia.
Qed.

Lemma fold_radd_nonneg (l : list R) (a : R) :
  nonneg_closed RO ->
  rle r0 a = true -> forallb (rle r0) l = true ->
  rle r0 (fold_left radd l a) = true.
Proof.
  intros [_ Hadd]. revert a; induction l as [|x l IH]; intros a Ha Hl;
    cbn [fold_left].
  - exact Ha.
  - cbn [forallb] in Hl. apply andb_true_iff in Hl. destruct Hl as [Hx Hl].
    apply IH; [|exact Hl]. now apply Hadd.
Qed.

Lemma nonneg_events_columns (rows : list (history_row R)) :
  forallb nonneg_event rows = true ->
  forallb (Z.leb 0) (map h_eco_points_earned rows) = true
  /\ forallb (Z.leb 0) (map h_items_recycled rows) = true
  /\ forallb (rle r0) (map h_carbon_saved_kg rows) = true.
Proof.
  induction rows as [|h rows IH]; cbn [forallb map]; [auto|].
  intros H. apply andb_true_iff in H. destruct H as [Hh Hrows].
  unfold nonneg_event in Hh.
  apply andb_true_iff in Hh. destruct Hh as [Hh Hc].
  apply andb_true_iff in Hh. destruct Hh as [He Hi].
  destruct (IH Hrows) as (IH1 & IH2 & IH3).
  rewrite He, Hi, Hc, IH1, IH2, IH3. auto.
Qed.

Lemma summary_nonneg (rows : list (history_row R)) :
  nonneg_closed RO ->
  forallb nonneg_event rows = true ->
  nonneg_summary (summary_of rows) = true.
Proof.
  intros law Hrows. unfold summary_of. rewrite fold_add_event.
  destruct (nonneg_events_columns rows Hrows) as (H1 & H2 & H3).
  unfold nonneg_summary.
  cbn [eco_points items_recycled carbon_saved_kg zero_summary].
  rewrite (proj2 (Z.leb_le _ _) (fold_add_nonneg _ 0 (Z.le_refl 0) H1)).
  rewrite (proj2 (Z.leb_le _ _) (fold_add_nonneg _ 0 (Z.le_refl 0) H2)).
  rewrite (fold_radd_nonneg _ r0 law (proj1 law) H3). reflexivity.
Qed.

Lemma history_of_nonneg (db : store R) (username : string) :
  nonneg_store db = true ->
  forallb nonneg_event (history_of db username) = true.
Proof.
  unfold nonneg_store, history_of. intros H.
  apply forallb_forall. intros h Hh. apply filter_In in Hh.
  rewrite forallb_forall in H. now apply H.
Qed.

(** The nearest JS number of a non-negative whole number is not
    negative. *)
Lemma round_nonneg (z : Z) : 0 <= z -> 0 <= Js.round z.
Proof.
  intros Hz. unfold Js.round. cbv zeta.
  destruct (Z.abs z <? 2 ^ 53); [exact Hz|].
  set (ex := Z.log2 (Z.abs z) - 52).
  assert (Hp : 0 <= 2 ^ ex) by (apply Z.pow_nonneg; lia).
  assert (Hq : 0 <= Z.abs z / 2 ^ ex).
  { destruct (Z.eq_dec (2 ^ ex) 0) as [E|E].
    - rewrite E, Z.div_0_r. lia.
    - apply Z.div_pos; lia. }
  apply Z.mul_nonneg_nonneg; [lia|].
  apply Z.mul_nonneg_nonneg; [|exact Hp].
  destruct (_ <? _); [exact Hq|].
  destruct (_ <? _); [lia|]. destruct (Z.even _); lia.
Qed.

(** The rows of the leaderboard are sums of groups. *)
Lemma leaderboard_rows_are_sums (db : store R) (rows : list (leader R)) :
  ranks EO ->
  leaderboard_query db = inr rows ->
  forall l, In l rows ->
    In (l_username l) (map h_username (history db))
    /\ leader_of db (l_username l) = inr l.
Proof.
  intros law. unfold leaderboard_query.
  destruct (leaderboard_groups db) as [err|groups] eqn:G; [discriminate|].
  intros [= <-] l Hl. apply limit_In in Hl.
  apply (Permutation_in _ (proj1 (law groups))) in Hl.
  exact (groups_are_sums db groups G l Hl).
Qed.

Lemma leader_of_carbon (db : store R) (u : string) (l : leader R) :
  leader_of db u = inr l ->
  l_carbon_saved_kg l = carbon_saved_kg (summary_of (history_of db u)).
Proof.
  unfold leader_of.
  destruct (sum_int (map h_eco_points_earned (history_of db u)));
    [discriminate|].
  destruct (sum_int (map h_items_recycled (history_of db u)));
    [discriminate|].
  intros [= <-]. cbn [l_carbon_saved_kg].
  rewrite coalesce_sum_real. unfold summary_of. rewrite fold_add_event.
  reflexivity.
Qed.


End NonNegative.



(* ------------------------------------------------------------------ *)
(** ** Registration input *)

Section Register.

Context {R : Type} {RO : SqlReal R} {XO : Runtime R} {BO : Bcrypt R}
        {JO : Jwt R} {EO : Engine R}.

(** The guard of POST /api/register on two strings. *)
Lemma register_rejects_strings (u p : string) :
  register_rejects (Str u) (Str p)
  = Some ((String.length u <? 3)%nat || (String.length p <? 6)%nat).
Proof.
  unfold register_rejects. cbn [v_truthy v_length v_lt].
  destruct u as [|a u]; [reflexivity|].
  destruct p as [|b p]; cbn [String.eqb negb].
  - now rewrite orb_true_r.
  - replace (Z.of_nat (String.length (String a u)) <? 3)
      with (String.length (String a u) <? 3)%nat.
    2:{ destruct (Nat.ltb_spec (String.length (String a u)) 3);
        symmetry; [apply Z.ltb_lt|apply Z.ltb_ge]; lia. }
    replace (Z.of_nat (String.length (String b p)) <? 6)
      with (String.length (String b p) <? 6)%nat.
    2:{ destruct (Nat.ltb_spec (String.length (String b p)) 6);
        symmetry; [apply Z.ltb_lt|apply Z.ltb_ge]; lia. }
    destruct (String.length (String a u) <? 3)%nat; reflexivity.
Qed.

(** The guard lets a number through as a username: a number has no
    [length], and [undefined < 3] is false. *)
Lemma register_rejects_number (n : Z) (p : string) :
  n <> 0 -> (6 <= String.length p)%nat ->
  register_rejects (Int n) (Str p) = Some false.
Proof.
  intros Hn Hp. unfold register_rejects. cbn [v_truthy v_length v_lt].
  rewrite (proj2 (Z.eqb_neq n 0) Hn). cbn [negb].
  destruct p as [|a p]; [cbn in Hp; lia|]. cbn [String.eqb negb].
  f_equal. apply Z.ltb_ge. lia.
Qed.

(** X23.  What the guard of POST /api/register decides.  The request
    is answered 400 exactly when the guard
    [!username || !password || username.length < 3 || password.length < 6]
    holds; a request so rejected has performed no side effect, neither
    the hashing of the password nor an insertion, and leaves the store
    as it was.  A missing (or otherwise falsy) field is rejected; for a
    username and a password that are strings the guard holds exactly
    when the username has fewer than 3 or the password fewer than 6 code
    units. *)
Theorem register_input_check (cfg : config) (e : env) (db : store R)
    (req : request R) :
  let out := post_api_register cfg e db req in
  (status_of out = Some 400
   <-> register_rejects (body_username req) (body_password req) = Some true)
  /\ (status_of out = Some 400 ->
      out = reply db
              (res_error 400
                 "Username must be 3+ chars and password 6+ chars.")
      /\ store' out = db
      /\ effects out = [])
  /\ (v_truthy (body_username req) = false
      \/ v_truthy (body_password req) = false ->
      status_of out = Some 400)
  /\ (forall u p,
        body_username req = Str u -> body_password req = Str p ->
        (status_of out = Some 400
         <-> (String.length u < 3)%nat \/ (String.length p < 6)%nat)).
Proof.
  cbv zeta.
  assert (Hiff : status_of (post_api_register cfg e db req) = Some 400
                 <-> register_rejects (body_username req)
                       (body_password req) = Some true).
  { unfold post_api_register, status_of.
    destruct (register_rejects (body_username req) (body_password req))
      as [[|]|]; cbn [reply resp option_map res_error status].
    - split; reflexivity.
    - destruct (bcrypt_hash _ _ _);
        [|cbn; split; discriminate].
      destruct (arg_text _); [|cbn; split; discriminate..].
      destruct (insert_user _ _ _ _) as [[db1 id]|];
        cbn; split; discriminate.
    - split; discriminate. }
  split; [exact Hiff|]. split; [|split].
  - intros H. apply Hiff in H. unfold post_api_register. rewrite H.
    repeat split.
  - intros H. apply Hiff. unfold register_rejects.
    destruct H as [-> | H]; [reflexivity|].
    rewrite H. cbn [negb]. destruct (negb _); reflexivity.
  - intros u p Hu Hp. rewrite Hiff, Hu, Hp, register_rejects_strings.
    split.
    + intros [= H]. apply orb_true_iff in H.
      destruct H as [H|H]; apply Nat.ltb_lt in H; tauto.
    + intros [H|H]; apply Nat.ltb_lt in H; rewrite H;
        [reflexivity|now rewrite orb_true_r].
Qed.

(** Whatever the libraries do, the guard does not answer 400 to the
    username 12. *)
Lemma register_number_is_not_rejected (cfg : config) (e : env)
    (db : store R) (req : request R) :
  body_username req = Int 12 -> body_password req = Str "secret1" ->
  status_of (post_api_register cfg e db req) <> Some 400.
Proof.
  intros Hu Hp H.
  unfold post_api_register, status_of in H. rewrite Hu, Hp in H.
  rewrite (register_rejects_number 12 "secret1") in H by (cbn; lia).
  destruct (bcrypt_hash _ _ _); [|discriminate H].
  destruct (arg_text _); [|discriminate H..].
  destruct (insert_user _ _ _ _) as [[db1 id]|]; discriminate H.
Qed.

End Register.

(** C8, at the failing input: the body [{ username: 12, password:
    'secret1' }] is not answered 400.  The number 12 is not a string of
    3 or more characters, yet the guard lets it pass (a number has no
    [length]); the password is hashed and a row is inserted under the
    two-character username 12. *)
Lemma register_with_a_number_for_a_username :
  let req := Plain.fields (Int 12) (Str "secret1") in
  let out := handle POST_api_register Plain.cfg
               (Plain.at_ms 5000 "2024-01-01 00:00:00") empty_store req in
  ~ string_of_length 3 (body_username req)
  /\ status_of out = Some 200
  /\ users (store' out)
     = [{| u_id := 1; u_username := "12";
           u_password_hash := "salt$secret1";
           u_created_at := "2024-01-01 00:00:00" |}]
  /\ effects out = [BcryptHash (Str "secret1");
                    InsertUser "12" "salt$secret1"]
  /\ (String.length "12" < 3)%nat.
Proof.
  cbv zeta. split.
  - intros (s & Hs & _). discriminate Hs.
  - repeat split; vm_compute; reflexivity.
Qed.

(* ------------------------------------------------------------------ *)
(** ** Admin gate *)

Section AdminGate.

Context {R : Type} {RO : SqlReal R} {XO : Runtime R} {BO : Bcrypt R}
        {JO : Jwt R} {EO : Engine R}.

Lemma ADMIN_SECRET_nonempty (cfg : config) : ADMIN_SECRET cfg <> "".
Proof.
  unfold ADMIN_SECRET, Js.or, Js.truthy.
  destruct (env_ADMIN_SECRET cfg) as [s|]; [|discriminate].
  destruct (String.eqb_spec s ""); cbn; [discriminate|assumption].
Qed.

Lemma adminAuth_rejects (cfg : config) (req : request R)
    (next : response R) :
  presented_secret req <> Some (Js.QStr (ADMIN_SECRET cfg)) ->
  adminAuth cfg req next = res_error 401 "Admin auth required".
Proof.
  unfold adminAuth, is_secret. intros H.
  destruct (presented_secret req) as [[s|l|l]|]; cbn [negb];
    try (rewrite orb_true_r; reflexivity); try reflexivity.
  destruct (String.eqb_spec s (ADMIN_SECRET cfg)) as [->|];
    [congruence|]. cbn [negb]. now rewrite orb_true_r.
Qed.

Lemma adminAuth_admits (cfg : config) (req : request R)
    (next : response R) :
  presented_secret req = Some (Js.QStr (ADMIN_SECRET cfg)) ->
  adminAuth cfg req next = next.
Proof.
  unfold adminAuth, is_secret. intros ->. cbn [Js.qs_truthy].
  rewrite String.eqb_refl.
  pose proof (ADMIN_SECRET_nonempty cfg) as Hne.
  apply String.eqb_neq in Hne. rewrite Hne. reflexivity.
Qed.

Lemma admin_handlers_never_401 (rt : route) (cfg : config) (e : env)
    (db : store R) (req : request R) :
  rt = GET_admin_users \/ rt = GET_admin_user
  \/ rt = GET_admin_export_users_csv ->
  presented_secret req = Some (Js.QStr (ADMIN_SECRET cfg)) ->
  exists r, resp (handle rt cfg e db req) = Some r /\ status r <> 401.
Proof.
  intros [-> | [-> | ->]] Hs; cbn [handle reply resp]; eexists;
    (split; [reflexivity|]).
  - unfold get_admin_users. rewrite (adminAuth_admits _ _ _ Hs).
    destruct (Js.parseInt_qs (query_limit req)); [|discriminate].
    destruct (Js.parseInt_qs (query_offset req)); [|discriminate].
    destruct (search_term (query_search req)); [|discriminate].
    destruct (Sql.must_be_int _); [discriminate|].
    destruct (Sql.must_be_int _); discriminate.
  - unfold get_admin_user. rewrite (adminAuth_admits _ _ _ Hs).
    destruct (negb _); [discriminate|].
    destruct (match Js.parseInt (Some (params_id req)) with
              | Js.Num z => user_by_id db z
              | _ => None
              end); discriminate.
  - unfold get_admin_export_users_csv.
    rewrite (adminAuth_admits _ _ _ Hs). discriminate.
Qed.

(** C9.  Each admin route answers 401 "Admin auth required" unless the
    presented secret, the x-admin-secret header or else the admin_secret
    query parameter, is the configured admin secret, and does not
    answer 401 when it is.  The Authorization header plays no part: a
    request that presents no admin secret is refused whatever session
    token it carries. *)
Theorem admin_routes_need_the_admin_secret (rt : route) (cfg : config)
    (e : env) (db : store R) (req : request R) :
  rt = GET_admin_users \/ rt = GET_admin_user
  \/ rt = GET_admin_export_users_csv ->
  (presented_secret req <> Some (Js.QStr (ADMIN_SECRET cfg)) ->
   resp (handle rt cfg e db req)
   = Some (res_error 401 "Admin auth required"))
  /\ (presented_secret req = Some (Js.QStr (ADMIN_SECRET cfg)) ->
      exists r, resp (handle rt cfg e db req) = Some r /\ status r <> 401)
  /\ (forall a : option string,
        resp (handle rt cfg e db (with_authorization a req))
        = resp (handle rt cfg e db req))
  /\ (headers_x_admin_secret req = None ->
      query_admin_secret req = None ->
      forall a : option string,
        resp (handle rt cfg e db (with_authorization a req))
        = Some (res_error 401 "Admin auth required")).
Proof.
  intros Hrt.
  assert (Hreject :
    presented_secret req <> Some (Js.QStr (ADMIN_SECRET cfg)) ->
    resp (handle rt cfg e db req)
    = Some (res_error 401 "Admin auth required")).
  { destruct Hrt as [-> | [-> | ->]]; intros Hs; cbn [handle reply resp];
      f_equal; apply adminAuth_rejects, Hs. }
  assert (Hindep : forall a : option string,
    resp (handle rt cfg e db (with_authorization a req))
    = resp (handle rt cfg e db req)).
  { destruct Hrt as [-> | [-> | ->]]; intros a; reflexivity. }
  repeat apply conj.
  - exact Hreject.
  - now apply admin_handlers_never_401.
  - exact Hindep.
  - intros Hh Hq a. rewrite Hindep. apply Hreject.
    unfold presented_secret. rewrite Hh, Hq. discriminate.
Qed.

End AdminGate.

Lemma admin_routes_need_the_admin_secret_witness :
  resp (handle GET_admin_users Plain.cfg Plain.before_expiry
          Plain.with_alice (Plain.bearer Plain.alice_token))
  = Some (res_error 401 "Admin auth required").
Proof.
  apply (proj1 (admin_routes_need_the_admin_secret GET_admin_users
                  Plain.cfg Plain.before_expiry Plain.with_alice
                  (Plain.bearer Plain.alice_token) (or_introl eq_refl))).
  vm_compute. discriminate.
Defined.

(* ------------------------------------------------------------------ *)
(** ** Password material *)

Section Commute.

Context {A : Type} (g : A -> A).

Lemma find_map (p : A -> bool) (l : list A) :
  (forall x, p (g x) = p x) ->
  find p (map g l) = option_map g (find p l).
Proof.
  intros Hp. induction l as [|x l IH]; cbn [map find]; [reflexivity|].
  rewrite Hp. destruct (p x); [reflexivity|exact IH].
Qed.

Lemma filter_map (p : A -> bool) (l : list A) :
  (forall x, p (g x) = p x) ->
  filter p (map g l) = map g (filter p l).
Proof.
  intros Hp. induction l as [|x l IH]; cbn [map filter]; [reflexivity|].
  rewrite Hp, IH. destruct (p x); reflexivity.
Qed.

Lemma insert_row_map (before : A -> A -> bool) (x : A) (l : list A) :
  (forall a b, before (g a) (g b) = before a b) ->
  Sql.insert_row before (g x) (map g l)
  = map g (Sql.insert_row before x l).
Proof.
  intros Hb. induction l as [|y l IH]; cbn [map Sql.insert_row];
    [reflexivity|].
  rewrite Hb, IH. destruct (before x y); reflexivity.
Qed.

Lemma order_by_map (before : A -> A -> bool) (l : list A) :
  (forall a b, before (g a) (g b) = before a b) ->
  Sql.order_by before (map g l) = map g (Sql.order_by before l).
Proof.
  intros Hb. induction l as [|x l IH]; cbn [map Sql.order_by fold_right];
    [reflexivity|].
  fold (Sql.order_by before (map g l)). fold (Sql.order_by before l).
  rewrite IH. now apply insert_row_map.
Qed.

Lemma offset_map (n : Z) (l : list A) :
  Sql.offset n (map g l) = map g (Sql.offset n l).
Proof. unfold Sql.offset. apply skipn_map. Qed.

End Commute.

Section Passwords.

Context {R : Type} {RO : SqlReal R} {XO : Runtime R} {BO : Bcrypt R}
        {JO : Jwt R} {EO : Engine R}.

Lemma no_key_rows {A} (k : string) (f : A -> value R) (l : list A) :
  (forall x, has_key k (f x) = false) ->
  existsb (has_key k) (map f l) = false.
Proof.
  intros Hf. induction l as [|x l IH]; cbn [map existsb]; [reflexivity|].
  now rewrite Hf, IH.
Qed.

Lemma no_key_error (k : string) (code : Z) (msg : string) :
  password_key k ->
  payload_has_key k (body (res_error (R:=R) code msg)) = false.
Proof. intros [-> | ->]; reflexivity. Qed.

(** JSON adds no property to a response. *)
Lemma no_key_res_json (k : string) (v : value R) :
  has_key k v = false -> payload_has_key k (body (res_json v)) = false.
Proof.
  intros Hv. cbn [res_json body payload_has_key].
  destruct (has_key k (jsonify v)) eqn:E; [|reflexivity].
  apply has_key_jsonify in E. congruence.
Qed.

Lemma key_of_res_json (k : string) (v : value R) :
  payload_has_key k (body (res_json v)) = true -> has_key k v = true.
Proof. cbn [res_json body payload_has_key]. apply has_key_jsonify. Qed.

(** A property named like password material is in the answer to a
    registration only inside the username the request sent. *)
Lemma key_of_register (k : string) (cfg : config) (e : env)
    (db : store R) (req : request R) :
  password_key k ->
  response_has_key k (resp (post_api_register cfg e db req)) = true ->
  has_key k (body_username req) = true.
Proof.
  intros Hk.
  destruct (post_api_register_cases cfg e db req)
    as [(hash & name & _ & _ & _ & _ & ->)|(_ & code & msg & -> & _)];
    cbn [resp response_has_key].
  - intros H. apply key_of_res_json in H. revert H.
    destruct Hk as [-> | ->]; cbn; now rewrite !orb_false_r.
  - now rewrite no_key_error.
Qed.

Lemma no_key_login (k : string) (cfg : config) (e : env)
    (db : store R) (req : request R) :
  password_key k ->
  response_has_key k (resp (post_api_login cfg e db req)) = false.
Proof.
  intros Hk.
  destruct (post_api_login_cases cfg e db req)
    as (_ & [(u & _ & _ & _ & _ & ->)
            |[->|[->|(code & msg & -> & _)]]]);
    cbn [response_has_key]; try reflexivity.
  - apply no_key_res_json. destruct Hk as [-> | ->]; reflexivity.
  - now apply no_key_error.
Qed.

(** The same for GET /api/me and the username in the token. *)
Lemma key_of_me (k : string) (cfg : config) (e : env)
    (db : store R) (req : request R) :
  password_key k ->
  response_has_key k (resp (get_api_me cfg e db req)) = true ->
  exists c, verified_user cfg e req = Some c
            /\ has_key k (jwt_username c) = true.
Proof.
  intros Hk. unfold get_api_me.
  match goal with
  | |- context [authenticate cfg e db req ?next] =>
      pose proof (authenticate_cases cfg e db req next) as H
  end.
  destruct (verified_user cfg e req) as [c|].
  - rewrite H. cbn [reply resp response_has_key]. intros Hc.
    apply key_of_res_json in Hc. exists c. split; [reflexivity|].
    revert Hc. destruct Hk as [-> | ->]; cbn; now rewrite !orb_false_r.
  - destruct H as [msg ->]. cbn [reply resp response_has_key].
    now rewrite no_key_error.
Qed.

Lemma getUserAggregates_shape (db : store R) (username : string)
    (agg : value R) :
  getUserAggregates db username = inr agg ->
  exists a b c,
    agg = Obj [("eco_points", num_value a);
               ("items_recycled", num_value b);
               ("carbon_saved_kg", Real c)].
Proof.
  unfold getUserAggregates, aggregate_row, sum_columns.
  destruct (sum_int (map h_eco_points_earned (history_of db username)));
    [discriminate|].
  destruct (sum_int (map h_items_recycled (history_of db username)));
    [discriminate|].
  intros [= <-]. eexists _, _, _. reflexivity.
Qed.

Lemma no_key_profile (k : string) (db : store R) (req : request R) :
  password_key k ->
  payload_has_key k (body (handleGetUserProfile db req)) = false.
Proof.
  intros Hk. unfold handleGetUserProfile.
  destruct (negb _); [now apply no_key_error|].
  destruct (user_by_username _ _) as [u|]; cbn [option_map];
    [|now apply no_key_error].
  destruct (getUserAggregates db (params_username req)) as [err|agg] eqn:E;
    [now apply no_key_error|].
  destruct (getUserAggregates_shape _ _ _ E) as (a & b & c & ->).
  apply no_key_res_json.
  cbn [get_field find fst snd String.eqb Ascii.eqb Bool.eqb].
  unfold v_or.
  destruct a, b; cbn [num_value v_truthy];
    repeat match goal with
           | |- context [if ?c then _ else _] => destruct c
           end;
    destruct Hk as [-> | ->]; reflexivity.
Qed.

Lemma no_key_history (k : string) (db : store R) (req : request R) :
  password_key k ->
  payload_has_key k (body (handleGetUserHistory db req)) = false.
Proof.
  intros Hk. unfold handleGetUserHistory.
  destruct (Js.parseInt_qs (query_limit req)); [|reflexivity].
  destruct (Sql.must_be_int _); [now apply no_key_error|].
  apply no_key_res_json. cbn [v_or v_truthy has_key].
  rewrite no_key_rows; [destruct Hk as [-> | ->]; reflexivity|].
  intros h. destruct Hk as [-> | ->]; reflexivity.
Qed.

Lemma no_key_leaderboard (k : string) (db : store R) (req : request R) :
  password_key k ->
  payload_has_key k (body (handleLeaderboard db req)) = false.
Proof.
  intros Hk. unfold handleLeaderboard.
  destruct (leaderboard_query db); [now apply no_key_error|].
  apply no_key_res_json. cbn [v_or v_truthy has_key].
  rewrite no_key_rows; [destruct Hk as [-> | ->]; reflexivity|].
  intros h. unfold leader_obj.
  destruct (l_eco_points h), (l_items_recycled h);
    destruct Hk as [-> | ->]; reflexivity.
Qed.

Lemma no_key_adminAuth (k : string) (cfg : config) (req : request R)
    (next : response R) :
  password_key k ->
  payload_has_key k (body next) = false ->
  payload_has_key k (body (adminAuth cfg req next)) = false.
Proof.
  intros Hk Hnext. unfold adminAuth.
  destruct (_ || _); [now apply no_key_error|exact Hnext].
Qed.

Lemma no_key_admin_users (k : string) (cfg : config) (db : store R)
    (req : request R) :
  password_key k ->
  payload_has_key k (body (get_admin_users cfg db req)) = false.
Proof.
  intros Hk. unfold get_admin_users. apply no_key_adminAuth; [exact Hk|].
  destruct (Js.parseInt_qs (query_limit req)); [|reflexivity].
  destruct (Js.parseInt_qs (query_offset req)); [|reflexivity].
  destruct (search_term (query_search req)); [|reflexivity].
  destruct (Sql.must_be_int _); [now apply no_key_error|].
  destruct (Sql.must_be_int _); [now apply no_key_error|].
  apply no_key_res_json. cbn [v_or v_truthy has_key].
  rewrite no_key_rows; [destruct Hk as [-> | ->]; reflexivity|].
  intros h. destruct Hk as [-> | ->]; reflexivity.
Qed.

Lemma no_key_admin_user (k : string) (cfg : config) (db : store R)
    (req : request R) :
  password_key k ->
  payload_has_key k (body (get_admin_user cfg db req)) = false.
Proof.
  intros Hk. unfold get_admin_user. apply no_key_adminAuth; [exact Hk|].
  destruct (negb _); [now apply no_key_error|].
  destruct (match Js.parseInt (Some (params_id req)) with
            | Js.Num z => user_by_id db z
            | _ => None
            end) as [u|]; [|now apply no_key_error].
  apply no_key_res_json. cbn [v_or v_truthy].
  rewrite !has_key_Obj_cons.
  replace (has_key k (Arr (map (select_history history_cols)
             (history_query db
                (str_of (get_field "username"
                   (select_user ["id"; "username"; "created_at"] u)))
                500)))) with false.
  - destruct Hk as [-> | ->]; reflexivity.
  - symmetry. cbn [has_key]. apply no_key_rows.
    intros h. destruct Hk as [-> | ->]; reflexivity.
Qed.

Lemma no_key_history_post (k : string) (cfg : config) (e : env)
    (db : store R) (req : request R) :
  password_key k ->
  response_has_key k (resp (post_api_history cfg e db req)) = false.
Proof.
  intros Hk.
  pose proof (post_api_history_cases cfg e db req) as H. cbv zeta in H.
  destruct (verified_user cfg e req) as [c|].
  - destruct (v_truthy (jwt_username c)).
    + destruct (bound_text (jwt_username c)); rewrite H;
        cbn [reply resp response_has_key];
        [|reflexivity|now apply no_key_error].
      apply no_key_res_json. destruct Hk as [-> | ->]; reflexivity.
    + rewrite H. cbn [reply resp response_has_key]. now apply no_key_error.
  - destruct H as [msg ->]. cbn [reply resp response_has_key].
    now apply no_key_error.
Qed.

(** A property named password_hash or password is in a response only
    inside a username that the request itself carried, in its body or in
    its token. *)
Lemma password_key_is_echoed (k : string) (rt : route) (cfg : config)
    (e : env) (db : store R) (req : request R) :
  password_key k ->
  response_has_key k (resp (handle rt cfg e db req)) = true ->
  (rt = POST_api_register /\ has_key k (body_username req) = true)
  \/ (rt = GET_api_me
      /\ exists c, verified_user cfg e req = Some c
                   /\ has_key k (jwt_username c) = true).
Proof.
  intros Hk. destruct rt; cbn [handle reply resp response_has_key].
  - intros H. left. split; [reflexivity|].
    now apply (key_of_register k cfg e db req).
  - now rewrite no_key_login.
  - intros H. right. split; [reflexivity|].
    now apply (key_of_me k cfg e db req).
  - now rewrite no_key_profile.
  - now rewrite no_key_profile.
  - now rewrite no_key_history.
  - now rewrite no_key_history.
  - now rewrite no_key_leaderboard.
  - now rewrite no_key_leaderboard.
  - now rewrite no_key_admin_users.
  - now rewrite no_key_admin_user.
  - unfold get_admin_export_users_csv.
    rewrite no_key_adminAuth; [discriminate|exact Hk|reflexivity].
  - now rewrite no_key_history_post.
Qed.

End Passwords.

Section Scrubbed.

Context {R : Type} {RO : SqlReal R} {XO : Runtime R} {BO : Bcrypt R}
        {JO : Jwt R} {EO : Engine R}.

Lemma user_by_username_scrub (db : store R) (username : string) :
  user_by_username (scrub db) username
  = option_map blank_hash (user_by_username db username).
Proof.
  unfold user_by_username, scrub. cbn [users].
  apply find_map. reflexivity.
Qed.

Lemma user_by_id_scrub (db : store R) (id : Z) :
  user_by_id (scrub db) id = option_map blank_hash (user_by_id db id).
Proof.
  unfold user_by_id, scrub. cbn [users]. apply find_map. reflexivity.
Qed.

Lemma authenticate_resp (cfg : config) (e : env) (db1 db2 : store R)
    (req : request R) (next1 next2 : claims R -> outcome R) :
  (forall user, resp (next1 user) = resp (next2 user)) ->
  resp (authenticate cfg e db1 req next1)
  = resp (authenticate cfg e db2 req next2).
Proof.
  intros Hnext. unfold authenticate.
  destruct (_ || _); [reflexivity|].
  destruct (jwt_verify _ _ _); [reflexivity|apply Hnext].
Qed.

Lemma profile_scrub (db : store R) (req : request R) :
  handleGetUserProfile (scrub db) req = handleGetUserProfile db req.
Proof.
  unfold handleGetUserProfile.
  destruct (negb _); [reflexivity|].
  rewrite user_by_username_scrub.
  destruct (user_by_username db _) as [u|]; reflexivity.
Qed.

Lemma admin_users_scrub (cfg : config) (db : store R) (req : request R) :
  get_admin_users cfg (scrub db) req = get_admin_users cfg db req.
Proof.
  unfold get_admin_users. f_equal.
  destruct (Js.parseInt_qs (query_limit req)); [|reflexivity].
  destruct (Js.parseInt_qs (query_offset req)); [|reflexivity].
  destruct (search_term (query_search req)) as [search|]; [|reflexivity].
  cbv zeta.
  destruct (Sql.must_be_int _) as [err|lim]; [reflexivity|].
  destruct (Sql.must_be_int _) as [err|off]; [reflexivity|].
  unfold scrub. cbn [users].
  assert (Hrows : forall l : list user_row,
    map (select_user (R:=R) ["id"; "username"; "created_at"])
      (Sql.limit lim
         (Sql.offset off
            (Sql.order_by (fun a b => u_id b <=? u_id a)
               (map blank_hash l))))
    = map (select_user ["id"; "username"; "created_at"])
        (Sql.limit lim
           (Sql.offset off
              (Sql.order_by (fun a b => u_id b <=? u_id a) l)))).
  { intros l. rewrite order_by_map by reflexivity.
    rewrite offset_map, <- limit_map, map_map. reflexivity. }
  destruct (Js.truthy _).
  - rewrite filter_map by reflexivity. now rewrite Hrows.
  - now rewrite Hrows.
Qed.

Lemma admin_user_scrub (cfg : config) (db : store R) (req : request R) :
  get_admin_user cfg (scrub db) req = get_admin_user cfg db req.
Proof.
  unfold get_admin_user. f_equal.
  destruct (negb _); [reflexivity|].
  destruct (Js.parseInt (Some (params_id req))) as [|z|]; try reflexivity.
  rewrite user_by_id_scrub.
  destruct (user_by_id db _) as [u|]; reflexivity.
Qed.

Lemma csv_scrub (cfg : config) (db : store R) (req : request R) :
  get_admin_export_users_csv cfg (scrub db) req
  = get_admin_export_users_csv cfg db req.
Proof.
  unfold get_admin_export_users_csv. f_equal. cbv zeta.
  unfold scrub. cbn [users].
  rewrite order_by_map by reflexivity. rewrite map_map. reflexivity.
Qed.

(** Every route but registration and login answers the same on the
    store with the password hashes blanked. *)
Lemma response_ignores_hashes (rt : route) (cfg : config) (e : env)
    (db : store R) (req : request R) :
  rt <> POST_api_register -> rt <> POST_api_login ->
  resp (handle rt cfg e (scrub db) req) = resp (handle rt cfg e db req).
Proof.
  intros Hreg Hlog. destruct rt; cbn [handle reply resp]; try congruence;
    try reflexivity.
  - unfold get_api_me. apply authenticate_resp. reflexivity.
  - f_equal. apply profile_scrub.
  - f_equal. apply profile_scrub.
  - f_equal. apply admin_users_scrub.
  - f_equal. apply admin_user_scrub.
  - f_equal. apply csv_scrub.
  - unfold post_api_history. apply authenticate_resp. intros user.
    destruct (negb _); [reflexivity|].
    destruct (bound_text _); reflexivity.
Qed.

(** What a successful login sends: a function of the row's id, username
    and created_at, the signing secret and the clock. *)
Lemma login_success (cfg : config) (e : env) (db : store R)
    (req : request R) :
  status_of (post_api_login cfg e db req) = Some 200 ->
  exists name u,
    bound_text (body_username req) = Sql.Bound name
    /\ user_by_username db name = Some u
    /\ resp (post_api_login cfg e db req)
       = Some (ok (Obj [("message", Str "Logged in");
                        ("token",
                         Str (jwt_sign (u_id u) (Str (u_username u))
                                (JWT_SECRET cfg) (now e)));
                        ("user",
                         Obj [("id", Int (u_id u));
                              ("username", Str (u_username u));
                              ("created_at", Str (u_created_at u))])])).
Proof.
  unfold status_of.
  destruct (post_api_login_cases cfg e db req)
    as (_ & [(u & _ & _ & (name & Hb & Hu) & _ & ->)
            |[->|[->|(code & msg & -> & Hc)]]]); cbn.
  - intros _. exists name, u. repeat split; assumption.
  - discriminate.
  - discriminate.
  - intros [= H]. lia.
Qed.

(** What a successful registration sends: a function of the new id, the
    username of the request, the signing secret and the clock. *)
Lemma register_success (cfg : config) (e : env) (db : store R)
    (req : request R) :
  status_of (post_api_register cfg e db req) = Some 200 ->
  resp (post_api_register cfg e db req)
  = Some (res_json
            (Obj [("message", Str "Registered");
                  ("token", Str (jwt_sign (users_seq db + 1)
                                   (body_username req)
                                   (JWT_SECRET cfg) (now e)));
                  ("user",
                   Obj [("id", Int (users_seq db + 1));
                        ("username", body_username req)])])).
Proof.
  unfold status_of.
  destruct (post_api_register_cases cfg e db req)
    as [(hash & name & _ & _ & _ & _ & ->)|(_ & code & msg & -> & Hc)].
  - intros _. cbn [resp]. unfold res_json, safeUser.
    cbn -[jwt_sign]. destruct (jsonify (body_username req)); reflexivity.
  - cbn. intros [= H]. lia.
Qed.


End Scrubbed.



(* ------------------------------------------------------------------ *)
(** ** The example runs of the specification *)

Section Examples.

Import Plain.

(** Registering "alice" with "secret1" answers 200 with a token, and the
    token opens GET /api/me. *)
Example register_alice :
  status_of alice_registers = Some 200
  /\ token_of (resp alice_registers) = Some alice_token
  /\ resp (get_api_me cfg before_expiry with_alice (bearer alice_token))
     = Some (ok (Obj [("user", Obj [("id", Int 1);
                                    ("username", Str "alice")])])).
Proof. repeat split; vm_compute; reflexivity. Qed.

(** After alice's event, GET /user/alice shows its contributions. *)
Example profile_after_one_event :
  resp alice_posts = Some (ok (Obj [("insertedId", Int 1)]))
  /\ handleGetUserProfile (store' alice_posts) (for_user "alice" None)
     = ok (Obj [("id", Int 1); ("username", Str "alice");
                ("created_at", Str "2024-01-01 00:00:00");
                ("eco_points", Int 10); ("items_recycled", Int 1);
                ("carbon_saved_kg", Real 5)]).
Proof. split; vm_compute; reflexivity. Qed.

(** Posting an event whose contributions are all zero leaves the summary
    as it was. *)
Example zero_event_keeps_summary :
  let db := store' (handle POST_api_history cfg before_expiry
                      (store' alice_posts)
                      (post_event alice_token "nothing.jpg" 0 0 0)) in
  List.length (history db) = 2%nat
  /\ getUserAggregates db "alice"
     = getUserAggregates (store' alice_posts) "alice".
Proof. split; vm_compute; reflexivity. Qed.

(** Two events of 2^62 points each: their sum does not fit the 64-bit
    integers, so the profile and the leaderboard answer 500. *)
Example sum_overflow_is_an_error :
  let big := 4611686018427387904 in
  let db := {| users := [alice];
               history := [event 1 "alice" "a.jpg" "2024-01-02" big 1 0;
                           event 2 "alice" "b.jpg" "2024-01-03" big 1 0];
               users_seq := 1; history_seq := 2 |} in
  handleGetUserProfile db (for_user "alice" None) = res_error 500 "DB error"
  /\ handleLeaderboard db blank = res_error 500 "DB error".
Proof. split; vm_compute; reflexivity. Qed.

(** Logging in with the registered password answers 200; the hash does
    not travel. *)
Example login_alice :
  resp (post_api_login cfg before_expiry with_alice
          (credentials "alice" "secret1"))
  = Some (ok (Obj [("message", Str "Logged in");
                   ("token",
                    Str (jwt_sign 1 (Str "alice") (JWT_SECRET cfg)
                           604804999));
                   ("user", Obj [("id", Int 1); ("username", Str "alice");
                                 ("created_at",
                                  Str "2024-01-01 00:00:00")])])).
Proof. vm_compute. reflexivity. Qed.

(** A second registration of "alice" is a conflict and leaves the store. *)
Example register_alice_twice :
  let out := post_api_register cfg before_expiry with_alice
               (credentials "alice" "another1") in
  resp out = Some (res_error 409 "Username already exists.")
  /\ store' out = with_alice.
Proof. split; vm_compute; reflexivity. Qed.

(** GET /admin/users without the secret is refused; with it, in the header
    or in the query string, the listing comes back and honours [search]. *)
Example admin_users_listing :
  get_admin_users cfg with_alice (admin_request None None None)
  = res_error 401 "Admin auth required"
  /\ get_admin_users cfg with_alice (admin_request (Some "s3cret") None None)
     = ok (Obj [("users",
                 Arr [Obj [("id", Int 1); ("username", Str "alice");
                           ("created_at", Str "2024-01-01 00:00:00")]])])
  /\ get_admin_users cfg with_alice
       (admin_request None (Some "s3cret") (Some " LIC "))
     = ok (Obj [("users",
                 Arr [Obj [("id", Int 1); ("username", Str "alice");
                           ("created_at", Str "2024-01-01 00:00:00")]])])
  /\ get_admin_users cfg with_alice
       (admin_request (Some "s3cret") None (Some "bob"))
     = ok (Obj [("users", Arr [])]).
Proof. repeat split; vm_compute; reflexivity. Qed.

(** The export of a user named a, double quote, b doubles the quote. *)
Example csv_export_escapes_quotes :
  body (get_admin_export_users_csv cfg quoted
          (admin_request (Some "s3cret") None None))
  = Text ("id,username,created_at" ++ newline
          ++ "1," ++ quote ++ "a" ++ quote ++ quote ++ "b" ++ quote
          ++ ",2024-01-01" ++ newline).
Proof. vm_compute. reflexivity. Qed.

End Examples.

(* ------------------------------------------------------------------ *)
(** ** Registration and login together *)

Section Accounts.

Context {R : Type} {RO : SqlReal R} {XO : Runtime R} {BO : Bcrypt R}
        {JO : Jwt R} {EO : Engine R}.

Lemma find_none_existsb {A} (p : A -> bool) (l : list A) :
  find p l = None -> existsb p l = false.
Proof.
  induction l as [|x l IH]; cbn [find existsb]; [reflexivity|].
  destruct (p x); [discriminate|exact IH].
Qed.

Lemma find_some_existsb {A} (p : A -> bool) (l : list A) (x : A) :
  find p l = Some x -> existsb p l = true.
Proof.
  induction l as [|y l IH]; cbn [find existsb]; [discriminate|].
  destruct (p y); [reflexivity|exact IH].
Qed.

Lemma find_app_new {A} (p : A -> bool) (l : list A) (x : A) :
  find p l = None -> p x = true -> find p (l ++ [x]) = Some x.
Proof.
  induction l as [|y l IH]; cbn [find app]; intros Hl Hx.
  - now rewrite Hx.
  - destruct (p y); [discriminate|now apply IH].
Qed.

(** A request the guard lets pass has a truthy username and password. *)
Lemma register_passes_truthy (u p : value R) :
  register_rejects u p = Some false ->
  v_truthy u = true /\ v_truthy p = true.
Proof.
  unfold register_rejects.
  destruct (v_truthy u); cbn [negb]; [|discriminate].
  destruct (v_truthy p); cbn [negb]; [|discriminate]. auto.
Qed.

(** The row a registration has just inserted is the one a lookup of its
    username finds. *)
Lemma registered_lookup (db : store R) (ts name hash : string) :
  user_by_username db name = None ->
  user_by_username (registered db ts name hash) name
  = Some (registered_row db ts name hash).
Proof.
  intros Hnone. unfold user_by_username, registered. cbn [users].
  apply find_app_new; [exact Hnone|]. cbn [registered_row u_username].
  apply String.eqb_refl.
Qed.

(** X1.  A registration that passes the guard, whose password bcrypt
    hashes to [hash] and whose username is bound as the text [name] (a
    string username is bound as it is), is refused with 409, the store
    untouched, exactly when [name] already has a row; otherwise it
    answers 200 and the store gains exactly one user row, with the next
    rowid, [name], [hash] and the current timestamp, which a lookup of
    [name] then finds. *)
Theorem register_conflict_or_insert (cfg : config) (e : env) (db : store R)
    (req : request R) (hash name : string) :
  register_rejects (body_username req) (body_password req) = Some false ->
  bcrypt_hash (salt e) (body_password req) 10 = Some hash ->
  arg_text (body_username req) = Sql.Bound name ->
  let out := post_api_register cfg e db req in
  let row := registered_row db (CURRENT_TIMESTAMP e) name hash in
  match user_by_username db name with
  | Some _ =>
      resp out = Some (res_error 409 "Username already exists.")
      /\ store' out = db
  | None =>
      status_of out = Some 200
      /\ users (store' out) = (users db ++ [row])%list
      /\ history (store' out) = history db
      /\ users_seq (store' out) = users_seq db + 1
      /\ history_seq (store' out) = history_seq db
      /\ user_by_username (store' out) name = Some row
  end.
Proof.
  intros Hg Hh Hb. cbv zeta. unfold post_api_register.
  rewrite Hg, Hh, Hb. unfold insert_user.
  destruct (user_by_username db name) as [u|] eqn:E.
  - unfold user_by_username in E.
    rewrite (find_some_existsb _ _ _ E). split; reflexivity.
  - pose proof E as E'. unfold user_by_username in E'.
    rewrite (find_none_existsb _ _ E').
    cbn [resp store' users history users_seq history_seq status_of
         option_map status res_json].
    repeat split. now apply (registered_lookup db _ name hash).
Qed.

(** X2.  After a successful registration, a login with the same username
    and password succeeds whenever bcrypt accepts the password against
    the hash it made of it (and the username is bound to the same text
    in the query as in the insertion, as a string is), and returns the
    id, username and creation time of the row the registration
    inserted. *)
Theorem register_then_login (cfg : config) (e e1 : env) (db : store R)
    (req : request R) (hash name : string) :
  status_of (post_api_register cfg e db req) = Some 200 ->
  bcrypt_hash (salt e) (body_password req) 10 = Some hash ->
  arg_text (body_username req) = Sql.Bound name ->
  bound_text (body_username req) = Sql.Bound name ->
  bcrypt_compare (body_password req) hash = Some true ->
  resp (post_api_login cfg e1 (store' (post_api_register cfg e db req)) req)
  = Some (ok (Obj [("message", Str "Logged in");
                   ("token", Str (jwt_sign (users_seq db + 1) (Str name)
                                    (JWT_SECRET cfg) (now e1)));
                   ("user", Obj [("id", Int (users_seq db + 1));
                                 ("username", Str name);
                                 ("created_at",
                                  Str (CURRENT_TIMESTAMP e))])])).
Proof.
  intros Hst Hh Ha Hb Hcmp.
  destruct (post_api_register_cases cfg e db req)
    as [(hash' & name' & Hg & Hh' & Ha' & Hnone & Hout)
       |(_ & code & msg & Hr & Hc)].
  2:{ unfold status_of in Hst. rewrite Hr in Hst. cbn in Hst.
      injection Hst as Hst. lia. }
  assert (hash' = hash) as -> by congruence.
  assert (name' = name) as -> by congruence.
  rewrite Hout. cbn [store']. clear Hout.
  destruct (register_passes_truthy _ _ Hg) as [Tu Tp].
  unfold post_api_login. rewrite Tu, Tp, Hb. cbn [negb orb].
  rewrite (registered_lookup db (CURRENT_TIMESTAMP e) name hash Hnone).
  cbn [option_map].
  change (str_of (get_field "password_hash"
            (select_user ["id"; "username"; "password_hash"; "created_at"]
               (registered_row db (CURRENT_TIMESTAMP e) name hash))))
    with hash.
  rewrite Hcmp. reflexivity.
Qed.

End Accounts.

Lemma register_conflict_or_insert_witness :
  users (store' Plain.alice_registers) = [Plain.alice].
Proof.
  assert (Hg : register_rejects
                 (body_username (Plain.credentials "alice" "secret1"))
                 (body_password (Plain.credentials "alice" "secret1"))
               = Some false) by reflexivity.
  assert (Hh : bcrypt_hash "salt"
                 (body_password (Plain.credentials "alice" "secret1")) 10
               = Some "salt$secret1") by reflexivity.
  assert (Hb : arg_text (body_username (Plain.credentials "alice" "secret1"))
               = Sql.Bound "alice") by reflexivity.
  pose proof (register_conflict_or_insert Plain.cfg
                (Plain.at_ms 5000 "2024-01-01 00:00:00") empty_store
                (Plain.credentials "alice" "secret1")
                "salt$secret1" "alice" Hg Hh Hb) as H.
  cbv zeta in H.
  change (user_by_username (R:=Z) empty_store "alice")
    with (@None user_row) in H.
  cbv iota in H. exact (proj1 (proj2 H)).
Defined.

Lemma register_then_login_witness :
  status_of (post_api_login Plain.cfg Plain.before_expiry
               Plain.with_alice (Plain.credentials "alice" "secret1"))
  = Some 200.
Proof.
  assert (Hst : status_of (post_api_register Plain.cfg
                             (Plain.at_ms 5000 "2024-01-01 00:00:00")
                             empty_store
                             (Plain.credentials "alice" "secret1"))
                = Some 200) by reflexivity.
  assert (Hh : bcrypt_hash "salt"
                 (body_password (Plain.credentials "alice" "secret1")) 10
               = Some "salt$secret1") by reflexivity.
  assert (Ha : arg_text (body_username (Plain.credentials "alice" "secret1"))
               = Sql.Bound "alice") by reflexivity.
  assert (Hb : bound_text
                 (body_username (Plain.credentials "alice" "secret1"))
               = Sql.Bound "alice") by reflexivity.
  assert (Hc : bcrypt_compare
                 (body_password (Plain.credentials "alice" "secret1"))
                 "salt$secret1" = Some true) by reflexivity.
  pose proof (register_then_login Plain.cfg
                (Plain.at_ms 5000 "2024-01-01 00:00:00") Plain.before_expiry
                empty_store (Plain.credentials "alice" "secret1")
                "salt$secret1" "alice" Hst Hh Ha Hb Hc) as H.
  unfold status_of. unfold Plain.with_alice, Plain.alice_registers.
  cbn [handle]. rewrite H. reflexivity.
Defined.

(* ------------------------------------------------------------------ *)
(** ** Login outcomes, tokens over time *)

Section Sessions2.

Context {R : Type} {RO : SqlReal R} {XO : Runtime R} {BO : Bcrypt R}
        {JO : Jwt R} {EO : Engine R}.

(** X3.  A login never changes the store, and what it answers is decided
    as follows.  400 exactly when the username or the password is
    missing or otherwise falsy.  Otherwise, by the username as the query
    binds it: 500 exactly when the binding throws or the query fails;
    401 exactly when the username is bound as a text that has no row, or
    has a row and bcrypt finds the password not to match its hash; 200
    exactly when it has a row and bcrypt finds the password to match; and
    no answer at all exactly when it has a row and bcrypt rejects the
    password (data that is not a string), since nothing catches that
    rejection. *)
Theorem login_outcomes (cfg : config) (e : env) (db : store R)
    (req : request R) :
  let out := post_api_login cfg e db req in
  let present := v_truthy (body_username req) = true
                 /\ v_truthy (body_password req) = true in
  let row_and_compare (c : option bool) :=
    exists name u,
      bound_text (body_username req) = Sql.Bound name
      /\ user_by_username db name = Some u
      /\ bcrypt_compare (body_password req) (u_password_hash u) = c in
  store' out = db
  /\ (status_of out = Some 400
      <-> v_truthy (body_username req) = false
          \/ v_truthy (body_password req) = false)
  /\ (status_of out = Some 500
      <-> present /\ (bound_text (body_username req) = Sql.Throws
                      \/ bound_text (body_username req) = Sql.Fails))
  /\ (status_of out = Some 401
      <-> present
          /\ ((exists name, bound_text (body_username req) = Sql.Bound name
                            /\ user_by_username db name = None)
              \/ row_and_compare (Some false)))
  /\ (status_of out = Some 200 <-> present /\ row_and_compare (Some true))
  /\ (resp out = None <-> present /\ row_and_compare None)
  /\ (resp out = None \/ status_of out = Some 400
      \/ status_of out = Some 401 \/ status_of out = Some 500
      \/ status_of out = Some 200).
Proof.
  cbv zeta. split; [apply (post_api_login_cases cfg e db req)|].
  unfold post_api_login, status_of.
  destruct (v_truthy (body_username req)) eqn:Tu; cbn [negb orb].
  2:{ cbn. repeat split; auto; try discriminate; try tauto;
        try (now intros [[? ?] _]). }
  destruct (v_truthy (body_password req)) eqn:Tp; cbn [negb].
  2:{ cbn. repeat split; auto; try discriminate; try tauto;
        try (now intros [[? ?] _]). }
  destruct (bound_text (body_username req)) as [name| |] eqn:T.
  - destruct (user_by_username db name) as [u|] eqn:F; cbn [option_map].
    + change (str_of (get_field "password_hash"
                (select_user ["id"; "username"; "password_hash";
                              "created_at"] u)))
        with (u_password_hash u).
      destruct (bcrypt_compare (body_password req) (u_password_hash u))
        as [[|]|] eqn:C; cbn;
        (repeat split; auto; try discriminate; try tauto;
         try (now intros [? | ?]);
         try (now intros [_ [? | ?]]);
         try (intros [_ (n1 & u1 & [= <-] & Hu & Hc)]; congruence);
         try (intros [_ [(n1 & [= <-] & Hu)
                        |(n1 & u1 & [= <-] & Hu & Hc)]]; congruence);
         try (right; exists name, u; auto);
         try (exists name, u; auto)).
    + cbn. repeat split; auto; try discriminate; try tauto;
        try (now intros [? | ?]);
        try (now intros [_ [? | ?]]);
        try (intros [_ (n1 & u1 & [= <-] & Hu & Hc)]; congruence).
      left. exists name. auto.
  - cbn. repeat split; auto; try discriminate; try tauto;
      try (now intros [? | ?]);
      try (intros [_ (n1 & u1 & Hb & _)]; discriminate Hb);
      try (intros [_ [(n1 & Hb & _)|(n1 & u1 & Hb & _)]]; discriminate Hb).
  - cbn. repeat split; auto; try discriminate; try tauto;
      try (now intros [? | ?]);
      try (intros [_ (n1 & u1 & Hb & _)]; discriminate Hb);
      try (intros [_ [(n1 & Hb & _)|(n1 & u1 & Hb & _)]]; discriminate Hb).
Qed.

(** X4.  The token a successful registration returns opens GET /api/me
    until it expires, and GET /api/me then answers with the id the
    registration assigned and the registered username. *)
Theorem registered_token_opens_me (cfg : config) (e e1 : env)
    (db db1 : store R) (req req1 : request R) (tok : string) :
  jwt_lawful JO ->
  status_of (post_api_register cfg e db req) = Some 200 ->
  token_of (resp (post_api_register cfg e db req)) = Some tok ->
  headers_authorization req1 = Some ("Bearer " ++ tok) ->
  now e1 < (clock_seconds (now e) + 604800) * 1000 ->
  resp (get_api_me cfg e1 db1 req1)
  = Some (res_json
            (Obj [("user", Obj [("id", Int (users_seq db + 1));
                                ("username", body_username req)])]))
  /\ forall s, body_username req = Str s ->
       resp (get_api_me cfg e1 db1 req1)
       = Some (ok (Obj [("user", Obj [("id", Int (users_seq db + 1));
                                      ("username", Str s)])])).
Proof.
  intros law Hst Htok Hauth Hnow.
  rewrite (register_success cfg e db req Hst) in Htok.
  rewrite token_of_res_json in Htok. injection Htok as <-.
  assert (Hme : resp (get_api_me cfg e1 db1 req1)
    = Some (res_json
              (Obj [("user", Obj [("id", Int (users_seq db + 1));
                                  ("username",
                                   jsonify (body_username req))])]))).
  { unfold get_api_me.
    rewrite (authenticate_bearer cfg e1 db1 req1 _ _
               (issued_no_space _ _ _ _ law) Hauth).
    rewrite (verify_issued (users_seq db + 1) (body_username req)
               (JWT_SECRET cfg) (now e) (now e1) law).
    cbn [issued_claims jwt_exp jwt_id jwt_username].
    change (ms_7d / 1000) with 604800.
    apply Z.ltb_lt in Hnow. rewrite Hnow. reflexivity. }
  split.
  - rewrite Hme. f_equal. unfold res_json. f_equal. f_equal.
    cbn [jsonify]. rewrite jsonify_idem. reflexivity.
  - intros s Hs. rewrite Hme, Hs. reflexivity.
Qed.

Lemma clock_seconds_mono (t t1 : Z) :
  t <= t1 -> clock_seconds t <= clock_seconds t1.
Proof. intros H. unfold clock_seconds. apply Z.div_le_mono; lia. Qed.

(** X5.  Time only takes validity away: whatever the token, once
    [jwt.verify] rejects it as expired it rejects it as expired at every
    later instant, and a token accepted at some instant was accepted,
    with the same claims, at every earlier one. *)
Theorem expiry_is_final (token : option string) (secret : string)
    (t t1 : Z) :
  t <= t1 ->
  (jwt_verify token secret t = inl Expired ->
   jwt_verify token secret t1 = inl Expired)
  /\ (forall c, jwt_verify token secret t1 = inr c ->
                jwt_verify token secret t = inr c).
Proof.
  intros Ht. apply clock_seconds_mono in Ht. unfold jwt_verify.
  destruct token as [tk|]; [|split; [discriminate|intros c; discriminate]].
  destruct (tk =? "")%string; [split; [discriminate|intros c; discriminate]|].
  destruct (jws_decode tk) as [[c0 sig]|];
    [|split; [discriminate|intros c; discriminate]].
  destruct (negb (sig =? jws_sign secret c0)%string);
    [split; [discriminate|intros c; discriminate]|].
  destruct (Z.leb_spec (jwt_exp c0) (clock_seconds t));
    destruct (Z.leb_spec (jwt_exp c0) (clock_seconds t1));
    split; try discriminate; try reflexivity; try lia; auto.
Qed.

End Sessions2.

Lemma registered_token_opens_me_witness :
  resp (get_api_me Plain.cfg Plain.before_expiry Plain.with_alice
          (Plain.bearer Plain.alice_token))
  = Some (ok (Obj [("user", Obj [("id", Int 1);
                                 ("username", Str "alice")])])).
Proof.
  assert (Hst : status_of (post_api_register Plain.cfg
                             (Plain.at_ms 5000 "2024-01-01 00:00:00")
                             empty_store
                             (Plain.credentials "alice" "secret1"))
                = Some 200) by reflexivity.
  assert (Htok : token_of (resp (post_api_register Plain.cfg
                             (Plain.at_ms 5000 "2024-01-01 00:00:00")
                             empty_store
                             (Plain.credentials "alice" "secret1")))
                 = Some Plain.alice_token) by reflexivity.
  assert (Hauth : headers_authorization (Plain.bearer Plain.alice_token)
                  = Some ("Bearer " ++ Plain.alice_token)) by reflexivity.
  assert (Hnow : now Plain.before_expiry
                 < (clock_seconds
                      (now (Plain.at_ms 5000 "2024-01-01 00:00:00"))
                    + 604800) * 1000) by reflexivity.
  exact (proj2 (registered_token_opens_me Plain.cfg
                  (Plain.at_ms 5000 "2024-01-01 00:00:00")
                  Plain.before_expiry empty_store Plain.with_alice
                  (Plain.credentials "alice" "secret1")
                  (Plain.bearer Plain.alice_token) Plain.alice_token
                  plain_jwt_lawful Hst Htok Hauth Hnow)
           "alice" eq_refl).
Defined.

Lemma expiry_is_final_witness :
  jwt_verify (Some Plain.alice_token) (JWT_SECRET Plain.cfg) 604805001
  = inl Expired.
Proof.
  apply (proj1 (expiry_is_final (Some Plain.alice_token)
                  (JWT_SECRET Plain.cfg) 604805000 604805001
                  ltac:(lia))).
  vm_compute. reflexivity.
Defined.

(* ------------------------------------------------------------------ *)
(** ** Posting history *)

Section Posting.

Context {R : Type} {RO : SqlReal R} {XO : Runtime R} {BO : Bcrypt R}
        {JO : Jwt R} {EO : Engine R}.

(** X6.  POST /api/history writes only for a verified token whose
    username is truthy and is bound as a text: then it appends exactly
    one event, filed under the username of the token (the body cannot
    name another user), with the body's contributions or 0 where absent,
    the filename or "unknown", and the next rowid, which it returns; the
    users table is untouched.  In every other case it changes nothing:
    it answers 401 without a valid token or with a falsy username in
    it, and 500 when the username cannot be bound or the insertion
    fails. *)
Theorem history_post_outcomes (cfg : config) (e : env) (db : store R)
    (req : request R) :
  let out := post_api_history cfg e db req in
  match verified_user cfg e req with
  | None => status_of out = Some 401 /\ store' out = db
  | Some c =>
      if v_truthy (jwt_username c)
      then match bound_text (jwt_username c) with
           | Sql.Bound name =>
               resp out
               = Some (ok (Obj [("insertedId", Int (history_seq db + 1))]))
               /\ users (store' out) = users db
               /\ users_seq (store' out) = users_seq db
               /\ history (store' out)
                  = (history db ++ [posted_row e db name req])%list
               /\ history_seq (store' out) = history_seq db + 1
               /\ h_username (posted_row e db name req) = name
               /\ (forall s, jwt_username c = Str s -> name = s)
           | Sql.Throws =>
               resp out = Some express_error /\ store' out = db
           | Sql.Fails =>
               resp out = Some (res_error 500 "DB error") /\ store' out = db
           end
      else resp out = Some (res_error 401 "Unauthorized")
           /\ store' out = db
  end.
Proof.
  cbv zeta. pose proof (post_api_history_cases cfg e db req) as H.
  cbv zeta in H.
  destruct (verified_user cfg e req) as [c|];
    [|destruct H as [msg ->]; split; reflexivity].
  destruct (v_truthy (jwt_username c)); [|rewrite H; split; reflexivity].
  destruct (bound_text (jwt_username c)) as [name| |] eqn:B; rewrite H;
    try (split; reflexivity).
  repeat split. intros s Hs. rewrite Hs in B. cbn in B. congruence.
Qed.

Lemma summary_of_snoc (rows : list (history_row R)) (h : history_row R) :
  summary_of (rows ++ [h]) = add_event (summary_of rows) h.
Proof. unfold summary_of. now rewrite fold_left_app. Qed.

(** X7.  A successful POST /api/history adds the stored event,
    element-wise, to the summary of the token's user and leaves the
    summary of every other username as it was. *)
Theorem history_post_adds_to_summary (cfg : config) (e : env)
    (db : store R) (req : request R) (c : claims R) (name : string) :
  verified_user cfg e req = Some c ->
  v_truthy (jwt_username c) = true ->
  bound_text (jwt_username c) = Sql.Bound name ->
  forall username,
    summary_of (history_of (store' (post_api_history cfg e db req)) username)
    = if (username =? name)%string
      then add_event (summary_of (history_of db username))
             (posted_row e db name req)
      else summary_of (history_of db username).
Proof.
  intros Hv Ht Hb username.
  pose proof (post_api_history_cases cfg e db req) as H. cbv zeta in H.
  rewrite Hv, Ht, Hb in H. rewrite H.
  unfold history_of. cbn [store' history]. rewrite filter_app. cbn [filter].
  cbn [posted_row h_username]. rewrite (String.eqb_sym name).
  destruct (username =? name)%string.
  - apply summary_of_snoc.
  - now rewrite app_nil_r.
Qed.

End Posting.

Lemma history_post_adds_to_summary_witness :
  summary_of (history_of (store' Plain.alice_posts) "alice")
  = {| eco_points := 10; items_recycled := 1; carbon_saved_kg := 5 |}.
Proof.
  assert (Hv : verified_user Plain.cfg Plain.before_expiry
                 (Plain.post_event Plain.alice_token "bottle.jpg" 10 1 5)
               = Some {| jwt_id := 1; jwt_username := Str "alice";
                         jwt_iat := 5; jwt_exp := 604805 |})
    by (vm_compute; reflexivity).
  pose proof (history_post_adds_to_summary Plain.cfg Plain.before_expiry
                Plain.with_alice
                (Plain.post_event Plain.alice_token "bottle.jpg" 10 1 5)
                _ "alice" Hv eq_refl eq_refl "alice") as H.
  etransitivity; [exact H|]. reflexivity.
Defined.

(* ------------------------------------------------------------------ *)
(** ** The tables stay sound *)

Section Soundness.

Context {R : Type} {RO : SqlReal R} {XO : Runtime R} {BO : Bcrypt R}
        {JO : Jwt R} {EO : Engine R}.

Lemma NoDup_snoc {A} (l : list A) (x : A) :
  NoDup l -> ~ In x l -> NoDup (l ++ [x]).
Proof.
  intros Hl Hx. apply NoDup_app; repeat split; auto.
  - repeat constructor. intros [].
  - intros a Ha [<- | []]. contradiction.
Qed.

Lemma fresh_rowid {A} (id : A -> Z) (l : list A) (seq : Z) :
  Forall (fun x => id x <= seq) l -> ~ In (seq + 1) (map id l).
Proof.
  intros Hall Hin. apply in_map_iff in Hin. destruct Hin as (x & Hx & Hin).
  rewrite Forall_forall in Hall. specialize (Hall x Hin). lia.
Qed.

Lemma rowids_below_next {A} (id : A -> Z) (l : list A) (seq : Z) :
  Forall (fun x => id x <= seq) l -> Forall (fun x => id x <= seq + 1) l.
Proof. apply Forall_impl. intros x. lia. Qed.

Lemma me_store (cfg : config) (e : env) (db : store R) (req : request R) :
  store' (get_api_me cfg e db req) = db.
Proof.
  unfold get_api_me.
  match goal with
  | |- context [authenticate cfg e db req ?k] =>
      pose proof (authenticate_cases cfg e db req k) as H
  end.
  destruct (verified_user cfg e req) as [c|];
    [rewrite H|destruct H as [msg ->]]; reflexivity.
Qed.

(** Only registration and POST /api/history write to the store. *)
Lemma store_unchanged (rt : route) (cfg : config) (e : env) (db : store R)
    (req : request R) :
  rt <> POST_api_register -> rt <> POST_api_history ->
  store' (handle rt cfg e db req) = db.
Proof.
  intros Hreg Hpost. destruct rt; cbn [handle reply store'];
    try congruence; try reflexivity.
  - apply (post_api_login_cases cfg e db req).
  - apply me_store.
Qed.

(** What a registration does to the store: nothing, or one new row. *)
Lemma register_store (cfg : config) (e : env) (db : store R)
    (req : request R) :
  store' (post_api_register cfg e db req) = db
  \/ exists hash name,
       register_rejects (body_username req) (body_password req)
       = Some false
       /\ arg_text (body_username req) = Sql.Bound name
       /\ user_by_username db name = None
       /\ store' (post_api_register cfg e db req)
          = registered db (CURRENT_TIMESTAMP e) name hash.
Proof.
  destruct (post_api_register_cases cfg e db req)
    as [(hash & name & Hg & _ & Ha & Hnone & ->)|(Hs & _)];
    [right|now left].
  exists hash, name. repeat split; assumption.
Qed.

Lemma register_keeps_sound (cfg : config) (e : env) (db : store R)
    (req : request R) :
  tables_sound db ->
  tables_sound (store' (post_api_register cfg e db req)).
Proof.
  intros Hs.
  destruct (register_store cfg e db req)
    as [-> | (hash & name & _ & _ & Hnone & ->)]; [exact Hs|].
  destruct Hs as (Hn & Hi & Hb & Hhi & Hhb).
  unfold tables_sound, registered.
  cbn [users history users_seq history_seq].
  rewrite !map_app. cbn [map registered_row u_username u_id].
  repeat split; auto.
  - apply NoDup_snoc; [exact Hn|]. intros Hin.
    apply in_map_iff in Hin. destruct Hin as (u & Hu & Hin).
    unfold user_by_username in Hnone.
    apply find_none_existsb in Hnone.
    assert (Ht : existsb (fun r => (u_username r =? name)%string)
                   (users db) = true).
    { apply existsb_exists. exists u. split; [exact Hin|].
      now apply String.eqb_eq. }
    congruence.
  - apply NoDup_snoc; [exact Hi|]. now apply fresh_rowid.
  - apply Forall_app. split; [now apply rowids_below_next|].
    repeat constructor. cbn. lia.
Qed.

Lemma history_post_keeps_sound (cfg : config) (e : env) (db : store R)
    (req : request R) :
  tables_sound db ->
  tables_sound (store' (post_api_history cfg e db req)).
Proof.
  intros Hs. pose proof (post_api_history_cases cfg e db req) as H.
  cbv zeta in H.
  destruct (verified_user cfg e req) as [c|];
    [|destruct H as [msg ->]; exact Hs].
  destruct (v_truthy (jwt_username c)); [|rewrite H; exact Hs].
  destruct (bound_text (jwt_username c)) as [name| |]; rewrite H;
    try exact Hs.
  destruct Hs as (Hn & Hi & Hb & Hhi & Hhb).
  unfold tables_sound. cbn [store' users history users_seq history_seq].
  rewrite !map_app. cbn [map posted_row h_id]. repeat split; auto.
  - apply NoDup_snoc; [exact Hhi|]. now apply fresh_rowid.
  - apply Forall_app. split; [now apply rowids_below_next|].
    repeat constructor. cbn. lia.
Qed.

(** A string the guard lets pass as a username has three code units or
    more. *)
Lemma register_passes_length (s : string) (p : value R) :
  register_rejects (Str s) p = Some false -> (3 <= String.length s)%nat.
Proof.
  unfold register_rejects. cbn [v_truthy v_length v_lt].
  destruct (negb (negb (s =? "")%string)); [discriminate|].
  destruct (negb (v_truthy p)); [discriminate|].
  destruct (Z.ltb_spec (Z.of_nat (String.length s)) 3); [discriminate|].
  intros _. lia.
Qed.


(** Every store the server reaches from the empty one is sound. *)
Lemma reachable_stores_sound (cfg : config) (db : store R) :
  reachable cfg empty_store db -> tables_sound db.
Proof.
  induction 1 as [|db1 rt e req Hreach IH].
  - unfold tables_sound. cbn. repeat split; constructor.
  - pose proof (register_keeps_sound cfg e db1 req IH).
    pose proof (history_post_keeps_sound cfg e db1 req IH).
    assert (Hcases : rt = POST_api_register \/ rt = POST_api_history
                     \/ (rt <> POST_api_register /\ rt <> POST_api_history)).
    { destruct rt; auto; right; right; split; discriminate. }
    destruct Hcases as [-> | [-> | [Hreg Hpost]]]; cbn [handle]; auto.
    now rewrite (store_unchanged rt cfg e db1 req Hreg Hpost).
Qed.

End Soundness.

Lemma with_alice_sound : tables_sound Plain.with_alice.
Proof.
  unfold tables_sound. cbn.
  repeat split; repeat constructor; cbn; try lia; try (intros []).
Qed.


(* ------------------------------------------------------------------ *)
(** ** The admin routes behind the gate *)

Section AdminReads.

Context {R : Type} {RO : SqlReal R} {XO : Runtime R} {BO : Bcrypt R}
        {JO : Jwt R} {EO : Engine R}.

Lemma skipn_member {A} (n : nat) (l : list A) (x : A) :
  In x (skipn n l) -> In x l.
Proof.
  intros H. rewrite <- (firstn_skipn n l). apply in_or_app. now right.
Qed.

Lemma skipn_strongly_sorted {A} (P : A -> A -> Prop) (n : nat) (l : list A) :
  StronglySorted P l -> StronglySorted P (skipn n l).
Proof.
  revert l; induction n as [|n IH]; intros l Hs; [exact Hs|].
  destruct l as [|x l]; [constructor|]. cbn [skipn].
  inversion Hs; subst. now apply IH.
Qed.

Lemma users_by_id_desc_sorted (l : list user_row) :
  StronglySorted (fun a b => u_id b <= u_id a)
    (Sql.order_by (fun a b => u_id b <=? u_id a) l).
Proof.
  apply strongly_sorted_weaken
    with (P := Sql.precedes (fun a b => u_id b <=? u_id a)).
  - unfold Sql.precedes. intros a b. apply Z.leb_le.
  - apply Sorted_StronglySorted.
    + unfold Sql.precedes. intros a b c Hab Hbc.
      apply Z.leb_le in Hab, Hbc. apply Z.leb_le. lia.
    + apply order_by_sorted. intros a b H. apply Z.leb_gt in H.
      apply Z.leb_le. lia.
Qed.

Lemma users_by_id_asc_sorted (l : list user_row) :
  StronglySorted (fun a b => u_id a <= u_id b)
    (Sql.order_by (fun a b => u_id a <=? u_id b) l).
Proof.
  apply strongly_sorted_weaken
    with (P := Sql.precedes (fun a b => u_id a <=? u_id b)).
  - unfold Sql.precedes. intros a b. apply Z.leb_le.
  - apply Sorted_StronglySorted.
    + unfold Sql.precedes. intros a b c Hab Hbc.
      apply Z.leb_le in Hab, Hbc. apply Z.leb_le. lia.
    + apply order_by_sorted. intros a b H. apply Z.leb_gt in H.
      apply Z.leb_le. lia.
Qed.

(** X9.  The header shadows the query string: when the x-admin-secret
    header is there and not empty, it alone decides, so a wrong header is
    refused with 401 even if the admin_secret query parameter holds the
    right secret; when the header is absent or empty, the query parameter
    is the presented secret. *)
Theorem admin_header_shadows_query (rt : route) (cfg : config) (e : env)
    (db : store R) (req : request R) :
  rt = GET_admin_users \/ rt = GET_admin_user
  \/ rt = GET_admin_export_users_csv ->
  (forall h, headers_x_admin_secret req = Some h -> h <> "" ->
             h <> ADMIN_SECRET cfg ->
             resp (handle rt cfg e db req)
             = Some (res_error 401 "Admin auth required"))
  /\ (forall h, headers_x_admin_secret req = Some h -> h = ADMIN_SECRET cfg ->
                exists r, resp (handle rt cfg e db req) = Some r
                          /\ status r <> 401)
  /\ (headers_x_admin_secret req = None
      \/ headers_x_admin_secret req = Some "" ->
      presented_secret req = query_admin_secret req).
Proof.
  intros Hrt. repeat apply conj.
  - intros h Hh Hne Hbad.
    assert (Hp : presented_secret req <> Some (Js.QStr (ADMIN_SECRET cfg))).
    { unfold presented_secret. rewrite Hh.
      rewrite (truthy_nonempty h Hne). cbn. congruence. }
    destruct Hrt as [-> | [-> | ->]]; cbn [handle reply resp]; f_equal;
      now apply adminAuth_rejects.
  - intros h Hh ->. apply admin_handlers_never_401; [exact Hrt|].
    unfold presented_secret. rewrite Hh.
    now rewrite (truthy_nonempty _ (ADMIN_SECRET_nonempty cfg)).
  - intros [H | H]; unfold presented_secret; rewrite H; reflexivity.
Qed.


Lemma res_json_user_history (u : user_row) (hs : list (history_row R)) :
  res_json
    (Obj [("user", select_user ["id"; "username"; "created_at"] u);
          ("history",
           v_or (Arr (map (select_history history_cols) hs)) (Arr []))])
  = ok (Obj [("user", select_user ["id"; "username"; "created_at"] u);
             ("history", Arr (map (select_history history_cols) hs))]).
Proof.
  unfold res_json, ok. cbn. rewrite map_map.
  rewrite (map_ext _ (select_history history_cols)); [reflexivity|].
  intros h. reflexivity.
Qed.

(** X11.  With the admin secret, GET /admin/user/:id answers 400 when
    the id does not parse to a non-zero number, 404 when no user has the
    parsed id, and otherwise 200 with the user's id, username and
    created_at and at most 500 of that user's history events, latest
    first. *)
Theorem admin_user_detail (cfg : config) (db : store R) (req : request R) :
  presented_secret req = Some (Js.QStr (ADMIN_SECRET cfg)) ->
  match Js.parseInt (Some (params_id req)) with
  | Js.NaN => get_admin_user cfg db req = res_error 400 "Invalid id"
  | Js.Infinity _ => get_admin_user cfg db req = res_error 404 "Not found"
  | Js.Num id =>
      if id =? 0 then get_admin_user cfg db req = res_error 400 "Invalid id"
      else
        match user_by_id db id with
        | None => get_admin_user cfg db req = res_error 404 "Not found"
        | Some u =>
            let events := history_query db (u_username u) 500 in
            get_admin_user cfg db req
            = ok (Obj [("user",
                        select_user ["id"; "username"; "created_at"] u);
                       ("history",
                        Arr (map (select_history history_cols) events))])
            /\ (List.length events <= 500)%nat
            /\ (forall h, In h events ->
                  In h (history db) /\ h_username h = u_username u)
            /\ StronglySorted
                 (fun a b =>
                    String.leb (h_processed_at b) (h_processed_at a) = true)
                 events
        end
  end.
Proof.
  intros Hs. unfold get_admin_user. rewrite (adminAuth_admits _ _ _ Hs).
  cbv zeta. destruct (Js.parseInt (Some (params_id req))) as [|id|b];
    [reflexivity| |reflexivity].
  cbn [Js.truthy_num]. destruct (id =? 0); cbn [negb];
    [reflexivity|].
  destruct (user_by_id db id) as [u|]; [|reflexivity].
  destruct (history_query_rows db (u_username u) 500) as (Hin & Hsort & Hlen).
  repeat apply conj.
  - apply res_json_user_history.
  - apply (Hlen ltac:(lia)).
  - exact Hin.
  - exact Hsort.
Qed.

Lemma undouble_quoted (s : string) :
  undouble (Js.replace_all Js.dquote (quote ++ quote) s) = s.
Proof.
  induction s as [|a s IH]; [reflexivity|].
  cbn [Js.replace_all]. destruct (Ascii.eqb_spec a Js.dquote) as [->|Hne].
  - cbn [quote String.append undouble].
    rewrite Ascii.eqb_refl. cbn [andb].
    change (String Js.dquote quote) with (quote ++ quote). now rewrite IH.
  - cbn [undouble].
    destruct (Js.replace_all Js.dquote (quote ++ quote) s) as [|b t] eqn:E.
    + cbn [undouble] in IH. now rewrite <- IH.
    + apply Ascii.eqb_neq in Hne. rewrite Hne. cbn [andb]. now rewrite IH.
Qed.

Lemma or_empty_self (s : string) : Js.str (Js.or (Some s) (Some "")) = s.
Proof.
  unfold Js.or, Js.truthy. destruct (String.eqb_spec s ""); cbn [negb Js.str];
    congruence.
Qed.

(** X12.  With the admin secret, the CSV export answers 200 with the
    header line followed by one line per stored user, in ascending order
    of id.  A line is the id, the username between double quotes with
    each of its double quotes doubled, and created_at; undoing the
    doubling gives the username back, so no two usernames are written
    alike. *)
Theorem csv_export_lines (cfg : config) (db : store R) (req : request R) :
  presented_secret req = Some (Js.QStr (ADMIN_SECRET cfg)) ->
  exists rows : list user_row,
    Permutation rows (users db)
    /\ StronglySorted (fun a b => u_id a <= u_id b) rows
    /\ status (get_admin_export_users_csv cfg db req) = 200
    /\ body (get_admin_export_users_csv cfg db req)
       = Text (csv_header ++ String.concat "" (map csv_line rows))
    /\ (forall u,
          csv_line u
          = Js.string_of_Z (u_id u) ++ "," ++ quote ++ quoted_username u
              ++ quote ++ "," ++ u_created_at u ++ newline
          /\ undouble (quoted_username u) = u_username u)
    /\ (forall u1 u2, quoted_username u1 = quoted_username u2 ->
                      u_username u1 = u_username u2).
Proof.
  intros Hs. unfold get_admin_export_users_csv.
  rewrite (adminAuth_admits _ _ _ Hs). cbv zeta.
  exists (Sql.order_by (fun a b => u_id a <=? u_id b) (users db)).
  repeat apply conj.
  - symmetry. apply order_by_perm.
  - apply users_by_id_asc_sorted.
  - reflexivity.
  - reflexivity.
  - intros u. split; [|apply undouble_quoted].
    unfold csv_line, quoted_username. now rewrite or_empty_self.
  - intros u1 u2 H. rewrite <- (undouble_quoted (u_username u1)),
      <- (undouble_quoted (u_username u2)).
    unfold quoted_username in H. now rewrite H.
Qed.

End AdminReads.

Lemma admin_header_shadows_query_witness :
  resp (handle GET_admin_users Plain.cfg Plain.before_expiry
          Plain.with_alice
          (Plain.admin_request (Some "guess") (Some "s3cret") None))
  = Some (res_error 401 "Admin auth required").
Proof.
  apply (proj1 (admin_header_shadows_query GET_admin_users
                  Plain.cfg Plain.before_expiry Plain.with_alice
                  (Plain.admin_request (Some "guess") (Some "s3cret") None)
                  (or_introl eq_refl)) "guess" eq_refl);
    discriminate.
Defined.


Lemma admin_user_detail_witness :
  get_admin_user Plain.cfg Plain.with_alice
    (Plain.admin_request (Some "s3cret") None None)
  = ok (Obj [("user", Obj [("id", Int 1); ("username", Str "alice");
                           ("created_at", Str "2024-01-01 00:00:00")]);
             ("history", Arr [])]).
Proof.
  assert (Hs : presented_secret
                 (Plain.admin_request (Some "s3cret") None None)
               = Some (Js.QStr (ADMIN_SECRET Plain.cfg))) by reflexivity.
  pose proof (admin_user_detail Plain.cfg Plain.with_alice
                (Plain.admin_request (Some "s3cret") None None) Hs)
    as H.
  change (Js.parseInt
            (Some (params_id
                     (Plain.admin_request (Some "s3cret") None None))))
    with (Js.Num 1) in H.
  cbv iota in H. change (1 =? 0) with false in H. cbv iota in H.
  change (user_by_id Plain.with_alice 1) with (Some Plain.alice) in H.
  cbv iota zeta in H. exact (proj1 H).
Defined.

Lemma csv_export_lines_witness :
  exists rows : list user_row,
    Permutation rows (users Plain.quoted)
    /\ body (get_admin_export_users_csv Plain.cfg
               Plain.quoted (Plain.admin_request (Some "s3cret") None None))
       = Text (csv_header ++ String.concat "" (map csv_line rows)).
Proof.
  assert (Hs : presented_secret
                 (Plain.admin_request (Some "s3cret") None None)
               = Some (Js.QStr (ADMIN_SECRET Plain.cfg))) by reflexivity.
  destruct (csv_export_lines Plain.cfg Plain.quoted
              (Plain.admin_request (Some "s3cret") None None) Hs)
    as (rows & Hperm & _ & _ & Hbody & _).
  exists rows. split; assumption.
Defined.

(* ------------------------------------------------------------------ *)
(** ** Reads that agree *)

Section Agreement.

Context {R : Type} {RO : SqlReal R}.

(** X13.  When the limit in force is a 64-bit integer and all the
    events of a username fit it, the history listing answers 200 and
    holds every one of them, each as often as the log does: truncation
    only ever drops the oldest. *)
Theorem history_listing_complete (db : store R) (req : request R)
    (n : Js.number) (lim : Z) :
  Js.parseInt_qs (query_limit req) = Some n ->
  Sql.must_be_int (Js.or_num n 50) = inr lim ->
  (List.length (history_of db (params_username req)) <= Z.to_nat lim)%nat ->
  Permutation (history_query db (params_username req) lim)
    (history_of db (params_username req))
  /\ handleGetUserHistory db req
     = ok (Obj [("history",
                 Arr (map (select_history history_cols)
                        (history_query db (params_username req) lim)))]).
Proof.
  intros Hn Hlim Hfit. split.
  - unfold history_query. rewrite limit_all.
    + symmetry. apply order_by_perm.
    + now rewrite <- (Permutation_length (order_by_perm _ _)).
  - unfold handleGetUserHistory. rewrite Hn, Hlim. apply res_json_rows;
      [apply jsonify_history_row|discriminate].
Qed.

End Agreement.

Lemma history_listing_complete_witness :
  Permutation
    (history_query Plain.seeded "aakash shetty" 50)
    (history_of Plain.seeded "aakash shetty").
Proof.
  apply (proj1 (history_listing_complete Plain.seeded
                  (Plain.for_user "aakash shetty" None) Js.NaN 50
                  eq_refl eq_refl ltac:(cbn; lia))).
Defined.
(* ------------------------------------------------------------------ *)
(** ** Seeding the log *)

Section SeedFacts.

Context {R : Type} {RO : SqlReal R}.

Lemma seed_history_log (now_iso : string) (a b : R) (db : store R) :
  seed_history now_iso a b db
  = {| users := users db;
       history :=
         (history db ++
            [{| h_id := history_seq db + 1; h_username := "aakash shetty";
                h_filename := "plastic_bottle.jpg";
                h_processed_at := now_iso; h_eco_points_earned := 12;
                h_items_recycled := 1; h_carbon_saved_kg := a |}]) ++
            [{| h_id := history_seq db + 1 + 1;
                h_username := "aakash shetty";
                h_filename := "paper_box.jpg";
                h_processed_at := now_iso; h_eco_points_earned := 6;
                h_items_recycled := 1; h_carbon_saved_kg := b |}];
       users_seq := users_seq db;
       history_seq := history_seq db + 1 + 1 |}.
Proof. reflexivity. Qed.

Lemma seed_summary (now_iso : string) (a b : R) (db : store R) :
  summary_of (history_of (seed_history now_iso a b db) "aakash shetty")
  = let s := summary_of (history_of db "aakash shetty") in
    {| eco_points := eco_points s + 12 + 6;
       items_recycled := items_recycled s + 1 + 1;
       carbon_saved_kg := radd (radd (carbon_saved_kg s) a) b |}.
Proof.
  rewrite seed_history_log. unfold history_of. cbn [history].
  rewrite !filter_app. cbn [filter h_username]. cbn.
  rewrite !summary_of_snoc. reflexivity.
Qed.

(** X15.  Each run of seed_history.js appends its two events for
    "aakash shetty" and nothing else: the users table is untouched (the
    script registers nobody), the summary of that username grows by 18
    points, 2 items and the two carbon values, every other username keeps
    its events, and a second run adds the same again. *)
Theorem seed_adds_each_run (now_iso now_iso1 : string) (a b : R)
    (db : store R) :
  let db1 := seed_history now_iso a b db in
  let db2 := seed_history now_iso1 a b db1 in
  let s := summary_of (history_of db "aakash shetty") in
  users db1 = users db
  /\ List.length (history db1) = (List.length (history db) + 2)%nat
  /\ (forall u, u <> "aakash shetty" -> history_of db1 u = history_of db u)
  /\ eco_points (summary_of (history_of db1 "aakash shetty"))
     = eco_points s + 18
  /\ items_recycled (summary_of (history_of db1 "aakash shetty"))
     = items_recycled s + 2
  /\ carbon_saved_kg (summary_of (history_of db1 "aakash shetty"))
     = radd (radd (carbon_saved_kg s) a) b
  /\ eco_points (summary_of (history_of db2 "aakash shetty"))
     = eco_points s + 36
  /\ List.length (history db2) = (List.length (history db) + 4)%nat.
Proof.
  cbv zeta. repeat apply conj.
  - reflexivity.
  - rewrite seed_history_log. cbn [history]. rewrite !length_app. cbn. lia.
  - intros u Hu. rewrite seed_history_log. unfold history_of. cbn [history].
    rewrite !filter_app. cbn [filter h_username].
    apply String.eqb_neq in Hu. rewrite String.eqb_sym in Hu. rewrite Hu.
    now rewrite !app_nil_r.
  - rewrite seed_summary. cbn. lia.
  - rewrite seed_summary. cbn. lia.
  - rewrite seed_summary. reflexivity.
  - rewrite !seed_summary. cbn. lia.
  - rewrite !seed_history_log. cbn [history]. rewrite !length_app. cbn. lia.
Qed.

End SeedFacts.

(* ------------------------------------------------------------------ *)
(** ** The name of an upload *)

Section UploadName.

Import Upload.

Lemma no_ws_app (a b : string) : no_ws (a ++ b) = no_ws a && no_ws b.
Proof.
  induction a as [|c a IH]; cbn [String.append no_ws]; [reflexivity|].
  rewrite IH. apply andb_assoc.
Qed.

Lemma no_ws_uint (d : Decimal.uint) :
  no_ws (NilEmpty.string_of_uint d) = true.
Proof. induction d; cbn [NilEmpty.string_of_uint no_ws]; auto. Qed.

Lemma no_ws_nilzero_uint (d : Decimal.uint) :
  no_ws (NilZero.string_of_uint d) = true.
Proof.
  destruct d; [reflexivity|..];
    match goal with
    | |- no_ws (NilZero.string_of_uint ?x) = true => exact (no_ws_uint x)
    end.
Qed.

Lemma no_ws_string_of_Z (z : Z) : no_ws (Js.string_of_Z z) = true.
Proof.
  unfold Js.string_of_Z, NilZero.string_of_int.
  destruct (Z.to_int z) as [d|d]; [apply no_ws_nilzero_uint|].
  cbn [no_ws]. now rewrite no_ws_nilzero_uint.
Qed.

Lemma no_ws_collapse (in_run : bool) (s : string) :
  no_ws (collapse_ws in_run s) = true.
Proof.
  revert in_run; induction s as [|c s IH]; intros in_run; [reflexivity|].
  cbn [collapse_ws]. destruct (Js.is_ws c) eqn:E.
  - destruct in_run; [apply IH|]. cbn [no_ws]. now rewrite IH.
  - cbn [no_ws]. now rewrite E, IH.
Qed.

Lemma collapse_no_ws (s : string) :
  no_ws s = true -> collapse_ws false s = s.
Proof.
  induction s as [|c s IH]; [reflexivity|]. cbn [no_ws collapse_ws].
  intros H. apply andb_true_iff in H. destruct H as [Hc Hs].
  apply negb_true_iff in Hc. rewrite Hc. now rewrite IH.
Qed.

(** X16.  The name multer stores an upload under never holds white
    space, whatever the original name; an original name without white
    space is kept as it is behind the time stamp and the underscore. *)
Theorem upload_name_has_no_white_space (now : Z) (originalname : string) :
  no_ws (filename now originalname) = true
  /\ (no_ws originalname = true ->
      filename now originalname
      = Js.string_of_Z now ++ "_" ++ originalname).
Proof.
  unfold filename. split.
  - rewrite !no_ws_app, no_ws_string_of_Z, no_ws_collapse. reflexivity.
  - intros H. now rewrite (collapse_no_ws _ H).
Qed.

End UploadName.

(* ------------------------------------------------------------------ *)
(** ** The migration *)

Section MigrationFacts.

Import Migration.

Lemma same_ident_refl (a : string) : same_ident a a = true.
Proof. unfold same_ident. apply String.eqb_refl. Qed.

Lemma same_ident_of_eq (a b : string) :
  (a =? b)%string = true -> same_ident a b = true.
Proof. intros H. apply String.eqb_eq in H. subst. apply same_ident_refl. Qed.

Lemma extends_refl (db : database) : extends db db.
Proof.
  induction db as [|tb db IH]; cbn [extends]; [exact I|].
  repeat split; [|exact IH]. exists []. now rewrite app_nil_r.
Qed.

Lemma extends_trans (a b c : database) :
  extends a b -> extends b c -> extends a c.
Proof.
  revert b c; induction a as [|ta a IH]; intros [|tb b] [|tc c];
    cbn [extends]; try tauto.
  intros (Hn1 & (m1 & Hm1) & H1) (Hn2 & (m2 & Hm2) & H2).
  repeat split; [congruence| |eapply IH; eassumption].
  exists (m1 ++ m2)%list. rewrite Hm2, Hm1. now rewrite app_assoc.
Qed.

Lemma tableExists_extends (db db1 : database) (t : string) :
  extends db db1 -> tableExists db1 t = tableExists db t.
Proof.
  unfold tableExists.
  revert db1; induction db as [|tb db IH]; intros [|tb1 db1];
    cbn [extends]; try tauto.
  intros (Hn & _ & H). cbn [filter]. rewrite Hn.
  specialize (IH db1 H).
  destruct (fst tb =? t)%string; [reflexivity|exact IH].
Qed.

(** What a successful ADD COLUMN leaves. *)
Lemma add_column_some (db db1 : database) (t : string) (c : column) :
  add_column db t c = Some db1 ->
  table_info db1 t = (table_info db t ++ [c])%list /\ extends db db1.
Proof.
  revert db1; induction db as [|tb db IH]; intros db1; cbn [add_column];
    [discriminate|].
  destruct (same_ident (fst tb) t) eqn:E.
  - destruct (existsb _ (snd tb)); [discriminate|]. intros [= <-].
    cbn [table_info fst snd]. rewrite E. split; [reflexivity|].
    cbn [extends fst snd]. repeat split; [now exists [c]|apply extends_refl].
  - destruct (add_column db t c) as [db2|]; cbn [option_map]; [|discriminate].
    intros [= <-]. destruct (IH db2 eq_refl) as [Hi He].
    cbn [table_info]. rewrite E. split; [exact Hi|].
    cbn [extends]. repeat split; [|exact He]. exists []. now rewrite app_nil_r.
Qed.

Lemma add_missing_extends (cols : list column) (db : database) :
  extends db (snd (add_missing cols db)).
Proof.
  revert db; induction cols as [|c cols IH]; intros db; cbn [add_missing snd];
    [apply extends_refl|].
  destruct (columnExists db "history" (col_name c)); [apply IH|].
  destruct (add_column db "history" c) as [db1|] eqn:E;
    [|apply extends_refl].
  eapply extends_trans; [apply (add_column_some _ _ _ _ E)|apply IH].
Qed.

Lemma columnExists_added (db db1 : database) (c : column) (n : string) :
  add_column db "history" c = Some db1 ->
  columnExists db1 "history" n
  = columnExists db "history" n || (col_name c =? n)%string.
Proof.
  intros E. unfold columnExists.
  rewrite (proj1 (add_column_some _ _ _ _ E)), existsb_app.
  cbn [existsb]. now rewrite orb_false_r.
Qed.

Lemma add_missing_keeps (cols : list column) (db : database) (n : string) :
  columnExists db "history" n = true ->
  columnExists (snd (add_missing cols db)) "history" n = true.
Proof.
  revert db; induction cols as [|c cols IH]; intros db Hn;
    cbn [add_missing snd]; [exact Hn|].
  destruct (columnExists db "history" (col_name c)); [now apply IH|].
  destruct (add_column db "history" c) as [db1|] eqn:E; [|exact Hn].
  apply IH. rewrite (columnExists_added _ _ _ _ E), Hn. reflexivity.
Qed.

Lemma add_missing_complete (cols : list column) (db : database) :
  fst (add_missing cols db) = true ->
  forall c, In c cols ->
    columnExists (snd (add_missing cols db)) "history" (col_name c) = true.
Proof.
  revert db; induction cols as [|c cols IH]; intros db Hok c1 Hin;
    [destruct Hin|].
  cbn [add_missing] in *.
  destruct (columnExists db "history" (col_name c)) eqn:Ex.
  - destruct Hin as [<- | Hin]; [now apply add_missing_keeps|now apply IH].
  - destruct (add_column db "history" c) as [db1|] eqn:E;
      [|discriminate Hok].
    destruct Hin as [<- | Hin]; [|now apply IH].
    apply add_missing_keeps. rewrite (columnExists_added _ _ _ _ E).
    rewrite String.eqb_refl. apply orb_true_r.
Qed.

Lemma add_missing_noop (cols : list column) (db : database) :
  (forall c, In c cols -> columnExists db "history" (col_name c) = true) ->
  add_missing cols db = (true, db).
Proof.
  induction cols as [|c cols IH]; intros Hall; cbn [add_missing];
    [reflexivity|].
  rewrite (Hall c (or_introl eq_refl)). apply IH.
  intros c1 Hc1. apply Hall. now right.
Qed.

Lemma backup_name_differs (p iso : string) : backup_name p iso <> p.
Proof.
  unfold backup_name. intros H. apply (f_equal String.length) in H.
  rewrite string_length_app in H. cbn [String.append String.length] in H.
  lia.
Qed.

Lemma read_write_same (p : string) (d : database) (fs : files) :
  read_file p (write_file p d fs) = Some d.
Proof.
  unfold read_file, write_file. cbn [find fst]. now rewrite String.eqb_refl.
Qed.

Lemma read_write_other (p q : string) (d : database) (fs : files) :
  p <> q -> read_file p (write_file q d fs) = read_file p fs.
Proof.
  intros Hpq. unfold read_file, write_file. cbn [find fst].
  assert (Hq : (q =? p)%string = false)
    by (apply String.eqb_neq; congruence).
  rewrite Hq. f_equal.
  induction fs as [|f fs IH]; cbn [filter find]; [reflexivity|].
  destruct (String.eqb_spec (fst f) q) as [Hf|Hf]; cbn [negb find].
  - rewrite Hf, Hq. exact IH.
  - destruct (fst f =? p)%string; [reflexivity|exact IH].
Qed.

(** X17.  The migration never loses anything.  Without the database file
    it exits 1 and touches no file.  Otherwise a copy of the file as it
    was is left under the backup name, whatever happens next; the file
    keeps its tables, in order and under their names, and each table its
    columns, old ones first; the exit code is 0 or 1, and 0 only with
    all three columns in place; a database without a history table is
    left exactly as it was, with exit code 1. *)
Theorem migration_keeps_and_completes (dbPath iso : string) (fs : files) :
  match read_file dbPath fs with
  | None => main dbPath iso fs = (1, fs)
  | Some db =>
      exists db1,
        read_file dbPath (snd (main dbPath iso fs)) = Some db1
        /\ extends db db1
        /\ read_file (backup_name dbPath iso) (snd (main dbPath iso fs))
           = Some db
        /\ (fst (main dbPath iso fs) = 0 \/ fst (main dbPath iso fs) = 1)
        /\ (fst (main dbPath iso fs) = 0 ->
            forall c, In c colsToAdd ->
                      columnExists db1 "history" (col_name c) = true)
        /\ (tableExists db "history" = false ->
            fst (main dbPath iso fs) = 1 /\ db1 = db)
  end.
Proof.
  unfold main. destruct (read_file dbPath fs) as [db|] eqn:Hread;
    [|reflexivity].
  pose proof (backup_name_differs dbPath iso) as Hne.
  destruct (tableExists db "history") eqn:Ht; cbn [negb].
  - pose proof (add_missing_extends colsToAdd db) as Hext.
    pose proof (add_missing_complete colsToAdd db) as Hall.
    destruct (add_missing colsToAdd db) as [done db1]. cbn [fst snd] in *.
    exists db1. repeat apply conj.
    + apply read_write_same.
    + exact Hext.
    + rewrite read_write_other by exact Hne. apply read_write_same.
    + destruct done; auto.
    + destruct done; [intros _; now apply Hall|discriminate].
    + discriminate.
  - exists db. cbn [fst snd]. repeat apply conj.
    + rewrite read_write_other by congruence. exact Hread.
    + apply extends_refl.
    + apply read_write_same.
    + now right.
    + discriminate.
    + auto.
Qed.

(** X18.  The migration is idempotent: after a run that exited 0, a
    second run exits 0 again and leaves the database file exactly as the
    first run left it. *)
Theorem migration_is_idempotent (dbPath iso iso1 : string) (fs : files) :
  fst (main dbPath iso fs) = 0 ->
  fst (main dbPath iso1 (snd (main dbPath iso fs))) = 0
  /\ read_file dbPath (snd (main dbPath iso1 (snd (main dbPath iso fs))))
     = read_file dbPath (snd (main dbPath iso fs)).
Proof.
  intros H0.
  assert (Hfirst : exists db1,
            snd (main dbPath iso fs)
            = write_file dbPath db1
                (write_file (backup_name dbPath iso)
                   (match read_file dbPath fs with
                    | Some db => db
                    | None => db1
                    end) fs)
            /\ tableExists db1 "history" = true
            /\ forall c, In c colsToAdd ->
                         columnExists db1 "history" (col_name c) = true).
  { unfold main in *.
    destruct (read_file dbPath fs) as [db|]; [|discriminate H0].
    destruct (tableExists db "history") eqn:Ht; cbn [negb] in *;
      [|discriminate H0].
    pose proof (add_missing_extends colsToAdd db) as Hext.
    pose proof (add_missing_complete colsToAdd db) as Hall.
    destruct (add_missing colsToAdd db) as [done db1]. cbn [fst snd] in *.
    destruct done; [|discriminate H0].
    exists db1. repeat split; [|now apply Hall].
    now rewrite (tableExists_extends _ _ _ Hext). }
  destruct Hfirst as (db1 & -> & Ht1 & Hall1).
  unfold main. rewrite read_write_same, Ht1. cbn [negb].
  rewrite (add_missing_noop _ _ Hall1). cbn [fst snd].
  split; [reflexivity|]. now rewrite !read_write_same.
Qed.

End MigrationFacts.

Section MigrationOutcome.

Import Migration.

Lemma has_table_extends (db db1 : database) (t : string) :
  extends db db1 -> has_table db1 t = has_table db t.
Proof.
  unfold has_table.
  revert db1; induction db as [|tb db IH]; intros [|tb1 db1];
    cbn [extends]; try tauto.
  intros (Hn & _ & H). cbn [existsb]. rewrite Hn. now rewrite (IH db1 H).
Qed.

Lemma tableExists_has_table (db : database) (t : string) :
  tableExists db t = true -> has_table db t = true.
Proof.
  unfold tableExists, has_table. induction db as [|tb db IH];
    cbn [filter existsb List.length]; [discriminate|].
  destruct (fst tb =? t)%string eqn:E.
  - intros _. now rewrite (same_ident_of_eq _ _ E).
  - intros H. rewrite (IH H). apply orb_true_r.
Qed.

(** ADD COLUMN fails exactly for want of the table or for a column that
    answers to the name. *)
Lemma add_column_none (db : database) (t : string) (c : column) :
  add_column db t c = None
  <-> has_table db t = false
      \/ existsb (fun r => same_ident (col_name r) (col_name c))
           (table_info db t) = true.
Proof.
  unfold has_table. induction db as [|tb db IH];
    cbn [add_column existsb table_info]; [tauto|].
  destruct (same_ident (fst tb) t) eqn:E; cbn [orb].
  - destruct (existsb _ (snd tb)); split; try tauto; try discriminate.
    intros [H | H]; discriminate H.
  - destruct (add_column db t c) as [db2|]; cbn [option_map].
    + split; [discriminate|]. intros H. apply IH in H. discriminate H.
    + split; [intros _; now apply IH|reflexivity].
Qed.

Lemma different_ident (a b : string) :
  same_ident a b = false -> (a =? b)%string = false.
Proof.
  intros H. destruct (a =? b)%string eqn:E; [|reflexivity].
  apply same_ident_of_eq in E. congruence.
Qed.

(** With the table there and the wanted columns answering to different
    names, the loop gets through exactly when each wanted column is
    there under its exact name or under no spelling at all. *)
Lemma add_missing_done (cols : list column) (db : database) :
  has_table db "history" = true ->
  distinct_idents cols ->
  fst (add_missing cols db) = true
  <-> forall c, In c cols ->
        columnExists db "history" (col_name c) = true
        \/ clashes db c = false.
Proof.
  revert db; induction cols as [|c cols IH]; intros db Ht Hd;
    cbn [add_missing].
  - split; [intros _ c []|reflexivity].
  - destruct Hd as [Hc Hd].
    destruct (columnExists db "history" (col_name c)) eqn:Ex.
    + rewrite (IH db Ht Hd). split.
      * intros H c1 [<- | Hin]; [now left|now apply H].
      * intros H c1 Hin. apply H. now right.
    + destruct (add_column db "history" c) as [db1|] eqn:E.
      * assert (Hnone : add_column db "history" c <> None) by congruence.
        rewrite add_column_none in Hnone.
        assert (Hcl : clashes db c = false).
        { unfold clashes. destruct (existsb _ _); [|reflexivity].
          exfalso. apply Hnone. now right. }
        destruct (add_column_some _ _ _ _ E) as [Hinfo Hext].
        rewrite (IH db1) by
          (try rewrite (has_table_extends _ _ _ Hext); assumption).
        assert (Hsame : forall c1, In c1 cols ->
                  columnExists db1 "history" (col_name c1)
                  = columnExists db "history" (col_name c1)
                  /\ clashes db1 c1 = clashes db c1).
        { intros c1 Hin. rewrite Forall_forall in Hc.
          specialize (Hc c1 Hin). split.
          - rewrite (columnExists_added _ _ _ _ E).
            rewrite (different_ident _ _ Hc). apply orb_false_r.
          - unfold clashes. rewrite Hinfo, existsb_app. cbn [existsb].
            rewrite Hc. now rewrite !orb_false_r. }
        split.
        -- intros H c1 [<- | Hin]; [now right|].
           destruct (Hsame c1 Hin) as [<- <-]. now apply H.
        -- intros H c1 Hin. destruct (Hsame c1 Hin) as [-> ->].
           apply H. now right.
      * split; [discriminate|]. intros H.
        destruct (H c (or_introl eq_refl)) as [H1 | H1]; [congruence|].
        assert (Hn : add_column db "history" c = None) by exact E.
        apply add_column_none in Hn. destruct Hn as [Hn | Hn];
          [congruence|]. unfold clashes in H1. congruence.
Qed.

Lemma colsToAdd_distinct : distinct_idents colsToAdd.
Proof. cbn. repeat split; repeat constructor. Qed.

(** X19.  When the database file is there, the migration exits 0 exactly
    when the database has a table named history and each of the three
    columns is either there under its exact name or absent under every
    spelling; a column that differs from a wanted one only in the case of
    its letters makes the run fail. *)
Theorem migration_succeeds_exactly_when (dbPath iso : string) (fs : files)
    (db : database) :
  read_file dbPath fs = Some db ->
  fst (main dbPath iso fs) = 0
  <-> tableExists db "history" = true
      /\ forall c, In c colsToAdd ->
           columnExists db "history" (col_name c) = true
           \/ clashes db c = false.
Proof.
  intros Hread. unfold main. rewrite Hread.
  destruct (tableExists db "history") eqn:Ht; cbn [negb].
  - pose proof (add_missing_done colsToAdd db
                  (tableExists_has_table _ _ Ht) colsToAdd_distinct) as Hd.
    destruct (add_missing colsToAdd db) as [done db1]. cbn [fst] in *.
    destruct done.
    + split; [intros _; split; [reflexivity|now apply Hd]|reflexivity].
    + split; [discriminate|]. intros [_ H]. apply Hd in H. discriminate H.
  - cbn [fst]. split; [discriminate|]. intros [H _]. discriminate H.
Qed.

End MigrationOutcome.

Section MigrationFirstVersion.

Import Migration.

(** X20.  The first version of the migration, [run], behaves alike on
    the database itself: it cannot run without the file; otherwise the
    tables and their old columns are kept, exit code 0 means that all
    three columns are in place, and a second run after a run that exited
    0 exits 0 and changes nothing. *)
Theorem first_migration_keeps_and_repeats (file : option database) :
  match file with
  | None => run file = (1, None)
  | Some db =>
      exists db1,
        snd (run file) = Some db1
        /\ extends db db1
        /\ (fst (run file) = 0 ->
            (forall c, In c colsToAdd ->
                       columnExists db1 "history" (col_name c) = true)
            /\ run (Some db1) = (0, Some db1))
  end.
Proof.
  destruct file as [db|]; [|reflexivity]. unfold run.
  pose proof (add_missing_extends colsToAdd db) as Hext.
  pose proof (add_missing_complete colsToAdd db) as Hall.
  destruct (add_missing colsToAdd db) as [done db1]. cbn [fst snd] in *.
  exists db1. split; [reflexivity|]. split; [exact Hext|].
  intros H0. destruct done; [|discriminate H0]. split.
  - now apply Hall.
  - now rewrite (add_missing_noop _ _ (Hall eq_refl)).
Qed.

End MigrationFirstVersion.


(* ------------------------------------------------------------------ *)
(** ** The home page against the backend *)

Section HomeFacts.

Context {R : Type} {RO : SqlReal R} {XO : Runtime R} {BO : Bcrypt R}
        {JO : Jwt R} {EO : Engine R}.

(** The user object of GET /api/me as it arrives: the username as JSON
    keeps it. *)
Lemma me_user_arrives (id : Z) (u : value R) :
  get_field "user"
    (jsonify (Obj [("user", Obj [("id", Int id); ("username", u)])]))
  = jsonify (Obj [("id", Int id); ("username", u)])
  /\ get_field "username" (jsonify (Obj [("id", Int id); ("username", u)]))
     = jsonify u.
Proof. cbn. destruct (jsonify u); split; reflexivity. Qed.

(** What [fetchMe] gets from GET /api/me for a stored token. *)
Lemma fetchMe_api_me (cfg : config) (e : env) (db : store R) (tok : string) :
  tok <> "" -> Js.no_space tok = true ->
  fetchMe (api_me cfg e db) (Some tok)
  = match jwt_verify (Some tok) (JWT_SECRET cfg) (now e) with
    | inr c => Some (jsonify (Obj [("id", Int (jwt_id c));
                                   ("username", jwt_username c)]))
    | inl _ => None
    end.
Proof.
  intros Hne Hns. unfold fetchMe. rewrite (truthy_nonempty _ Hne).
  cbn [negb Js.str]. unfold api_me, get_api_me.
  rewrite (authenticate_bearer cfg e db
             (bare_request (Some ("Bearer " ++ tok))) _ tok Hns eq_refl).
  destruct (jwt_verify (Some tok) (JWT_SECRET cfg) (now e)) as [err|c];
    [reflexivity|].
  cbn [reply resp res_json body status res_ok]. cbn [Z.leb andb negb].
  change ((200 <=? 200) && (200 <=? 299)) with true. cbn [negb].
  rewrite (proj1 (me_user_arrives (jwt_id c) (jwt_username c))).
  cbn. destruct (jsonify (jwt_username c)); reflexivity.
Qed.

(** X21.  [init] of the home page follows the backend's verdict on the
    stored token.  With a token that GET /api/me verifies, the token
    stays in storage, the username of its claims, as it arrives, is
    stored (removed if falsy) and greeted, and the logout button shows;
    a username that is a string is stored and greeted as it is.  With a
    token the backend rejects, or when the request fails altogether, the
    token and the username are removed from storage and the guest line
    shows.  Without a stored token the backend is not asked. *)
Theorem home_init_follows_backend (cfg : config) (e : env) (db : store R)
    (ls : local_storage) :
  (forall tok, ecowise_token ls = Some tok -> tok <> "" ->
     (Js.no_space tok = true ->
      match jwt_verify (Some tok) (JWT_SECRET cfg) (now e) with
      | inr c =>
          let page := init (api_me cfg e db) ls in
          let u := jsonify (jwt_username c) in
          ecowise_token (storage page) = Some tok
          /\ ecowise_username (storage page)
             = (if v_truthy u then Some (v_to_string u) else None)
          /\ welcomeLine page = WelcomeBack (v_to_string u)
          /\ logoutBtn page = true /\ authLinks page = false
          /\ (forall s, jwt_username c = Str s ->
                ecowise_username (storage page)
                = (if (s =? "")%string then None else Some s)
                /\ welcomeLine page = WelcomeBack s)
      | inl _ =>
          init (api_me cfg e db) ls
          = showGuest {| ecowise_token := None; ecowise_username := None |}
              None
      end)
     /\ init (fun _ => None) ls
        = showGuest {| ecowise_token := None; ecowise_username := None |}
            None)
  /\ (Js.truthy (ecowise_token ls) = false ->
      forall server,
        init server ls = showGuest ls (ecowise_token ls)
        /\ ecowise_token (storage (init server ls)) = ecowise_token ls).
Proof.
  split.
  - intros tok Htok Hne. split.
    + intros Hns. unfold init. rewrite Htok, (truthy_nonempty _ Hne).
      cbn [negb]. rewrite (fetchMe_api_me cfg e db tok Hne Hns).
      destruct (jwt_verify (Some tok) (JWT_SECRET cfg) (now e)) as [err|c].
      * reflexivity.
      * cbv zeta.
        rewrite (proj2 (me_user_arrives (jwt_id c) (jwt_username c))).
        unfold showUser. cbn [storage ecowise_token
          ecowise_username welcomeLine logoutBtn authLinks].
        rewrite Htok. repeat split.
        -- rewrite H. cbn [jsonify v_truthy v_to_string].
           destruct (s =? "")%string; reflexivity.
        -- rewrite H. reflexivity.
    + unfold init. rewrite Htok, (truthy_nonempty _ Hne). cbn [negb].
      unfold fetchMe. rewrite (truthy_nonempty _ Hne). reflexivity.
  - intros Hfalsy server. unfold init. rewrite Hfalsy. cbn [negb].
    split; reflexivity.
Qed.

End HomeFacts.

(* ------------------------------------------------------------------ *)
(** ** The migration at work *)

Lemma migration_is_idempotent_witness :
  fst (Migration.main "users.db" "2024-02-01T00:00:00.000Z"
         (snd (Migration.main "users.db" "2024-01-01T00:00:00.000Z"
                 [("users.db", Migration.old_schema)])))
  = 0.
Proof.
  exact (proj1 (migration_is_idempotent "users.db"
                  "2024-01-01T00:00:00.000Z" "2024-02-01T00:00:00.000Z"
                  [("users.db", Migration.old_schema)] eq_refl)).
Defined.

Lemma migration_succeeds_exactly_when_witness :
  fst (Migration.main "users.db" "2024-01-01T00:00:00.000Z"
         [("users.db", Migration.old_schema)]) = 0
  <-> Migration.tableExists Migration.old_schema "history" = true
      /\ forall c, In c Migration.colsToAdd ->
           Migration.columnExists Migration.old_schema "history"
             (Migration.col_name c) = true
           \/ Migration.clashes Migration.old_schema c = false.
Proof.
  exact (migration_succeeds_exactly_when "users.db"
           "2024-01-01T00:00:00.000Z" [("users.db", Migration.old_schema)]
           Migration.old_schema eq_refl).
Defined.
